(** * Dixon-Coles rating and prediction engine (phase3_dixon_coles.py)

    A shallow embedding of [DixonColesModel] (time-decayed team ratings,
    tau correction, scoreline grid, Brier score), of the
    [get_training_data] size gate, of [main] up to the end of its
    evaluation loop and of [store_predictions], and of [SimpleDixonColes]
    (phase3_dixon_coles_simple.py), the variant without time decay, tau
    correction and normalisation.

    Numbers.  Python floats are read as real numbers ([R]), in two
    readings of the same code.  The definitions at top level ([fit],
    [predict], ...) read [math.exp] and [**] as the real functions: they
    say what the code computes in exact arithmetic.  The definitions of
    [Module Float] ([Float.fit], [Float.predict], ...) add the two range
    effects of doubles that change the control flow of the code:
    [math.exp] returns 0.0 below about -745.13 and raises [OverflowError]
    above about 709.78, and [**] raises [OverflowError] when the power
    exceeds the largest double.  Inside the range the two readings agree
    (lemmas [float_fit_exact], [float_predict_exact]).  Rounding, and
    products or sums that overflow to an infinity, are outside both.
    Python integers that the code mixes into float arithmetic (goal counts,
    day differences, factorials) are injected with [IZR] / [INR].

    Dictionaries.  A Python [dict] is insertion ordered; it is embedded as
    an association list whose keys appear in insertion order, assignment to
    a present key keeping its position.

    Exceptions.  A Python call either returns a value or raises; this is the
    type [pyresult], with the exceptions the embedded code can raise. *)

From Stdlib Require Import Reals Lra Lia Psatz String List ZArith Bool.
From Stdlib Require Import Permutation Sorted.
Import ListNotations.

Open Scope R_scope.

(* ================================================================== *)
(** ** Python results and exceptions *)

Inductive exn : Type :=
| ValueError
| ZeroDivisionError
| KeyError
| OverflowError.

Inductive pyresult (A : Type) : Type :=
| Returns (a : A)
| Raises (e : exn).

Arguments Returns {A} a.
Arguments Raises {A} e.

Definition bind {A B : Type} (c : pyresult A) (k : A -> pyresult B)
  : pyresult B :=
  match c with
  | Returns a => k a
  | Raises e => Raises e
  end.

Notation "x <- c ;; k" := (bind c (fun x => k))
  (at level 61, c at next level, right associativity).

(** A [for] loop whose body may raise: the first exception aborts it. *)
Fixpoint for_each {A S : Type} (body : S -> A -> pyresult S)
  (items : list A) (s : S) : pyresult S :=
  match items with
  | [] => Returns s
  | x :: rest => s' <- body s x ;; for_each body rest s'
  end.

Definition raises {A : Type} (c : pyresult A) : Prop :=
  exists e, c = Raises e.

(** Python float division [x / y]: raises on a zero divisor. *)
Definition py_div (x y : R) : pyresult R :=
  if Req_dec_T y 0 then Raises ZeroDivisionError else Returns (x / y).

(** Built-in [sum]: left to right from 0. *)
Definition py_sum (l : list R) : R := fold_left Rplus l 0.

(** [np.mean] of a list. *)
Definition np_mean (l : list R) : R := py_sum l / INR (length l).

(* ================================================================== *)
(** ** Python dictionaries keyed by strings *)

Module Dict.
Section Dict.
Context {V : Type}.

Definition dict : Type := list (string * V).

Definition empty : dict := [].

Fixpoint get (k : string) (d : dict) : option V :=
  match d with
  | [] => None
  | (k', v) :: rest => if String.eqb k k' then Some v else get k rest
  end.

(** [d.get(k, default)] *)
Definition get_default (k : string) (d : dict) (default : V) : V :=
  match get k d with
  | Some v => v
  | None => default
  end.

(** [k in d] *)
Definition contains (k : string) (d : dict) : bool :=
  match get k d with
  | Some _ => true
  | None => false
  end.

(** [d[k]] as an expression *)
Definition getitem (k : string) (d : dict) : pyresult V :=
  match get k d with
  | Some v => Returns v
  | None => Raises KeyError
  end.

(** [d[k] = v] *)
Fixpoint set (k : string) (v : V) (d : dict) : dict :=
  match d with
  | [] => [(k, v)]
  | (k', v') :: rest =>
      if String.eqb k k' then (k, v) :: rest else (k', v') :: set k v rest
  end.

(** In-place update of the value stored under a key that is present
    ([d[k][field] += x] on a dictionary of records); a no-op on an
    absent key, which the callers exclude by initialising the entry. *)
Fixpoint adjust (k : string) (f : V -> V) (d : dict) : dict :=
  match d with
  | [] => []
  | (k', v') :: rest =>
      if String.eqb k k' then (k', f v') :: rest
      else (k', v') :: adjust k f rest
  end.

Definition keys (d : dict) : list string := map fst d.
Definition values (d : dict) : list V := map snd d.

(** The shape a Python dictionary always has: no key twice. *)
Definition wf (d : dict) : Prop := NoDup (keys d).
End Dict.
Arguments dict V : clear implicits.
End Dict.

Import Dict.

(** [set.add] on a Python set of strings, kept without duplicates. *)
Definition set_add (x : string) (s : list string) : list string :=
  if in_dec string_dec x s then s else s ++ [x].

(* ================================================================== *)
(** ** Match rows and the training-data gate *)

(** One row of [raw.fixtures] as the code unpacks it:
    [fixture_id, home_team, away_team, home_goals, away_goals, match_date].
    Goals are non-negative integers; a date is its day number. *)
Record match_row : Type := MkMatch {
  fixture_id : string;
  home_team : string;
  away_team : string;
  home_goals : nat;
  away_goals : nat;
  match_date : Z
}.

Definition goals (n : nat) : R := IZR (Z.of_nat n).

(** [get_training_data]: [fetched] is what [cursor.fetchall()] returned;
    [None] is the Python [None] returned (after printing) below 100 rows. *)
Definition get_training_data (fetched : list match_row)
  : option (list match_row) :=
  if (length fetched <? 100)%nat then None else Some fetched.

(* ================================================================== *)
(** ** DixonColesModel *)

Record DixonColesModel : Type := MkModel {
  xi : R;
  home_advantage : R;
  rho : R;
  team_attack : dict R;
  team_defense : dict R;
  teams : list string
}.

(** [__init__] *)
Definition init (xi home_advantage rho : R) : DixonColesModel :=
  {| xi := xi; home_advantage := home_advantage; rho := rho;
     team_attack := empty; team_defense := empty; teams := [] |}.

(** The constructor defaults [xi=0.0065, home_advantage=0.3, rho=-0.13]. *)
Definition default_model : DixonColesModel := init 0.0065 0.3 (-0.13).

Definition time_decay_weight (self : DixonColesModel)
  (match_date current_date : Z) : R :=
  let days_diff := (current_date - match_date)%Z in
  exp (- xi self * IZR days_diff).

Definition tau_correction (self : DixonColesModel)
  (home_goals away_goals : nat) (lambda_h mu_a : R) : R :=
  if (home_goals =? 0)%nat && (away_goals =? 0)%nat then
    1 - lambda_h * mu_a * rho self
  else if (home_goals =? 0)%nat && (away_goals =? 1)%nat then
    1 + lambda_h * rho self
  else if (home_goals =? 1)%nat && (away_goals =? 0)%nat then
    1 + mu_a * rho self
  else if (home_goals =? 1)%nat && (away_goals =? 1)%nat then
    1 - rho self
  else 1.

(** *** fit *)

Record team_stat : Type := MkStat {
  goals_scored : R;
  goals_conceded : R;
  weighted_matches : R
}.

Definition new_stat : team_stat :=
  {| goals_scored := 0; goals_conceded := 0; weighted_matches := 0 |}.

(** [max(match[5] for match in matches)]; [max] of nothing raises. *)
Definition max_match_date (matches : list match_row) : pyresult Z :=
  match matches with
  | [] => Raises ValueError
  | m :: rest => Returns (fold_left Z.max (map match_date rest) (match_date m))
  end.

Definition add_result (scored conceded weight : R) (s : team_stat)
  : team_stat :=
  {| goals_scored := goals_scored s + scored * weight;
     goals_conceded := goals_conceded s + conceded * weight;
     weighted_matches := weighted_matches s + weight |}.

(** Body of the first loop of [fit]: the state is [self.teams] and the
    local [team_stats]. *)
Definition collect_match (self : DixonColesModel) (current_date : Z)
  (acc : list string * dict team_stat) (m : match_row)
  : list string * dict team_stat :=
  let '(tms, team_stats) := acc in
  let tms := set_add (away_team m) (set_add (home_team m) tms) in
  let weight := time_decay_weight self (match_date m) current_date in
  let team_stats :=
    if contains (home_team m) team_stats then team_stats
    else set (home_team m) new_stat team_stats in
  let team_stats :=
    if contains (away_team m) team_stats then team_stats
    else set (away_team m) new_stat team_stats in
  let team_stats :=
    adjust (home_team m)
      (add_result (goals (home_goals m)) (goals (away_goals m)) weight)
      team_stats in
  let team_stats :=
    adjust (away_team m)
      (add_result (goals (away_goals m)) (goals (home_goals m)) weight)
      team_stats in
  (tms, team_stats).

Definition collect_stats (self : DixonColesModel) (current_date : Z)
  (matches : list match_row) (tms : list string)
  : list string * dict team_stat :=
  fold_left (collect_match self current_date) matches (tms, empty).

(** The guarded quotient [a / b if b > 0 else 1.5]. *)
Definition league_average (team_stats : dict team_stat) : R :=
  let total_weighted_goals := py_sum (map goals_scored (values team_stats)) in
  let total_weighted_matches :=
    py_sum (map weighted_matches (values team_stats)) in
  if Rlt_dec 0 total_weighted_matches
  then total_weighted_goals / total_weighted_matches
  else 1.5.

(** Body of the second loop: rate one team, skipping it when its weighted
    match count is not positive. *)
Definition rate_team (league_avg_goals : R) (acc : dict R * dict R)
  (item : string * team_stat) : pyresult (dict R * dict R) :=
  let '(attack_map, defense_map) := acc in
  let '(team, stats) := item in
  if Rlt_dec 0 (weighted_matches stats) then
    let avg_scored := goals_scored stats / weighted_matches stats in
    let avg_conceded := goals_conceded stats / weighted_matches stats in
    attack <- py_div avg_scored league_avg_goals ;;
    defense <- py_div avg_conceded league_avg_goals ;;
    Returns (set team attack attack_map, set team defense defense_map)
  else Returns acc.

(** [np.mean(list(self.team_attack.values())) if self.team_attack else 1.0] *)
Definition mean_attack (attack_map : dict R) : R :=
  match attack_map with
  | [] => 1
  | _ :: _ => np_mean (values attack_map)
  end.

(** Body of the third loop.  The divisor is a numpy scalar, so the
    division itself never raises. *)
Definition normalize_team (avg_attack : R) (acc : dict R * dict R)
  (team : string) : pyresult (dict R * dict R) :=
  let '(attack_map, defense_map) := acc in
  a <- getitem team attack_map ;;
  let attack_map := set team (a / avg_attack) attack_map in
  d <- getitem team defense_map ;;
  let defense_map := set team (d / avg_attack) defense_map in
  Returns (attack_map, defense_map).

(** [fit(matches, current_date)]: the model after the call when it returns
    [True], the exception when it raises (what a call that raises has
    already written to [self] is not kept). *)
Definition fit (self : DixonColesModel) (matches : list match_row)
  (current_date : option Z) : pyresult DixonColesModel :=
  current_date <-
    match current_date with
    | None => max_match_date matches
    | Some d => Returns d
    end ;;
  let '(tms, team_stats) :=
    collect_stats self current_date matches (teams self) in
  let league_avg_goals := league_average team_stats in
  rated <- for_each (rate_team league_avg_goals) team_stats
             (team_attack self, team_defense self) ;;
  let avg_attack := mean_attack (fst rated) in
  normalized <- for_each (normalize_team avg_attack) (keys (fst rated))
                  rated ;;
  Returns {| xi := xi self; home_advantage := home_advantage self;
             rho := rho self;
             team_attack := fst normalized;
             team_defense := snd normalized;
             teams := tms |}.

(** *** predict *)

Record Prediction : Type := MkPrediction {
  home_win_prob : R;
  draw_prob : R;
  away_win_prob : R;
  expected_home_goals : R;
  expected_away_goals : R;
  home_attack : R;
  home_defense : R;
  away_attack : R;
  away_defense : R;
  pred_rho : R;
  pred_xi : R
}.

(** [exp(-m) * m**k / factorial(k)] *)
Definition poisson (m : R) (k : nat) : R :=
  exp (- m) * m ^ k / INR (fact k).

(** The three accumulators [home_win_prob, draw_prob, away_win_prob]. *)
Definition buckets : Type := (R * R * R)%type.

Definition bucket_total (b : buckets) : R :=
  let '(h, d, a) := b in h + d + a.

Definition add_score (i j : nat) (score_prob : R) (b : buckets) : buckets :=
  let '(h, d, a) := b in
  if (j <? i)%nat then (h + score_prob, d, a)
  else if (i =? j)%nat then (h, d + score_prob, a)
  else (h, d, a + score_prob).

Definition max_goals : nat := 6.

(** The double loop over [range(max_goals + 1)]. *)
Definition score_grid (self : DixonColesModel) (lambda_h mu_a : R)
  : buckets :=
  fold_left
    (fun b i =>
       fold_left
         (fun b j =>
            let poisson_prob := poisson lambda_h i * poisson mu_a j in
            let tau := tau_correction self i j lambda_h mu_a in
            add_score i j (poisson_prob * tau) b)
         (seq 0 (max_goals + 1)) b)
    (seq 0 (max_goals + 1)) (0, 0, 0).

(** [if total > 0: ... /= total] *)
Definition normalize (b : buckets) : buckets :=
  let '(h, d, a) := b in
  let total := h + d + a in
  if Rlt_dec 0 total then (h / total, d / total, a / total) else (h, d, a).

Definition lambda_of (self : DixonColesModel) (home away : string) : R :=
  let home_attack := get_default home (team_attack self) 1 in
  let away_defense := get_default away (team_defense self) 1 in
  let home_attack_adj := home_attack * (1 + home_advantage self) in
  home_attack_adj * away_defense.

Definition mu_of (self : DixonColesModel) (home away : string) : R :=
  let away_attack := get_default away (team_attack self) 1 in
  let home_defense := get_default home (team_defense self) 1 in
  away_attack * home_defense.

(** The end of [predict], from [# Normalize to ensure sum = 1] on: the
    three accumulators are renormalised when their total is positive and
    the result dictionary is built. *)
Definition predict_finish (self : DixonColesModel)
  (home_attack home_defense away_attack away_defense lambda_h mu_a : R)
  (b : buckets) : pyresult Prediction :=
  let '(h, d, a) := normalize b in
  Returns {| home_win_prob := h; draw_prob := d; away_win_prob := a;
             expected_home_goals := lambda_h;
             expected_away_goals := mu_a;
             home_attack := home_attack; home_defense := home_defense;
             away_attack := away_attack; away_defense := away_defense;
             pred_rho := rho self; pred_xi := xi self |}.

Definition predict (self : DixonColesModel) (home away : string)
  : pyresult Prediction :=
  let home_attack := get_default home (team_attack self) 1 in
  let home_defense := get_default home (team_defense self) 1 in
  let away_attack := get_default away (team_attack self) 1 in
  let away_defense := get_default away (team_defense self) 1 in
  let home_attack_adj := home_attack * (1 + home_advantage self) in
  let lambda_h := home_attack_adj * away_defense in
  let mu_a := away_attack * home_defense in
  predict_finish self home_attack home_defense away_attack away_defense
    lambda_h mu_a (score_grid self lambda_h mu_a).

(** *** calculate_brier_score *)

(** [zip] stops at the shorter argument. *)
Definition squared_errors (predicted actual : list R) : list R :=
  map (fun pa => (fst pa - snd pa) ^ 2) (combine predicted actual).

Definition calculate_brier_score (predicted : list R)
  (actual_result : string) : pyresult R :=
  actual <-
    (if String.eqb actual_result "H" then Returns [1; 0; 0]
     else if String.eqb actual_result "D" then Returns [0; 1; 0]
     else if String.eqb actual_result "A" then Returns [0; 0; 1]
     else Raises ValueError) ;;
  Returns (py_sum (squared_errors predicted actual) / 3).

(** *** main: from the fetched rows to the trained model *)

(** [int(len(matches) * 0.8)] *)
Definition split_idx (matches : list match_row) : nat :=
  (length matches * 4 / 5)%nat.

(** The part of [main] up to [model.fit(train_matches)]: [None] when
    [main] returns before training, otherwise the outcome of [fit] on the
    first 80% of the rows, called on a model built with the constructor
    defaults and without a reference date. *)
Definition main_fit (fetched : list match_row)
  : option (pyresult DixonColesModel) :=
  match get_training_data fetched with
  | None => None
  | Some [] => None
  | Some matches =>
      let train_matches := firstn (split_idx matches) matches in
      Some (fit default_model train_matches None)
  end.

(* ================================================================== *)
(** ** SimpleDixonColes (phase3_dixon_coles_simple.py) *)

Module Simple.

Record SimpleDixonColes : Type := MkSimple {
  xi : R;
  home_advantage : R;
  team_attack : dict R;
  team_defense : dict R
}.

(** [__init__] *)
Definition init (xi home_advantage : R) : SimpleDixonColes :=
  {| xi := xi; home_advantage := home_advantage;
     team_attack := empty; team_defense := empty |}.

Definition default_model : SimpleDixonColes := init 0.0065 0.3.

(** The per-team counters are Python integers here. *)
Record team_stat : Type := MkStat {
  goals_scored : Z;
  goals_conceded : Z;
  matches : Z
}.

Definition new_stat : team_stat :=
  {| goals_scored := 0; goals_conceded := 0; matches := 0 |}.

Definition add_result (scored conceded : nat) (s : team_stat) : team_stat :=
  {| goals_scored := goals_scored s + Z.of_nat scored;
     goals_conceded := goals_conceded s + Z.of_nat conceded;
     matches := matches s + 1 |}.

(** Body of the first loop: the home team is entered and updated, then
    the away team. *)
Definition collect_match (team_stats : dict team_stat) (m : match_row)
  : dict team_stat :=
  let team_stats :=
    if contains (home_team m) team_stats then team_stats
    else set (home_team m) new_stat team_stats in
  let team_stats :=
    adjust (home_team m) (add_result (home_goals m) (away_goals m))
      team_stats in
  let team_stats :=
    if contains (away_team m) team_stats then team_stats
    else set (away_team m) new_stat team_stats in
  adjust (away_team m) (add_result (away_goals m) (home_goals m)) team_stats.

Definition sum_int (l : list Z) : Z := fold_left Z.add l 0%Z.

Definition league_average (team_stats : dict team_stat) : R :=
  let total_goals := sum_int (map goals_scored (values team_stats)) in
  let total_matches := sum_int (map matches (values team_stats)) in
  if (0 <? total_matches)%Z then IZR total_goals / IZR total_matches
  else 1.5.

(** Body of the second loop; there is no third loop in this class. *)
Definition rate_team (league_avg : R) (acc : dict R * dict R)
  (item : string * team_stat) : pyresult (dict R * dict R) :=
  let '(attack_map, defense_map) := acc in
  let '(team, stats) := item in
  if (0 <? matches stats)%Z then
    attack <- py_div (IZR (goals_scored stats) / IZR (matches stats))
                league_avg ;;
    defense <- py_div (IZR (goals_conceded stats) / IZR (matches stats))
                 league_avg ;;
    Returns (set team attack attack_map, set team defense defense_map)
  else Returns acc.

Definition fit (self : SimpleDixonColes) (matches : list match_row)
  : pyresult SimpleDixonColes :=
  let team_stats := fold_left collect_match matches empty in
  let league_avg := league_average team_stats in
  rated <- for_each (rate_team league_avg) team_stats
             (team_attack self, team_defense self) ;;
  Returns {| xi := xi self; home_advantage := home_advantage self;
             team_attack := fst rated; team_defense := snd rated |}.

Record Prediction : Type := MkPrediction {
  home_win_prob : R;
  draw_prob : R;
  away_win_prob : R;
  expected_home_goals : R;
  expected_away_goals : R
}.

Definition max_goals : nat := 5.

(** The double loop, without tau correction. *)
Definition score_grid (home_exp away_exp : R) : buckets :=
  fold_left
    (fun b i =>
       fold_left
         (fun b j =>
            let prob := poisson home_exp i * poisson away_exp j in
            add_score i j prob b)
         (seq 0 (max_goals + 1)) b)
    (seq 0 (max_goals + 1)) (0, 0, 0).

Definition home_exp_of (self : SimpleDixonColes) (home away : string) : R :=
  let home_attack := get_default home (team_attack self) 1 in
  let away_defense := get_default away (team_defense self) 1 in
  let home_attack_adj := home_attack * (1 + home_advantage self) in
  home_attack_adj * away_defense.

Definition away_exp_of (self : SimpleDixonColes) (home away : string) : R :=
  let away_attack := get_default away (team_attack self) 1 in
  let home_defense := get_default home (team_defense self) 1 in
  away_attack * home_defense.

Definition predict (self : SimpleDixonColes) (home away : string)
  : pyresult Prediction :=
  let home_attack := get_default home (team_attack self) 1 in
  let home_defense := get_default home (team_defense self) 1 in
  let away_attack := get_default away (team_attack self) 1 in
  let away_defense := get_default away (team_defense self) 1 in
  let home_attack_adj := home_attack * (1 + home_advantage self) in
  let home_exp := home_attack_adj * away_defense in
  let away_exp := away_attack * home_defense in
  let '(h, d, a) := normalize (score_grid home_exp away_exp) in
  Returns {| home_win_prob := h; draw_prob := d; away_win_prob := a;
             expected_home_goals := home_exp;
             expected_away_goals := away_exp |}.

(** [calculate_brier]: a result other than 'H' and 'D' is scored as an
    away win; there is no [raise]. *)
Definition calculate_brier (predicted : list R) (actual_result : string)
  : R :=
  let actual :=
    if String.eqb actual_result "H" then [1; 0; 0]
    else if String.eqb actual_result "D" then [0; 1; 0]
    else [0; 0; 1] in
  py_sum (squared_errors predicted actual) / 3.

End Simple.
(* ================================================================== *)
(** ** The same code within the range of doubles *)

Module Float.

(** The logarithm of the largest double, the logarithm of half the
    smallest positive double (to the digits printed) and the largest
    double, [(2 - 2^-52) * 2^1023]. *)
Definition exp_overflow : R := 709.782712893384.
Definition exp_underflow : R := -745.1332191019412.
Definition float_max : R := (2 ^ 53 - 1) * 2 ^ 971.

(** [math.exp(x)]: [OverflowError] above the range, 0.0 below it. *)
Definition math_exp (x : R) : pyresult R :=
  if Rlt_dec exp_overflow x then Raises OverflowError
  else if Rlt_dec x exp_underflow then Returns 0
  else Returns (exp x).

(** [x ** k] for a float [x] and an integer [k >= 0]. *)
Definition float_pow (x : R) (k : nat) : pyresult R :=
  if Rlt_dec float_max (Rabs (x ^ k)) then Raises OverflowError
  else Returns (x ^ k).

(** [time_decay_weight] *)
Definition time_decay_weight (self : DixonColesModel)
  (match_date current_date : Z) : pyresult R :=
  let days_diff := (current_date - match_date)%Z in
  math_exp (- xi self * IZR days_diff).

(** Body of the first loop of [fit]; the weight may raise. *)
Definition collect_match (self : DixonColesModel) (current_date : Z)
  (acc : list string * dict team_stat) (m : match_row)
  : pyresult (list string * dict team_stat) :=
  let '(tms, team_stats) := acc in
  let tms := set_add (away_team m) (set_add (home_team m) tms) in
  weight <- time_decay_weight self (match_date m) current_date ;;
  let team_stats :=
    if contains (home_team m) team_stats then team_stats
    else set (home_team m) new_stat team_stats in
  let team_stats :=
    if contains (away_team m) team_stats then team_stats
    else set (away_team m) new_stat team_stats in
  let team_stats :=
    adjust (home_team m)
      (add_result (goals (home_goals m)) (goals (away_goals m)) weight)
      team_stats in
  let team_stats :=
    adjust (away_team m)
      (add_result (goals (away_goals m)) (goals (home_goals m)) weight)
      team_stats in
  Returns (tms, team_stats).

(** [fit(matches, current_date)]; the second and the third loop are those
    of the exact reading, which have no exponential. *)
Definition fit (self : DixonColesModel) (matches : list match_row)
  (current_date : option Z) : pyresult DixonColesModel :=
  current_date <-
    match current_date with
    | None => max_match_date matches
    | Some d => Returns d
    end ;;
  collected <- for_each (collect_match self current_date) matches
                 (teams self, empty) ;;
  let '(tms, team_stats) := collected in
  let league_avg_goals := league_average team_stats in
  rated <- for_each (rate_team league_avg_goals) team_stats
             (team_attack self, team_defense self) ;;
  let avg_attack := mean_attack (fst rated) in
  normalized <- for_each (normalize_team avg_attack) (keys (fst rated))
                  rated ;;
  Returns {| xi := xi self; home_advantage := home_advantage self;
             rho := rho self;
             team_attack := fst normalized;
             team_defense := snd normalized;
             teams := tms |}.

(** Body of the inner loop of [predict]: the two exponentials and the two
    powers are evaluated in the order of the source. *)
Definition score_cell (self : DixonColesModel) (lambda_h mu_a : R)
  (i : nat) (b : buckets) (j : nat) : pyresult buckets :=
  exp_h <- math_exp (- lambda_h) ;;
  pow_h <- float_pow lambda_h i ;;
  exp_a <- math_exp (- mu_a) ;;
  pow_a <- float_pow mu_a j ;;
  let poisson_prob :=
    (exp_h * pow_h / INR (fact i)) * (exp_a * pow_a / INR (fact j)) in
  let tau := tau_correction self i j lambda_h mu_a in
  Returns (add_score i j (poisson_prob * tau) b).

Definition score_grid (self : DixonColesModel) (lambda_h mu_a : R)
  : pyresult buckets :=
  for_each
    (fun b i =>
       for_each (score_cell self lambda_h mu_a i) (seq 0 (max_goals + 1)) b)
    (seq 0 (max_goals + 1)) (0, 0, 0).

(** [predict(home_team, away_team)] *)
Definition predict (self : DixonColesModel) (home away : string)
  : pyresult Prediction :=
  let home_attack := get_default home (team_attack self) 1 in
  let home_defense := get_default home (team_defense self) 1 in
  let away_attack := get_default away (team_attack self) 1 in
  let away_defense := get_default away (team_defense self) 1 in
  let home_attack_adj := home_attack * (1 + home_advantage self) in
  let lambda_h := home_attack_adj * away_defense in
  let mu_a := away_attack * home_defense in
  b <- score_grid self lambda_h mu_a ;;
  predict_finish self home_attack home_defense away_attack away_defense
    lambda_h mu_a b.

(** [main] up to [model.fit(train_matches)]. *)
Definition main_fit (fetched : list match_row)
  : option (pyresult DixonColesModel) :=
  match get_training_data fetched with
  | None => None
  | Some [] => None
  | Some matches =>
      let train_matches := firstn (split_idx matches) matches in
      Some (fit default_model train_matches None)
  end.

End Float.

(* ================================================================== *)
(** ** Quantities used to state the properties *)

(** The teams named by a match list, home before away. *)
Definition match_teams (matches : list match_row) : list string :=
  flat_map (fun m => [home_team m; away_team m]) matches.

(** A statistics entry as the first loop of [fit] leaves it. *)
Definition stat_ok (s : team_stat) : Prop :=
  0 < weighted_matches s /\ 0 <= goals_scored s /\ 0 <= goals_conceded s.

Definition stats_ok (team_stats : dict team_stat) : Prop :=
  wf team_stats /\ Forall (fun e => stat_ok (snd e)) team_stats.

(** A column of [team_stats] summed over the teams. *)
Definition stat_total (p : team_stat -> R) (team_stats : dict team_stat)
  : R :=
  py_sum (map p (values team_stats)).

(** Sum over the matches of the weighted goals of both sides. *)
Definition weighted_goals (self : DixonColesModel) (current_date : Z)
  (matches : list match_row) : R :=
  py_sum (map (fun m =>
                 (goals (home_goals m) + goals (away_goals m))
                 * time_decay_weight self (match_date m) current_date)
              matches).

(** The raw ratings of the second loop of [fit]. *)
Definition raw_attack (league_avg_goals : R) (s : team_stat) : R :=
  goals_scored s / weighted_matches s / league_avg_goals.

Definition raw_defense (league_avg_goals : R) (s : team_stat) : R :=
  goals_conceded s / weighted_matches s / league_avg_goals.

(** Assigning [f stats] to every team of [items], in order. *)
Definition set_all {T : Type} (f : T -> R) (items : dict T)
  (m : dict R) : dict R :=
  fold_left (fun acc e => set (fst e) (f (snd e)) acc) items m.

Definition map_values {V W : Type} (g : V -> W) (d : dict V) : dict W :=
  map (fun e => (fst e, g (snd e))) d.

(** The reference date [fit] works with. *)
Definition reference_date (matches : list match_row)
  (current_date : option Z) : pyresult Z :=
  match current_date with
  | None => max_match_date matches
  | Some d => Returns d
  end.

(** The local [team_stats] of [fit] after its first loop. *)
Definition stats_of (self : DixonColesModel) (current_date : Z)
  (matches : list match_row) : dict team_stat :=
  snd (collect_stats self current_date matches (teams self)).

(** Same ratings and parameters, another [home_advantage]. *)
Definition with_home_advantage (self : DixonColesModel) (ha : R)
  : DixonColesModel :=
  {| xi := xi self; home_advantage := ha; rho := rho self;
     team_attack := team_attack self; team_defense := team_defense self;
     teams := teams self |}.

(** Degree-6 Taylor polynomial of the exponential: the mass of one side of
    the truncated grid, up to the factor [exp (- x)]. *)
Definition texp (x : R) : R :=
  1 + x + x ^ 2 / 2 + x ^ 3 / 6 + x ^ 4 / 24 + x ^ 5 / 120 + x ^ 6 / 720.

(** A polynomial of degree 6 with coefficients [c i / i!]: one accumulator
    of the grid as a function of the home mean, up to the exponentials. *)
Definition wsum (c : nat -> R) (x : R) : R :=
  c 0%nat + c 1%nat * x + c 2%nat * x ^ 2 / 2 + c 3%nat * x ^ 3 / 6
  + c 4%nat * x ^ 4 / 24 + c 5%nat * x ^ 5 / 120 + c 6%nat * x ^ 6 / 720.

(** Coefficient of [lambda^i / i!] in the home-win accumulator: the mass of
    the away scores below [i], with the tau correction of cell (1,0). *)
Definition home_coeff (mu rho : R) (i : nat) : R :=
  match i with
  | 0%nat => 0
  | 1%nat => 1 + mu * rho
  | 2%nat => 1 + mu
  | 3%nat => 1 + mu + mu ^ 2 / 2
  | 4%nat => 1 + mu + mu ^ 2 / 2 + mu ^ 3 / 6
  | 5%nat => 1 + mu + mu ^ 2 / 2 + mu ^ 3 / 6 + mu ^ 4 / 24
  | _ => 1 + mu + mu ^ 2 / 2 + mu ^ 3 / 6 + mu ^ 4 / 24 + mu ^ 5 / 120
  end.

(** Coefficient of [lambda^i / i!] in the away-win accumulator: the mass of
    the away scores above [i], with the tau correction of cell (0,1), whose
    [lambda * rho] part lands on [i = 1]. *)
Definition away_coeff (mu rho : R) (i : nat) : R :=
  match i with
  | 0%nat => mu + mu ^ 2 / 2 + mu ^ 3 / 6 + mu ^ 4 / 24 + mu ^ 5 / 120
         + mu ^ 6 / 720
  | 1%nat => mu * rho + mu ^ 2 / 2 + mu ^ 3 / 6 + mu ^ 4 / 24 + mu ^ 5 / 120
         + mu ^ 6 / 720
  | 2%nat => mu ^ 3 / 6 + mu ^ 4 / 24 + mu ^ 5 / 120 + mu ^ 6 / 720
  | 3%nat => mu ^ 4 / 24 + mu ^ 5 / 120 + mu ^ 6 / 720
  | 4%nat => mu ^ 5 / 120 + mu ^ 6 / 720
  | 5%nat => mu ^ 6 / 720
  | _ => 0
  end.

(** The draw accumulator, up to the exponentials. *)
Definition draw_poly (lambda mu rho : R) : R :=
  (1 - lambda * mu * rho) + lambda * mu * (1 - rho)
  + (lambda * mu) ^ 2 / 4 + (lambda * mu) ^ 3 / 36
  + (lambda * mu) ^ 4 / 576 + (lambda * mu) ^ 5 / 14400
  + (lambda * mu) ^ 6 / 518400.

(** The same polynomial to any degree: [c 0 + ... + c n * x^n / n!]. *)
Fixpoint psum (c : nat -> R) (x : R) (n : nat) : R :=
  match n with
  | O => c O
  | S k => psum c x k + c (S k) * x ^ S k / INR (fact (S k))
  end.

(** [x^i / i!], and the antisymmetric kernel that compares two means. *)
Definition pterm (i : nat) (x : R) : R := x ^ i / INR (fact i).

Definition kernel (i k : nat) (x y : R) : R :=
  pterm i y * pterm k x - pterm i x * pterm k y.

(** Cross difference of the weighted and the plain polynomial at two
    points.  It is non-negative exactly when the quotient
    [psum c . n / psum 1 . n] does not decrease from [x] to [y]. *)
Definition cross (c : nat -> R) (x y : R) (n : nat) : R :=
  psum c y n * psum (fun _ => 1) x n - psum c x n * psum (fun _ => 1) y n.

(** What degree [i] adds to [cross] against the degrees up to [n]. *)
Definition cross_step (c : nat -> R) (c' : R) (i : nat) (x y : R) (n : nat)
  : R :=
  psum c y n * pterm i x + c' * pterm i y * psum (fun _ => 1) x n
  - psum c x n * pterm i y - c' * pterm i x * psum (fun _ => 1) y n.

(** Degree-5 Taylor polynomial of the exponential, for the grid of
    [SimpleDixonColes]. *)
Definition texp5 (x : R) : R :=
  1 + x + x ^ 2 / 2 + x ^ 3 / 6 + x ^ 4 / 24 + x ^ 5 / 120.

Definition buckets_nonneg (b : buckets) : Prop :=
  let '(h, d, a) := b in 0 <= h /\ 0 <= d /\ 0 <= a.

(** The ratings [SimpleDixonColes.fit] stores. *)
Definition simple_attack (league_avg : R) (s : Simple.team_stat) : R :=
  IZR (Simple.goals_scored s) / IZR (Simple.matches s) / league_avg.

Definition simple_defense (league_avg : R) (s : Simple.team_stat) : R :=
  IZR (Simple.goals_conceded s) / IZR (Simple.matches s) / league_avg.

Definition simple_stats_ok (team_stats : dict Simple.team_stat) : Prop :=
  wf team_stats /\
  Forall (fun e => (0 < Simple.matches (snd e))%Z) team_stats.

(* ================================================================== *)
(** ** Concrete inputs used by the examples *)

(** One match A 1-0 B, and one match C 1-0 D, both on day 0. *)
Definition match_A_B : match_row := MkMatch "f1" "A" "B" 1 0 0.
Definition match_C_D : match_row := MkMatch "f2" "C" "D" 1 0 0.
Definition match_C_E : match_row := MkMatch "f3" "C" "E" 1 0 0.

(** What [fit] leaves in a default model trained on [match_A_B] alone. *)
Definition fitted_A_B : DixonColesModel :=
  {| xi := 0.0065; home_advantage := 0.3; rho := -0.13;
     team_attack := [("A"%string, 2); ("B"%string, 0)];
     team_defense := [("A"%string, 0); ("B"%string, 2)];
     teams := ["A"%string; "B"%string] |}.

(** Fifty results A 1-0 B on fifty consecutive days. *)
Definition fifty_matches : list match_row :=
  map (fun d => MkMatch "f" "A" "B" 1 0 (Z.of_nat d)) (seq 0 50).

(** What [fit] leaves in a default model trained on C 1-0 D, C 1-0 E. *)
Definition fitted_C_D_E : DixonColesModel :=
  {| xi := 0.0065; home_advantage := 0.3; rho := -0.13;
     team_attack := [("C"%string, 3); ("D"%string, 0); ("E"%string, 0)];
     team_defense := [("C"%string, 0); ("D"%string, 3); ("E"%string, 3)];
     teams := ["C"%string; "D"%string; "E"%string] |}.


(** A lopsided history: A 19-1 B and C 0-0 D, on the same day, and what
    [fit] leaves in a default model trained on it. *)
Definition lopsided_matches : list match_row :=
  [MkMatch "g1" "A" "B" 19 1 0; MkMatch "g2" "C" "D" 0 0 0].

Definition fitted_lopsided : DixonColesModel :=
  {| xi := 0.0065; home_advantage := 0.3; rho := -0.13;
     team_attack :=
       [("A"%string, 19 / 5); ("B"%string, 1 / 5); ("C"%string, 0);
        ("D"%string, 0)];
     team_defense :=
       [("A"%string, 1 / 5); ("B"%string, 19 / 5); ("C"%string, 0);
        ("D"%string, 0)];
     teams := ["A"%string; "B"%string; "C"%string; "D"%string] |}.

(** A schedule in which A plays twice and B, C once each. *)
Definition unbalanced_matches : list match_row :=
  [MkMatch "h1" "A" "B" 1 0 0; MkMatch "h2" "A" "C" 1 0 1].

(** Ratings with a large expected away score: H (attack 1/10, defense 1)
    at home against A (attack 10, defense 1/10). *)
Definition steep_model : DixonColesModel :=
  {| xi := 0.0065; home_advantage := 0.3; rho := -0.13;
     team_attack := [("H"%string, 1 / 10); ("A"%string, 10)];
     team_defense := [("H"%string, 1); ("A"%string, 1 / 10)];
     teams := ["H"%string; "A"%string] |}.

(* ================================================================== *)
(** ** Further quantities: the state [fit] keeps *)

(** The two rating dictionaries are well formed and hold the same teams,
    as they do in every model reached from the constructor by calls of
    [fit]. *)
Definition consistent (self : DixonColesModel) : Prop :=
  wf (team_attack self) /\ wf (team_defense self) /\
  (forall t, In t (keys (team_attack self)) <->
             In t (keys (team_defense self))).

(** No goal in any match of the list. *)
Definition goalless (matches : list match_row) : Prop :=
  forall m, In m matches -> home_goals m = 0%nat /\ away_goals m = 0%nat.

Definition scored_in (matches : list match_row) : Prop :=
  exists m, In m matches /\ (0 < home_goals m + away_goals m)%nat.

(** What one match adds to the three counters of team [t]: as the home
    side and as the away side. *)
Definition scored_by (t : string) (m : match_row) : R :=
  (if String.eqb (home_team m) t then goals (home_goals m) else 0)
  + (if String.eqb (away_team m) t then goals (away_goals m) else 0).

Definition conceded_by (t : string) (m : match_row) : R :=
  (if String.eqb (home_team m) t then goals (away_goals m) else 0)
  + (if String.eqb (away_team m) t then goals (home_goals m) else 0).

Definition played_by (t : string) (m : match_row) : R :=
  (if String.eqb (home_team m) t then 1 else 0)
  + (if String.eqb (away_team m) t then 1 else 0).

(** A per-match quantity summed over the matches with their weights. *)
Definition weighted_total (self : DixonColesModel) (current_date : Z)
  (f : match_row -> R) (matches : list match_row) : R :=
  py_sum (map (fun m =>
                 f m * time_decay_weight self (match_date m) current_date)
              matches).

Definition team_totals (self : DixonColesModel) (current_date : Z)
  (t : string) (matches : list match_row) : team_stat :=
  {| goals_scored := weighted_total self current_date (scored_by t) matches;
     goals_conceded :=
       weighted_total self current_date (conceded_by t) matches;
     weighted_matches :=
       weighted_total self current_date (played_by t) matches |}.

(** The two updates of one match as they reach the entry of team [t]. *)
Definition bump (self : DixonColesModel) (current_date : Z) (t : string)
  (s : team_stat) (m : match_row) : team_stat :=
  let weight := time_decay_weight self (match_date m) current_date in
  let s :=
    if String.eqb (home_team m) t
    then add_result (goals (home_goals m)) (goals (away_goals m)) weight s
    else s in
  if String.eqb (away_team m) t
  then add_result (goals (away_goals m)) (goals (home_goals m)) weight s
  else s.

(** Every counter of a statistics entry multiplied by [c]. *)
Definition scale_stat (c : R) (s : team_stat) : team_stat :=
  {| goals_scored := c * goals_scored s;
     goals_conceded := c * goals_conceded s;
     weighted_matches := c * weighted_matches s |}.



(** The two updates of one match of [SimpleDixonColes.fit] as they reach
    the entry of team [t]. *)
Definition simple_bump (t : string) (s : Simple.team_stat) (m : match_row)
  : Simple.team_stat :=
  let s :=
    if String.eqb (home_team m) t
    then Simple.add_result (home_goals m) (away_goals m) s
    else s in
  if String.eqb (away_team m) t
  then Simple.add_result (away_goals m) (home_goals m) s
  else s.

(** The integer counters of [SimpleDixonColes.fit] read as the float
    counters of [DixonColesModel.fit]. *)
Definition stat_of_simple (s : Simple.team_stat) : team_stat :=
  {| goals_scored := IZR (Simple.goals_scored s);
     goals_conceded := IZR (Simple.goals_conceded s);
     weighted_matches := IZR (Simple.matches s) |}.

(** The local [team_stats] of [SimpleDixonColes.fit] after its first
    loop. *)
Definition simple_stats_of (matches : list match_row)
  : dict Simple.team_stat :=
  fold_left Simple.collect_match matches empty.

(* ================================================================== *)
(** ** main: the test set, the evaluation loop and the summary *)

(** The rows as the query of [get_training_data] orders them
    ([ORDER BY match_date DESC]). *)
Definition newest_first (rows : list match_row) : Prop :=
  StronglySorted (fun a b => (match_date b <= match_date a)%Z) rows.

(** [if home_goals > away_goals: 'H' elif home_goals < away_goals: 'A'
    else: 'D'] *)
Definition actual_result (home_goals away_goals : nat) : string :=
  if (away_goals <? home_goals)%nat then "H"
  else if (home_goals <? away_goals)%nat then "A"
  else "D".

(** Body of the loop over the test matches: the state is the two lists
    [predictions] and [brier_scores]; a prediction is stored with the
    fixture id that [main] adds to it. *)
Definition evaluate_match (model : DixonColesModel)
  (acc : list (string * Prediction) * list R) (m : match_row)
  : pyresult (list (string * Prediction) * list R) :=
  let '(predictions, brier_scores) := acc in
  pred <- predict model (home_team m) (away_team m) ;;
  let actual := actual_result (home_goals m) (away_goals m) in
  brier <- calculate_brier_score
             [home_win_prob pred; draw_prob pred; away_win_prob pred]
             actual ;;
  Returns (predictions ++ [(fixture_id m, pred)], brier_scores ++ [brier]).

Definition evaluate (model : DixonColesModel)
  (test_matches : list match_row)
  : pyresult (list (string * Prediction) * list R) :=
  for_each (evaluate_match model) test_matches ([], []).

(** What the evaluation loop records for one test match. *)
Definition evaluated (model : DixonColesModel) (m : match_row)
  (ps : string * Prediction * R) : Prop :=
  let '(fid, p, s) := ps in
  fid = fixture_id m /\
  predict model (home_team m) (away_team m) = Returns p /\
  calculate_brier_score [home_win_prob p; draw_prob p; away_win_prob p]
    (actual_result (home_goals m) (away_goals m)) = Returns s /\
  0 <= s.

(** [np.mean(brier_scores) if brier_scores else 0], and the same for
    [np.min] and [np.max]. *)
Definition avg_brier (brier_scores : list R) : R :=
  match brier_scores with
  | [] => 0
  | _ :: _ => np_mean brier_scores
  end.

Definition min_brier (brier_scores : list R) : R :=
  match brier_scores with
  | [] => 0
  | x :: rest => fold_left Rmin rest x
  end.

Definition max_brier (brier_scores : list R) : R :=
  match brier_scores with
  | [] => 0
  | x :: rest => fold_left Rmax rest x
  end.


(* ================================================================== *)
(** ** store_predictions *)

(** The prediction dictionary read by key: the keys [predict] writes. *)
Definition pred_get (p : Prediction) (key : string) : option R :=
  if String.eqb key "home_win_prob" then Some (home_win_prob p)
  else if String.eqb key "draw_prob" then Some (draw_prob p)
  else if String.eqb key "away_win_prob" then Some (away_win_prob p)
  else if String.eqb key "expected_home_goals"
  then Some (expected_home_goals p)
  else if String.eqb key "expected_away_goals"
  then Some (expected_away_goals p)
  else if String.eqb key "home_attack" then Some (home_attack p)
  else if String.eqb key "home_defense" then Some (home_defense p)
  else if String.eqb key "away_attack" then Some (away_attack p)
  else if String.eqb key "away_defense" then Some (away_defense p)
  else if String.eqb key "rho" then Some (pred_rho p)
  else if String.eqb key "xi" then Some (pred_xi p)
  else None.

(** One row of [features.match_features], without [calculated_at]. *)
Record feature_row : Type := MkRow {
  row_fixture_id : string;
  dc_home_prob : R;
  dc_draw_prob : R;
  dc_away_prob : R;
  dc_attack_home : R;
  dc_attack_away : R;
  dc_defense_home : R;
  dc_defense_away : R;
  dc_rho_parameter : R;
  dc_xi_parameter : R;
  dc_home_advantage : R;
  dc_expected_home_goals : R;
  dc_expected_away_goals : R
}.

(** The parameter tuple of the [INSERT]. *)
Definition row_of (pred : string * Prediction) : feature_row :=
  let p := snd pred in
  {| row_fixture_id := fst pred;
     dc_home_prob := home_win_prob p;
     dc_draw_prob := draw_prob p;
     dc_away_prob := away_win_prob p;
     dc_attack_home := home_attack p;
     dc_attack_away := away_attack p;
     dc_defense_home := home_defense p;
     dc_defense_away := away_defense p;
     dc_rho_parameter := pred_rho p;
     dc_xi_parameter := pred_xi p;
     dc_home_advantage :=
       match pred_get p "home_advantage" with
       | Some v => v
       | None => 0.3
       end;
     dc_expected_home_goals := expected_home_goals p;
     dc_expected_away_goals := expected_away_goals p |}.

Section StorePredictions.

(** The database behind the cursor, and [cursor.execute] of the upsert:
    the new state, and whether the call returned ([true]) or raised. *)
Variable database : Type.
Variable execute : database -> feature_row -> database * bool.

(** Body of the loop: an exception of [execute] is caught and the row is
    not counted. *)
Definition store_prediction (acc : database * nat)
  (pred : string * Prediction) : database * nat :=
  let '(db, stored_count) := acc in
  let '(db, ok) := execute db (row_of pred) in
  (db, if ok then S stored_count else stored_count).

Definition store_predictions (db : database)
  (predictions : list (string * Prediction)) : database * nat :=
  fold_left store_prediction predictions (db, 0%nat).

End StorePredictions.

(** A hundred results A 1-0 B on a hundred consecutive days, the newest
    first. *)
Definition hundred_matches : list match_row :=
  map (fun d => MkMatch "f" "A" "B" 1 0 (Z.of_nat (100 - d))) (seq 0 100).

(** A cursor whose [execute] raises on the rows of one fixture and keeps
    the rows it has written. *)
Definition execute_except (bad : string) (db : list feature_row)
  (row : feature_row) : list feature_row * bool :=
  if String.eqb (row_fixture_id row) bad then (db, false)
  else (db ++ [row], true).

(* ================================================================== *)
(** ** main of phase3_dixon_coles_simple.py *)

(** The dictionary [main] builds for each test match. *)
Record simple_row : Type := MkSimpleRow {
  simple_fixture_id : string;
  simple_home_team : string;
  simple_away_team : string;
  simple_home_win_prob : R;
  simple_draw_prob : R;
  simple_away_win_prob : R;
  simple_expected_home_goals : R;
  simple_expected_away_goals : R;
  simple_brier_score : R
}.

(** Body of the loop over the test matches. *)
Definition simple_evaluate_match (model : Simple.SimpleDixonColes)
  (acc : list simple_row * list R) (m : match_row)
  : pyresult (list simple_row * list R) :=
  let '(predictions, brier_scores) := acc in
  pred <- Simple.predict model (home_team m) (away_team m) ;;
  let actual := actual_result (home_goals m) (away_goals m) in
  let brier :=
    Simple.calculate_brier
      [Simple.home_win_prob pred; Simple.draw_prob pred;
       Simple.away_win_prob pred] actual in
  Returns
    (predictions ++
       [{| simple_fixture_id := fixture_id m;
           simple_home_team := home_team m;
           simple_away_team := away_team m;
           simple_home_win_prob := Simple.home_win_prob pred;
           simple_draw_prob := Simple.draw_prob pred;
           simple_away_win_prob := Simple.away_win_prob pred;
           simple_expected_home_goals := Simple.expected_home_goals pred;
           simple_expected_away_goals := Simple.expected_away_goals pred;
           simple_brier_score := brier |}],
     brier_scores ++ [brier]).

(** [main] from the fetched rows to [avg_brier = np.mean(brier_scores)]:
    [None] when it returns before training; the mean of an empty list is
    not a number, which is the [None] in the last component. *)
Definition simple_main_evaluate (fetched : list match_row)
  : option (pyresult (list simple_row * list R * option R)) :=
  match get_training_data fetched with
  | None => None
  | Some [] => None
  | Some matches =>
      let train_matches := firstn (split_idx matches) matches in
      let test_matches := skipn (split_idx matches) matches in
      Some (model <- Simple.fit Simple.default_model train_matches ;;
            evaluated <- for_each (simple_evaluate_match model) test_matches
                           ([], []) ;;
            let avg_brier :=
              match snd evaluated with
              | [] => None
              | _ :: _ => Some (np_mean (snd evaluated))
              end in
            Returns (fst evaluated, snd evaluated, avg_brier))
  end.

(** What the loop of the simplified [main] records for one test match:
    the score is the one the strict [calculate_brier_score] gives. *)
Definition simple_evaluated (model : Simple.SimpleDixonColes)
  (m : match_row) (row : simple_row) : Prop :=
  simple_fixture_id row = fixture_id m /\
  exists p,
    Simple.predict model (home_team m) (away_team m) = Returns p /\
    simple_home_win_prob row = Simple.home_win_prob p /\
    simple_draw_prob row = Simple.draw_prob p /\
    simple_away_win_prob row = Simple.away_win_prob p /\
    calculate_brier_score
      [Simple.home_win_prob p; Simple.draw_prob p; Simple.away_win_prob p]
      (actual_result (home_goals m) (away_goals m)) =
    Returns (simple_brier_score row).

(* ================================================================== *)
(** ** Quantities used with the float reading *)

(** The first loop of [fit] for one match whose weight is [weight]. *)
Definition collect_with (weight : R) (acc : list string * dict team_stat)
  (m : match_row) : list string * dict team_stat :=
  let '(tms, team_stats) := acc in
  let tms := set_add (away_team m) (set_add (home_team m) tms) in
  let team_stats :=
    if contains (home_team m) team_stats then team_stats
    else set (home_team m) new_stat team_stats in
  let team_stats :=
    if contains (away_team m) team_stats then team_stats
    else set (away_team m) new_stat team_stats in
  let team_stats :=
    adjust (home_team m)
      (add_result (goals (home_goals m)) (goals (away_goals m)) weight)
      team_stats in
  let team_stats :=
    adjust (away_team m)
      (add_result (goals (away_goals m)) (goals (home_goals m)) weight)
      team_stats in
  (tms, team_stats).

(** No match is played after the reference date and none more than
    [700 / xi] days before it: every weight is then a positive double, at
    a safe distance from the underflow of [math.exp]. *)
Definition weights_in_range (self : DixonColesModel) (current_date : Z)
  (matches : list match_row) : Prop :=
  forall m, In m matches ->
    0 <= xi self * IZR (current_date - match_date m) <= 700.

(** Two expected goal counts for which no product of the grid leaves the
    range of doubles. *)
Definition means_in_range (lambda_h mu_a : R) : Prop :=
  0 <= lambda_h /\ 0 <= mu_a /\ lambda_h + mu_a <= 700.

(** The three accumulators of [predict] when [math.exp] has returned
    [exp_h] and [exp_a]. *)
Definition grid_with (exp_h exp_a : R) (self : DixonColesModel)
  (lambda_h mu_a : R) : buckets :=
  (exp_h * exp_a * wsum (home_coeff mu_a (rho self)) lambda_h,
   exp_h * exp_a * draw_poly lambda_h mu_a (rho self),
   exp_h * exp_a * wsum (away_coeff mu_a (rho self)) lambda_h).

(** A match played 118000 days before the latest one: with the default
    [xi] its weight is [math.exp(-767)], which is 0.0. *)
Definition ancient_matches : list match_row :=
  [MkMatch "a1" "A" "B" 1 0 0; MkMatch "a2" "C" "D" 1 0 118000].

(** What [fit] leaves in a default model trained on [ancient_matches]. *)
Definition fitted_ancient : DixonColesModel :=
  {| xi := 0.0065; home_advantage := 0.3; rho := -0.13;
     team_attack := [("C"%string, 2); ("D"%string, 0)];
     team_defense := [("C"%string, 0); ("D"%string, 2)];
     teams := ["A"%string; "B"%string; "C"%string; "D"%string] |}.

(** The same with a goalless latest match: the only goal of the list has
    weight 0.0. *)
Definition ancient_goal_matches : list match_row :=
  [MkMatch "a1" "A" "B" 1 0 0; MkMatch "a3" "C" "D" 0 0 118000].

(* ================================================================== *)
(** * Facts about the embedding *)

(** ** Results *)

Lemma returns_not_raises {A : Type} (c : pyresult A) (a : A) :
  c = Returns a -> ~ raises c.
Proof. intros -> [e He]. discriminate He. Qed.

Lemma bind_returns {A B : Type} (c : pyresult A) (k : A -> pyresult B) b :
  (x <- c ;; k x) = Returns b ->
  exists a, c = Returns a /\ k a = Returns b.
Proof.
  destruct c as [a | e]; simpl; intros H.
  - exists a. split; [reflexivity | exact H].
  - discriminate H.
Qed.

Lemma py_div_returns x y : y <> 0 -> py_div x y = Returns (x / y).
Proof.
  intros Hy. unfold py_div. destruct (Req_dec_T y 0) as [E | _].
  - contradiction.
  - reflexivity.
Qed.

Lemma py_div_inv x y v : py_div x y = Returns v -> y <> 0 /\ v = x / y.
Proof.
  unfold py_div. destruct (Req_dec_T y 0) as [E | N]; intros H.
  - discriminate H.
  - injection H as <-. now split.
Qed.

Lemma py_div_zero x : py_div x 0 = Raises ZeroDivisionError.
Proof.
  unfold py_div. destruct (Req_dec_T 0 0) as [_ | N].
  - reflexivity.
  - now elim N.
Qed.

(** ** Sums *)

Lemma fold_left_Rplus_acc (l : list R) (a : R) :
  fold_left Rplus l a = a + fold_left Rplus l 0.
Proof.
  revert a. induction l as [| x l IH]; intros a; simpl.
  - ring.
  - rewrite (IH (a + x)), (IH (0 + x)). ring.
Qed.

Lemma py_sum_nil : py_sum [] = 0.
Proof. reflexivity. Qed.

Lemma py_sum_cons x l : py_sum (x :: l) = x + py_sum l.
Proof.
  unfold py_sum. simpl. rewrite fold_left_Rplus_acc. ring.
Qed.

Lemma py_sum_app l1 l2 : py_sum (l1 ++ l2) = py_sum l1 + py_sum l2.
Proof.
  induction l1 as [| x l1 IH]; simpl.
  - rewrite py_sum_nil. ring.
  - rewrite !py_sum_cons, IH. ring.
Qed.

Lemma py_sum_nonneg l : Forall (fun x => 0 <= x) l -> 0 <= py_sum l.
Proof.
  induction 1 as [| x l Hx _ IH].
  - rewrite py_sum_nil. lra.
  - rewrite py_sum_cons. lra.
Qed.

Lemma py_sum_pos l :
  Forall (fun x => 0 <= x) l -> Exists (fun x => 0 < x) l -> 0 < py_sum l.
Proof.
  induction 1 as [| x l Hx Hl IH]; intros Hex.
  - inversion Hex.
  - rewrite py_sum_cons. pose proof (py_sum_nonneg l Hl).
    inversion Hex; subst.
    + lra.
    + specialize (IH H1). lra.
Qed.

Lemma py_sum_all_pos l :
  l <> [] -> Forall (fun x => 0 < x) l -> 0 < py_sum l.
Proof.
  intros Hne Hall. destruct l as [| x l]; [contradiction |].
  apply py_sum_pos.
  - eapply Forall_impl; [| exact Hall]. simpl. intros; lra.
  - left. now inversion Hall.
Qed.


Lemma py_sum_map_div (l : list R) (c : R) :
  py_sum (map (fun v => v / c) l) = py_sum l / c.
Proof.
  induction l as [| x l IH]; simpl.
  - rewrite py_sum_nil. unfold Rdiv. ring.
  - rewrite !py_sum_cons, IH. unfold Rdiv. ring.
Qed.

Lemma py_sum_perm l1 l2 : Permutation l1 l2 -> py_sum l1 = py_sum l2.
Proof.
  induction 1 as [| x l1 l2 _ IH | x y l | l1 l2 l3 _ IH1 _ IH2].
  - reflexivity.
  - now rewrite !py_sum_cons, IH.
  - rewrite !py_sum_cons. ring.
  - now rewrite IH1.
Qed.

Lemma np_mean_perm l1 l2 : Permutation l1 l2 -> np_mean l1 = np_mean l2.
Proof.
  intros HP. unfold np_mean.
  now rewrite (py_sum_perm _ _ HP), (Permutation_length HP).
Qed.

(** ** Dictionaries *)

Section DictFacts.
Context {V : Type}.
Implicit Types (d : dict V) (k : string) (v : V).

Lemma get_in_keys k d v : get k d = Some v -> In k (keys d).
Proof.
  induction d as [| [k' v'] d IH]; simpl; [discriminate |].
  destruct (String.eqb_spec k k') as [-> | Hne]; intros H.
  - now left.
  - right. now apply IH.
Qed.

Lemma get_none_iff k d : get k d = None <-> ~ In k (keys d).
Proof.
  induction d as [| [k' v'] d IH]; simpl.
  - tauto.
  - destruct (String.eqb_spec k k') as [-> | Hne].
    + split; [discriminate | intros H; elim H; now left].
    + rewrite IH. split.
      * intros H [E | HI]; [now elim Hne | now elim H].
      * intros H HI. apply H. now right.
Qed.

Lemma in_keys_get k d : In k (keys d) -> exists v, get k d = Some v.
Proof.
  intros HI. destruct (get k d) as [v |] eqn:E.
  - now exists v.
  - apply get_none_iff in E. contradiction.
Qed.

Lemma contains_true_iff k d : contains k d = true <-> In k (keys d).
Proof.
  unfold contains. split.
  - destruct (get k d) eqn:E; [| discriminate].
    intros _. eapply get_in_keys; eauto.
  - intros HI. destruct (in_keys_get _ _ HI) as [v ->]. reflexivity.
Qed.

Lemma contains_false_iff k d : contains k d = false <-> ~ In k (keys d).
Proof.
  rewrite <- contains_true_iff. destruct (contains k d); split; intros H.
  - discriminate.
  - now elim H.
  - discriminate.
  - reflexivity.
Qed.

Lemma get_set_eq k v d : get k (set k v d) = Some v.
Proof.
  induction d as [| [k' v'] d IH]; simpl.
  - now rewrite String.eqb_refl.
  - destruct (String.eqb_spec k k') as [-> | Hne]; simpl.
    + now rewrite String.eqb_refl.
    + destruct (String.eqb_spec k k'); [contradiction | exact IH].
Qed.

Lemma get_set_ne k k' v d : k <> k' -> get k' (set k v d) = get k' d.
Proof.
  intros Hne. induction d as [| [k0 v0] d IH]; simpl.
  - destruct (String.eqb_spec k' k); [now elim Hne | reflexivity].
  - destruct (String.eqb_spec k k0) as [-> | Hk]; simpl.
    + destruct (String.eqb_spec k' k0); [now elim Hne | reflexivity].
    + destruct (String.eqb_spec k' k0); [reflexivity | exact IH].
Qed.

Lemma set_notin k v d : ~ In k (keys d) -> set k v d = d ++ [(k, v)].
Proof.
  induction d as [| [k' v'] d IH]; simpl; intros HI.
  - reflexivity.
  - destruct (String.eqb_spec k k') as [-> | Hne].
    + elim HI. now left.
    + f_equal. apply IH. intros H. apply HI. now right.
Qed.

Lemma keys_set_in k v d : In k (keys d) -> keys (set k v d) = keys d.
Proof.
  induction d as [| [k' v'] d IH]; simpl; intros HI.
  - contradiction.
  - destruct (String.eqb_spec k k') as [-> | Hne]; simpl.
    + reflexivity.
    + f_equal. apply IH. destruct HI as [E | HI]; [now elim Hne | exact HI].
Qed.

Lemma keys_set_notin k v d :
  ~ In k (keys d) -> keys (set k v d) = keys d ++ [k].
Proof.
  intros HI. rewrite set_notin by exact HI.
  unfold keys. now rewrite map_app.
Qed.

Lemma in_keys_set k k' v d :
  In k' (keys (set k v d)) <-> k' = k \/ In k' (keys d).
Proof.
  destruct (in_dec string_dec k (keys d)) as [HI | HN].
  - rewrite keys_set_in by exact HI. split; [now right |].
    intros [-> | H]; assumption.
  - rewrite keys_set_notin by exact HN. rewrite in_app_iff. simpl.
    split.
    + intros [H | [E | []]]; [now right | now left].
    + intros [-> | H]; [right; now left | now left].
Qed.

Lemma wf_set k v d : wf d -> wf (set k v d).
Proof.
  unfold wf. intros Hwf.
  destruct (in_dec string_dec k (keys d)) as [HI | HN].
  - now rewrite keys_set_in.
  - rewrite keys_set_notin by exact HN.
    apply NoDup_app; [exact Hwf | repeat constructor; intros [] | ].
    intros x Hx [E | []]. subst x. contradiction.
Qed.

Lemma keys_adjust k f d : keys (adjust k f d) = keys d.
Proof.
  induction d as [| [k' v'] d IH]; simpl.
  - reflexivity.
  - destruct (String.eqb k k'); simpl; [reflexivity | now f_equal].
Qed.

Lemma wf_adjust k f d : wf d -> wf (adjust k f d).
Proof. unfold wf. now rewrite keys_adjust. Qed.

Lemma in_get k v d : wf d -> In (k, v) d -> get k d = Some v.
Proof.
  unfold wf. induction d as [| [k' v'] d IH]; simpl; intros Hwf HI.
  - contradiction.
  - inversion Hwf as [| ? ? Hnot Hwf']; subst.
    destruct HI as [E | HI].
    + inversion E; subst. now rewrite String.eqb_refl.
    + destruct (String.eqb_spec k k') as [-> | Hne].
      * elim Hnot. change (In k' (keys d)).
        unfold keys. apply in_map_iff. now exists (k', v).
      * now apply IH.
Qed.

Lemma get_in k v d : get k d = Some v -> In (k, v) d.
Proof.
  induction d as [| [k' v'] d IH]; simpl; [discriminate |].
  destruct (String.eqb_spec k k') as [-> | Hne]; intros H.
  - left. now inversion H.
  - right. now apply IH.
Qed.

Lemma wf_NoDup d : wf d -> NoDup d.
Proof.
  unfold wf, keys. apply NoDup_map_inv.
Qed.

(** Two well-formed dictionaries with the same lookups hold the same
    items, possibly in another order. *)
Lemma same_lookups_perm d1 d2 :
  wf d1 -> wf d2 -> (forall k, get k d1 = get k d2) -> Permutation d1 d2.
Proof.
  intros H1 H2 Hget.
  apply NoDup_Permutation; try now apply wf_NoDup.
  intros [k v]. split; intros HI.
  - apply get_in. rewrite <- Hget. now apply in_get.
  - apply get_in. rewrite Hget. now apply in_get.
Qed.
End DictFacts.

(** ** The statistics loop of [fit] *)

Lemma time_decay_weight_pos self d c : 0 < time_decay_weight self d c.
Proof. unfold time_decay_weight. apply exp_pos. Qed.

Lemma time_decay_weight_same_day self d : time_decay_weight self d d = 1.
Proof.
  unfold time_decay_weight. rewrite Z.sub_diag, Rmult_0_r. apply exp_0.
Qed.

Lemma goals_nonneg n : 0 <= goals n.
Proof. unfold goals. apply IZR_le. lia. Qed.

Lemma Forall_set {V : Type} (Q : string * V -> Prop) k v (d : dict V) :
  Forall Q d -> Q (k, v) -> Forall Q (set k v d).
Proof.
  intros Hd Hkv. induction Hd as [| [k' v'] d Hx Hd IH]; simpl.
  - constructor; [exact Hkv | constructor].
  - destruct (String.eqb k k'); constructor; assumption.
Qed.

Lemma Forall_adjust {V : Type} (Q Q' : string * V -> Prop) k f (d : dict V) :
  wf d ->
  Forall Q d ->
  (forall e, Q e -> fst e = k -> Q' (fst e, f (snd e))) ->
  (forall e, Q e -> fst e <> k -> Q' e) ->
  Forall Q' (adjust k f d).
Proof.
  unfold wf. intros Hwf Hd Hhit Hmiss.
  induction Hd as [| [k' v'] d Hx Hd IH]; simpl.
  - constructor.
  - inversion Hwf as [| ? ? Hnot Hwf']; subst.
    destruct (String.eqb_spec k k') as [-> | Hne].
    + constructor.
      * apply (Hhit (k', v')); [exact Hx | reflexivity].
      * rewrite Forall_forall in *. intros e He. apply Hmiss; [now apply Hd |].
        intros E. apply Hnot. unfold keys. apply in_map_iff.
        exists e. now split.
    + constructor.
      * apply Hmiss; [exact Hx | simpl; congruence].
      * now apply IH.
Qed.

Lemma add_result_ok sc co w s :
  0 <= sc -> 0 <= co -> 0 < w ->
  0 <= weighted_matches s /\ 0 <= goals_scored s /\ 0 <= goals_conceded s ->
  stat_ok (add_result sc co w s).
Proof.
  intros Hs Hc Hw (H1 & H2 & H3). unfold stat_ok, add_result; simpl.
  repeat split; nra.
Qed.

Lemma stat_ok_nonneg s :
  stat_ok s ->
  0 <= weighted_matches s /\ 0 <= goals_scored s /\ 0 <= goals_conceded s.
Proof. unfold stat_ok. intros (H1 & H2 & H3). repeat split; lra. Qed.

Lemma collect_match_ok self cd tms d m :
  stats_ok d -> stats_ok (snd (collect_match self cd (tms, d) m)).
Proof.
  intros [Hwf Hall]. unfold collect_match. cbv zeta. simpl snd.
  set (w := time_decay_weight self (match_date m) cd).
  assert (Hw : 0 < w) by apply time_decay_weight_pos.
  set (d1 := if contains (home_team m) d then d
             else set (home_team m) new_stat d).
  set (d2 := if contains (away_team m) d1 then d1
             else set (away_team m) new_stat d1).
  pose (Q := fun e : string * team_stat =>
               stat_ok (snd e) \/
               ((fst e = home_team m \/ fst e = away_team m) /\
                0 <= weighted_matches (snd e) /\
                0 <= goals_scored (snd e) /\ 0 <= goals_conceded (snd e))).
  assert (Hnew : forall k, k = home_team m \/ k = away_team m ->
                           Q (k, new_stat)).
  { intros k Hk. right. split; [exact Hk |]. simpl. repeat split; lra. }
  assert (Hwf1 : wf d1).
  { unfold d1. destruct (contains _ d); [exact Hwf | now apply wf_set]. }
  assert (Hwf2 : wf d2).
  { unfold d2. destruct (contains _ d1); [exact Hwf1 | now apply wf_set]. }
  assert (HQ1 : Forall Q d1).
  { assert (HQ0 : Forall Q d).
    { eapply Forall_impl; [| exact Hall]. intros e He. now left. }
    unfold d1. destruct (contains _ d); [exact HQ0 |].
    apply Forall_set; [exact HQ0 | apply Hnew; now left]. }
  assert (HQ2 : Forall Q d2).
  { unfold d2. destruct (contains _ d1); [exact HQ1 |].
    apply Forall_set; [exact HQ1 | apply Hnew; now right]. }
  pose (Q3 := fun e : string * team_stat =>
                stat_ok (snd e) \/
                (fst e = away_team m /\
                 0 <= weighted_matches (snd e) /\
                 0 <= goals_scored (snd e) /\ 0 <= goals_conceded (snd e))).
  split.
  - now apply wf_adjust, wf_adjust.
  - apply Forall_adjust with (Q := Q3).
    + now apply wf_adjust.
    + apply Forall_adjust with (Q := Q); [exact Hwf2 | exact HQ2 | |].
      * intros e He _. left. simpl.
        apply add_result_ok; try apply goals_nonneg; try exact Hw.
        destruct He as [He | [_ He]]; [now apply stat_ok_nonneg | exact He].
      * intros e He Hne. destruct He as [He | [[E | E] He]].
        -- now left.
        -- contradiction.
        -- right. now split.
    + intros e He _. simpl.
      apply add_result_ok; try apply goals_nonneg; try exact Hw.
      destruct He as [He | [_ He]]; [now apply stat_ok_nonneg | exact He].
    + intros e He Hne. destruct He as [He | [E _]]; [exact He | contradiction].
Qed.

Lemma collect_match_keys self cd tms d m t :
  In t (keys (snd (collect_match self cd (tms, d) m))) <->
  In t (keys d) \/ t = home_team m \/ t = away_team m.
Proof.
  unfold collect_match. cbv zeta. simpl snd.
  rewrite !keys_adjust.
  set (d1 := if contains (home_team m) d then d
             else set (home_team m) new_stat d).
  assert (H1 : In t (keys d1) <-> In t (keys d) \/ t = home_team m).
  { unfold d1. destruct (contains (home_team m) d) eqn:E.
    - apply contains_true_iff in E. split; [now left |].
      intros [H | ->]; assumption.
    - rewrite in_keys_set. tauto. }
  destruct (contains (away_team m) d1) eqn:E.
  - apply contains_true_iff in E. rewrite H1. split; [tauto |].
    intros [H | [H | ->]]; [tauto | tauto |]. now apply H1.
  - rewrite in_keys_set, H1. tauto.
Qed.

Lemma collect_fold_ok self cd ms : forall tms d,
  stats_ok d ->
  stats_ok (snd (fold_left (collect_match self cd) ms (tms, d))).
Proof.
  induction ms as [| m ms IH]; intros tms d Hd; cbn [fold_left].
  - exact Hd.
  - pose proof (collect_match_ok self cd tms d m Hd) as H1.
    destruct (collect_match self cd (tms, d) m) as [tms1 d1].
    apply IH. exact H1.
Qed.

Lemma collect_fold_keys self cd ms : forall tms d t,
  In t (keys (snd (fold_left (collect_match self cd) ms (tms, d)))) <->
  In t (keys d) \/ In t (match_teams ms).
Proof.
  induction ms as [| m ms IH]; intros tms d t; cbn [fold_left].
  - simpl. tauto.
  - pose proof (collect_match_keys self cd tms d m t) as H1.
    destruct (collect_match self cd (tms, d) m) as [tms1 d1].
    rewrite IH. cbn [snd] in H1. rewrite H1.
    cbn [match_teams flat_map app In]. fold (match_teams ms).
    split; intros H; intuition (subst; auto).
Qed.

Lemma stats_ok_empty : stats_ok (@empty team_stat).
Proof. split; [constructor | constructor]. Qed.

Lemma stats_of_ok self cd ms : stats_ok (stats_of self cd ms).
Proof. apply collect_fold_ok, stats_ok_empty. Qed.

Lemma stats_of_keys self cd ms t :
  In t (keys (stats_of self cd ms)) <-> In t (match_teams ms).
Proof.
  unfold stats_of, collect_stats. rewrite collect_fold_keys. simpl. tauto.
Qed.

Lemma stats_of_nonempty self cd ms : ms <> [] -> stats_of self cd ms <> [].
Proof.
  intros Hne E. destruct ms as [| m ms]; [contradiction |].
  assert (H : In (home_team m) (keys (stats_of self cd (m :: ms)))).
  { apply stats_of_keys. simpl. now left. }
  rewrite E in H. exact H.
Qed.

(** ** League totals *)

Section Totals.
Variable p : team_stat -> R.

Lemma total_init k (d : dict team_stat) :
  p new_stat = 0 ->
  stat_total p (if contains k d then d else set k new_stat d) = stat_total p d.
Proof.
  intros Hp. destruct (contains k d) eqn:E; [reflexivity |].
  apply contains_false_iff in E. rewrite set_notin by exact E.
  unfold stat_total, values. rewrite !map_app, py_sum_app. simpl.
  rewrite py_sum_cons, py_sum_nil, Hp. ring.
Qed.

Lemma total_adjust k f (d : dict team_stat) delta :
  In k (keys d) ->
  (forall v, p (f v) = p v + delta) ->
  stat_total p (adjust k f d) = stat_total p d + delta.
Proof.
  intros HI Hf. unfold stat_total.
  induction d as [| [k' v'] d IH]; simpl in *.
  - contradiction.
  - destruct (String.eqb_spec k k') as [-> | Hne]; simpl.
    + rewrite !py_sum_cons, Hf. ring.
    + rewrite !py_sum_cons, IH; [ring |].
      destruct HI as [E | HI]; [now elim Hne | exact HI].
Qed.

Lemma total_collect_match self cd tms d m sh :
  p new_stat = 0 ->
  (forall sc co w v, p (add_result sc co w v) = p v + sh sc co * w) ->
  stat_total p (snd (collect_match self cd (tms, d) m)) =
  stat_total p d
  + sh (goals (home_goals m)) (goals (away_goals m))
    * time_decay_weight self (match_date m) cd
  + sh (goals (away_goals m)) (goals (home_goals m))
    * time_decay_weight self (match_date m) cd.
Proof.
  intros Hnew Hadd. unfold collect_match. cbv zeta. simpl snd.
  set (d1 := if contains (home_team m) d then d
             else set (home_team m) new_stat d).
  set (d2 := if contains (away_team m) d1 then d1
             else set (away_team m) new_stat d1).
  assert (Hh : In (home_team m) (keys d1)).
  { unfold d1. destruct (contains (home_team m) d) eqn:E.
    - now apply contains_true_iff.
    - apply in_keys_set. now left. }
  assert (Ha : In (away_team m) (keys d2)).
  { unfold d2. destruct (contains (away_team m) d1) eqn:E.
    - now apply contains_true_iff.
    - apply in_keys_set. now left. }
  assert (Hh2 : In (home_team m) (keys d2)).
  { unfold d2. destruct (contains (away_team m) d1);
      [exact Hh | apply in_keys_set; now right]. }
  rewrite (total_adjust _ _ _ _ ltac:(rewrite keys_adjust; exact Ha)
             (fun v => Hadd _ _ _ v)).
  rewrite (total_adjust _ _ _ _ Hh2 (fun v => Hadd _ _ _ v)).
  unfold d2. rewrite total_init by exact Hnew.
  unfold d1. rewrite total_init by exact Hnew.
  reflexivity.
Qed.
End Totals.

Lemma total_goals_collect self cd ms : forall tms d,
  py_sum (map goals_scored
            (values (snd (fold_left (collect_match self cd) ms (tms, d))))) =
  py_sum (map goals_scored (values d)) + weighted_goals self cd ms.
Proof.
  induction ms as [| m ms IH]; intros tms d; cbn [fold_left].
  - unfold weighted_goals. simpl. rewrite py_sum_nil. ring.
  - pose proof (total_collect_match goals_scored self cd tms d m
                  (fun sc _ => sc) eq_refl (fun _ _ _ _ => eq_refl))
      as H1.
    unfold stat_total in H1.
    destruct (collect_match self cd (tms, d) m) as [tms1 d1].
    rewrite IH. cbn [snd] in H1. rewrite H1.
    unfold weighted_goals. cbn [map]. rewrite py_sum_cons. ring.
Qed.

Lemma stats_of_total_goals self cd ms :
  py_sum (map goals_scored (values (stats_of self cd ms))) =
  weighted_goals self cd ms.
Proof.
  unfold stats_of, collect_stats. rewrite total_goals_collect.
  simpl. rewrite py_sum_nil. ring.
Qed.


(** Some goal was scored in the match list. *)
Lemma weighted_goals_pos self cd ms :
  (exists m, In m ms /\ (0 < home_goals m + away_goals m)%nat) ->
  0 < weighted_goals self cd ms.
Proof.
  intros (m & Hm & Hg). unfold weighted_goals. apply py_sum_pos.
  - apply Forall_map, Forall_forall. intros m' _.
    pose proof (goals_nonneg (home_goals m')).
    pose proof (goals_nonneg (away_goals m')).
    pose proof (time_decay_weight_pos self (match_date m') cd). nra.
  - apply Exists_exists.
    exists ((goals (home_goals m) + goals (away_goals m))
            * time_decay_weight self (match_date m) cd).
    split.
    + apply in_map_iff. now exists m.
    + pose proof (time_decay_weight_pos self (match_date m) cd).
      assert (0 < goals (home_goals m) + goals (away_goals m)).
      { unfold goals. rewrite <- plus_IZR. apply IZR_lt. lia. }
      nra.
Qed.

Lemma weighted_goals_goalless self cd ms :
  (forall m, In m ms -> home_goals m = 0%nat /\ away_goals m = 0%nat) ->
  weighted_goals self cd ms = 0.
Proof.
  unfold weighted_goals. induction ms as [| m ms IH]; intros H; simpl.
  - apply py_sum_nil.
  - rewrite py_sum_cons, IH by (intros; apply H; now right).
    destruct (H m (or_introl eq_refl)) as [-> ->]. unfold goals. simpl. ring.
Qed.

Lemma stats_total_matches_pos (d : dict team_stat) :
  d <> [] -> stats_ok d ->
  0 < py_sum (map weighted_matches (values d)).
Proof.
  intros Hne [_ Hall]. apply py_sum_all_pos.
  - destruct d; [contradiction | discriminate].
  - unfold values. rewrite map_map. apply Forall_map.
    eapply Forall_impl; [| exact Hall]. intros e He. apply He.
Qed.

(** With at least one match the league average is the quotient of the
    weighted totals, and its sign is that of the weighted goals. *)
Lemma league_average_nonempty self cd ms :
  ms <> [] ->
  exists W, 0 < W /\
    league_average (stats_of self cd ms) = weighted_goals self cd ms / W.
Proof.
  intros Hne.
  pose proof (stats_total_matches_pos _ (stats_of_nonempty self cd ms Hne)
                (stats_of_ok self cd ms)) as HW.
  exists (py_sum (map weighted_matches (values (stats_of self cd ms)))).
  split; [exact HW |]. unfold league_average. cbv zeta.
  destruct (Rlt_dec 0 _) as [_ | N]; [| contradiction].
  now rewrite stats_of_total_goals.
Qed.



(** ** The rating loop of [fit] *)

Lemma rate_loop_returns L items : forall a d,
  L <> 0 ->
  Forall (fun e => 0 < weighted_matches (snd e)) items ->
  for_each (rate_team L) items (a, d) =
  Returns (set_all (raw_attack L) items a, set_all (raw_defense L) items d).
Proof.
  induction items as [| [t s] items IH]; intros a d HL Hall.
  - reflexivity.
  - inversion Hall as [| ? ? Hs Hrest]; subst. simpl in Hs.
    cbn [for_each]. unfold rate_team at 1.
    destruct (Rlt_dec 0 (weighted_matches s)) as [_ | N]; [| contradiction].
    rewrite !py_div_returns by exact HL. cbn [bind].
    rewrite IH by assumption. reflexivity.
Qed.

Lemma rate_loop_zero e items a d :
  0 < weighted_matches (snd e) ->
  for_each (rate_team 0) (e :: items) (a, d) = Raises ZeroDivisionError.
Proof.
  intros Hs. destruct e as [t s]. simpl in Hs.
  cbn [for_each]. unfold rate_team at 1.
  destruct (Rlt_dec 0 (weighted_matches s)) as [_ | N]; [| contradiction].
  rewrite py_div_zero. reflexivity.
Qed.

Section SetAll.
Context {T : Type}.
Variable f : T -> R.

Lemma set_all_cons e items m :
  set_all f (e :: items) m = set_all f items (set (fst e) (f (snd e)) m).
Proof. reflexivity. Qed.

Lemma in_keys_set_all items : forall m t,
  In t (keys (set_all f items m)) <-> In t (keys m) \/ In t (keys items).
Proof.
  induction items as [| e items IH]; intros m t.
  - simpl. tauto.
  - rewrite set_all_cons, IH, in_keys_set. simpl.
    split; intros H; intuition (subst; auto).
Qed.

Lemma wf_set_all items : forall m, wf m -> wf (set_all f items m).
Proof.
  induction items as [| e items IH]; intros m Hm.
  - exact Hm.
  - rewrite set_all_cons. now apply IH, wf_set.
Qed.

Lemma get_set_all items : forall m t,
  wf items ->
  get t (set_all f items m) =
  match get t items with
  | Some s => Some (f s)
  | None => get t m
  end.
Proof.
  unfold wf.
  induction items as [| [k s] items IH]; intros m t Hwf.
  - reflexivity.
  - inversion Hwf as [| ? ? Hnot Hwf']; subst.
    rewrite set_all_cons, IH by exact Hwf'. cbn [get fst snd].
    destruct (String.eqb_spec t k) as [-> | Hne].
    + apply get_none_iff in Hnot. rewrite Hnot. apply get_set_eq.
    + destruct (get t items); [reflexivity |].
      apply get_set_ne. congruence.
Qed.

Lemma set_all_app items : forall m,
  wf items ->
  (forall t, In t (keys items) -> ~ In t (keys m)) ->
  set_all f items m = m ++ map_values f items.
Proof.
  unfold wf.
  induction items as [| [k s] items IH]; intros m Hwf Hdisj.
  - simpl. now rewrite app_nil_r.
  - inversion Hwf as [| ? ? Hnot Hwf']; subst.
    rewrite set_all_cons. cbn [fst snd].
    rewrite set_notin by (apply Hdisj; now left).
    rewrite IH.
    + rewrite <- app_assoc. reflexivity.
    + exact Hwf'.
    + intros t Ht. unfold keys. rewrite map_app, in_app_iff.
      intros [H | [E | []]].
      * apply (Hdisj t); [now right | exact H].
      * simpl in E. subst t. contradiction.
Qed.

Lemma set_all_fresh items :
  wf items -> set_all f items [] = map_values f items.
Proof.
  intros Hwf. rewrite set_all_app; [reflexivity | exact Hwf |].
  intros t _ [].
Qed.
End SetAll.

Lemma keys_map_values {V W : Type} (g : V -> W) (d : dict V) :
  keys (map_values g d) = keys d.
Proof. unfold keys, map_values. rewrite map_map. reflexivity. Qed.

Lemma values_map_values {V W : Type} (g : V -> W) (d : dict V) :
  values (map_values g d) = map g (values d).
Proof. unfold values, map_values. rewrite !map_map. reflexivity. Qed.



(** Same keys in the same order and the same lookups: the same items. *)
Lemma same_keys_lookups {V W : Type} (g : V -> W) (d : dict V) :
  forall d' : dict W,
  wf d -> keys d' = keys d ->
  (forall k, get k d' = option_map g (get k d)) ->
  d' = map_values g d.
Proof.
  unfold wf.
  induction d as [| [k v] d IH]; intros d' Hwf Hk Hget.
  - destruct d'; [reflexivity | discriminate].
  - destruct d' as [| [k' v'] d']; [discriminate |].
    simpl in Hk. injection Hk as -> Hk.
    inversion Hwf as [| ? ? Hnot Hwf']; subst.
    pose proof (Hget k) as Hkk. simpl in Hkk.
    rewrite String.eqb_refl in Hkk. injection Hkk as ->.
    unfold map_values. cbn [map fst snd]. f_equal.
    apply IH; [exact Hwf' | exact Hk |].
    intros t. destruct (String.eqb_spec t k) as [-> | Hne].
    + assert (E1 : get k d = None) by now apply get_none_iff.
      assert (E2 : get k d' = None).
      { apply get_none_iff. now rewrite Hk. }
      now rewrite E1, E2.
    + specialize (Hget t). simpl in Hget.
      destruct (String.eqb_spec t k); [contradiction | exact Hget].
Qed.

(** ** The normalisation loop of [fit] *)

Lemma normalize_loop_keys avg ks : forall a d a' d',
  for_each (normalize_team avg) ks (a, d) = Returns (a', d') ->
  keys a' = keys a /\ keys d' = keys d.
Proof.
  induction ks as [| k ks IH]; intros a d a' d' H.
  - injection H as <- <-. now split.
  - cbn [for_each] in H. apply bind_returns in H.
    destruct H as ([a1 d1] & Hstep & Hrest).
    unfold normalize_team in Hstep.
    apply bind_returns in Hstep. destruct Hstep as (va & Hva & Hstep).
    apply bind_returns in Hstep. destruct Hstep as (vd & Hvd & Hstep).
    injection Hstep as <- <-.
    destruct (IH _ _ _ _ Hrest) as [Ha Hd]. rewrite Ha, Hd.
    unfold getitem in Hva, Hvd.
    destruct (get k a) eqn:Ea; [| discriminate].
    destruct (get k d) eqn:Ed; [| discriminate].
    split; apply keys_set_in; eapply get_in_keys; eauto.
Qed.

Lemma normalize_loop avg ks : forall a d,
  NoDup ks ->
  (forall k, In k ks -> In k (keys a) /\ In k (keys d)) ->
  exists a' d',
    for_each (normalize_team avg) ks (a, d) = Returns (a', d') /\
    (forall t, In t ks ->
       get t a' = option_map (fun v => v / avg) (get t a) /\
       get t d' = option_map (fun v => v / avg) (get t d)) /\
    (forall t, ~ In t ks -> get t a' = get t a /\ get t d' = get t d).
Proof.
  induction ks as [| k ks IH]; intros a d Hnd Hin.
  - exists a, d. split; [reflexivity |]. split.
    + intros t [].
    + now intros t _.
  - inversion Hnd as [| ? ? Hnot Hnd']; subst.
    destruct (Hin k (or_introl eq_refl)) as [Hka Hkd].
    destruct (in_keys_get _ _ Hka) as [va Eva].
    destruct (in_keys_get _ _ Hkd) as [vd Evd].
    destruct (IH (set k (va / avg) a) (set k (vd / avg) d) Hnd')
      as (a' & d' & Hloop & Hhit & Hmiss).
    { intros t Ht. rewrite !in_keys_set. split; right; apply Hin; now right. }
    exists a', d'. split.
    { cbn [for_each]. unfold normalize_team at 1. unfold getitem.
      rewrite Eva, Evd. cbn [bind]. exact Hloop. }
    split.
    + intros t [<- | Ht].
      * destruct (Hmiss k Hnot) as [-> ->].
        rewrite !get_set_eq, Eva, Evd. now split.
      * destruct (Hhit t Ht) as [-> ->].
        assert (k <> t) by (intros ->; contradiction).
        now rewrite !get_set_ne by assumption.
    + intros t Ht.
      assert (k <> t) by (intros ->; apply Ht; now left).
      destruct (Hmiss t) as [-> ->].
      { intros H'. apply Ht. now right. }
      now rewrite !get_set_ne by assumption.
Qed.

(** ** [fit] as a whole *)

Lemma fit_inv self ms cd0 m' :
  fit self ms cd0 = Returns m' ->
  exists cd a1 d1 a2 d2,
    reference_date ms cd0 = Returns cd /\
    for_each (rate_team (league_average (stats_of self cd ms)))
      (stats_of self cd ms) (team_attack self, team_defense self)
    = Returns (a1, d1) /\
    for_each (normalize_team (mean_attack a1)) (keys a1) (a1, d1)
    = Returns (a2, d2) /\
    m' = {| xi := xi self; home_advantage := home_advantage self;
            rho := rho self; team_attack := a2; team_defense := d2;
            teams := fst (collect_stats self cd ms (teams self)) |}.
Proof.
  unfold fit. intros H.
  apply bind_returns in H. destruct H as (cd & Hcd & H).
  destruct (collect_stats self cd ms (teams self)) as [tms stats] eqn:Est.
  cbv zeta in H.
  apply bind_returns in H. destruct H as ([a1 d1] & Hrate & H).
  apply bind_returns in H. destruct H as ([a2 d2] & Hnorm & H).
  cbn [fst snd] in *. injection H as <-.
  exists cd, a1, d1, a2, d2. unfold stats_of. rewrite Est. cbn [fst snd].
  repeat split; assumption.
Qed.

Lemma fit_intro self ms cd0 cd a1 d1 a2 d2 :
  reference_date ms cd0 = Returns cd ->
  for_each (rate_team (league_average (stats_of self cd ms)))
    (stats_of self cd ms) (team_attack self, team_defense self)
  = Returns (a1, d1) ->
  for_each (normalize_team (mean_attack a1)) (keys a1) (a1, d1)
  = Returns (a2, d2) ->
  fit self ms cd0 =
  Returns {| xi := xi self; home_advantage := home_advantage self;
             rho := rho self; team_attack := a2; team_defense := d2;
             teams := fst (collect_stats self cd ms (teams self)) |}.
Proof.
  intros Hcd Hrate Hnorm. unfold fit.
  change (match cd0 with
          | Some d => Returns d
          | None => max_match_date ms
          end) with (reference_date ms cd0).
  rewrite Hcd. cbn [bind]. unfold stats_of in Hrate.
  destruct (collect_stats self cd ms (teams self)) as [tms stats].
  cbn [snd fst] in *. rewrite Hrate. cbn [bind fst snd].
  rewrite Hnorm. reflexivity.
Qed.

(** The rating loop returns exactly when there is no match or the league
    average is not zero. *)
Lemma rated_inv self cd ms a1 d1 :
  for_each (rate_team (league_average (stats_of self cd ms)))
    (stats_of self cd ms) (team_attack self, team_defense self)
  = Returns (a1, d1) ->
  (ms = [] \/ league_average (stats_of self cd ms) <> 0) /\
  a1 = set_all (raw_attack (league_average (stats_of self cd ms)))
         (stats_of self cd ms) (team_attack self) /\
  d1 = set_all (raw_defense (league_average (stats_of self cd ms)))
         (stats_of self cd ms) (team_defense self).
Proof.
  intros H.
  pose proof (stats_of_ok self cd ms) as [Hwf Hall].
  assert (Hpos : Forall (fun e => 0 < weighted_matches (snd e))
                   (stats_of self cd ms)).
  { eapply Forall_impl; [| exact Hall]. intros e He. apply He. }
  destruct (Req_dec_T (league_average (stats_of self cd ms)) 0) as [E | N].
  - destruct ms as [| m ms].
    + change (stats_of self cd []) with (@nil (string * team_stat)) in *.
      simpl in H. injection H as <- <-. split; [now left |]. now split.
    + pose proof (stats_of_nonempty self cd (m :: ms) ltac:(discriminate))
        as Hne.
      rewrite E in H.
      destruct (stats_of self cd (m :: ms)) as [| e items];
        [contradiction |].
      rewrite rate_loop_zero in H; [discriminate |].
      now inversion Hpos.
  - rewrite rate_loop_returns in H by assumption.
    injection H as <- <-. split; [now right |]. now split.
Qed.

Lemma reference_date_returns ms cd0 :
  ms <> [] \/ cd0 <> None -> exists cd, reference_date ms cd0 = Returns cd.
Proof.
  intros H. destruct cd0 as [d |]; simpl.
  - now exists d.
  - destruct ms as [| m ms].
    + destruct H as [H | H]; now elim H.
    + eexists. reflexivity.
Qed.

(** [fit] returns on a model whose rating dictionaries are well formed and
    share their keys, as soon as one goal was scored. *)
Lemma fit_returns self ms cd0 :
  wf (team_attack self) ->
  (forall t, In t (keys (team_attack self)) ->
             In t (keys (team_defense self))) ->
  (exists m, In m ms /\ (0 < home_goals m + away_goals m)%nat) ->
  exists m', fit self ms cd0 = Returns m'.
Proof.
  intros Hwf Hsub Hgoal.
  assert (Hne : ms <> []).
  { destruct Hgoal as (m & Hm & _). intros ->. exact Hm. }
  destruct (reference_date_returns ms cd0 (or_introl Hne)) as [cd Hcd].
  pose proof (stats_of_ok self cd ms) as [Hswf Hall].
  assert (Hpos : Forall (fun e => 0 < weighted_matches (snd e))
                   (stats_of self cd ms)).
  { eapply Forall_impl; [| exact Hall]. intros e He. apply He. }
  assert (HL : league_average (stats_of self cd ms) <> 0).
  { destruct (league_average_nonempty self cd ms Hne) as (W & HW & ->).
    pose proof (weighted_goals_pos self cd ms Hgoal) as HG.
    apply Rgt_not_eq. apply Rdiv_lt_0_compat; assumption. }
  set (L := league_average (stats_of self cd ms)) in *.
  set (a1 := set_all (raw_attack L) (stats_of self cd ms) (team_attack self)).
  set (d1 := set_all (raw_defense L) (stats_of self cd ms)
               (team_defense self)).
  destruct (normalize_loop (mean_attack a1) (keys a1) a1 d1)
    as (a2 & d2 & Hnorm & _).
  { apply wf_set_all. exact Hwf. }
  { intros k Hk. split; [exact Hk |]. unfold a1, d1 in *.
    apply in_keys_set_all. apply in_keys_set_all in Hk.
    destruct Hk as [Hk | Hk]; [left; now apply Hsub | now right]. }
  eexists. eapply fit_intro; [exact Hcd | | exact Hnorm].
  now apply rate_loop_returns.
Qed.

(** With at least one match and no goal at all the league average is zero
    and the first rated team raises. *)
Lemma fit_goalless_raises self ms cd0 :
  ms <> [] ->
  (forall m, In m ms -> home_goals m = 0%nat /\ away_goals m = 0%nat) ->
  fit self ms cd0 = Raises ZeroDivisionError.
Proof.
  intros Hne Hzero.
  destruct (reference_date_returns ms cd0 (or_introl Hne)) as [cd Hcd].
  unfold fit.
  change (match cd0 with
          | Some d => Returns d
          | None => max_match_date ms
          end) with (reference_date ms cd0).
  rewrite Hcd. cbn [bind].
  pose proof (stats_of_ok self cd ms) as [_ Hall].
  pose proof (stats_of_nonempty self cd ms Hne) as Hsne.
  assert (HL : league_average (stats_of self cd ms) = 0).
  { destruct (league_average_nonempty self cd ms Hne) as (W & HW & ->).
    rewrite weighted_goals_goalless by exact Hzero. unfold Rdiv. ring. }
  unfold stats_of in *.
  destruct (collect_stats self cd ms (teams self)) as [tms stats].
  cbn [snd] in *. cbv zeta. rewrite HL.
  destruct stats as [| e items]; [contradiction |].
  rewrite rate_loop_zero; [reflexivity |].
  inversion Hall as [| ? ? He _]; subst. apply He.
Qed.

(** [fit] on a freshly constructed model, in closed form. *)
Lemma fit_fresh xi0 ha rho0 ms cd0 cd :
  let self := init xi0 ha rho0 in
  let stats := stats_of self cd ms in
  let L := league_average stats in
  let avg := mean_attack (map_values (raw_attack L) stats) in
  reference_date ms cd0 = Returns cd ->
  ms = [] \/ L <> 0 ->
  fit self ms cd0 =
  Returns {| xi := xi0; home_advantage := ha; rho := rho0;
             team_attack := map_values (fun s => raw_attack L s / avg) stats;
             team_defense :=
               map_values (fun s => raw_defense L s / avg) stats;
             teams := fst (collect_stats self cd ms []) |}.
Proof.
  intros self stats L avg Hcd HL.
  pose proof (stats_of_ok self cd ms) as [Hwf Hall]. fold stats in Hwf, Hall.
  set (a1 := map_values (raw_attack L) stats).
  set (d1 := map_values (raw_defense L) stats).
  assert (Hrate : for_each (rate_team L) stats
                    (team_attack self, team_defense self) = Returns (a1, d1)).
  { destruct HL as [-> | HL].
    - reflexivity.
    - rewrite rate_loop_returns.
      + cbn [team_attack team_defense self init].
        unfold empty. now rewrite !set_all_fresh.
      + exact HL.
      + eapply Forall_impl; [| exact Hall]. intros e He. apply He. }
  assert (Hka : keys a1 = keys stats) by apply keys_map_values.
  assert (Hkd : keys d1 = keys stats) by apply keys_map_values.
  destruct (normalize_loop avg (keys a1) a1 d1)
    as (a2 & d2 & Hnorm & Hhit & _).
  { rewrite Hka. exact Hwf. }
  { intros k Hk. split; [exact Hk | now rewrite Hkd, <- Hka]. }
  destruct (normalize_loop_keys _ _ _ _ _ _ Hnorm) as [Hk2a Hk2d].
  assert (Ea : a2 = map_values (fun v => v / avg) a1).
  { apply same_keys_lookups.
    - unfold wf. rewrite Hka. exact Hwf.
    - exact Hk2a.
    - intros k. destruct (in_dec string_dec k (keys a1)) as [HI | HN].
      + apply Hhit, HI.
      + assert (E1 : get k a1 = None) by now apply get_none_iff.
        assert (E2 : get k a2 = None).
        { apply get_none_iff. now rewrite Hk2a. }
        now rewrite E1, E2. }
  assert (Ed : d2 = map_values (fun v => v / avg) d1).
  { apply same_keys_lookups.
    - unfold wf. rewrite Hkd. exact Hwf.
    - exact Hk2d.
    - intros k. destruct (in_dec string_dec k (keys a1)) as [HI | HN].
      + apply Hhit, HI.
      + assert (E1 : get k d1 = None).
        { apply get_none_iff. now rewrite Hkd, <- Hka. }
        assert (E2 : get k d2 = None).
        { apply get_none_iff. now rewrite Hk2d, Hkd, <- Hka. }
        now rewrite E1, E2. }
  rewrite (fit_intro self ms cd0 cd a1 d1 a2 d2 Hcd Hrate Hnorm).
  rewrite Ea, Ed. unfold a1, d1, map_values. rewrite !map_map.
  reflexivity.
Qed.

(** ** The mean of the raw attack ratings *)





(** ** [fit] on a model that already holds ratings *)



(** Ratings after a [fit] that returns, by lookup. *)
Lemma fit_lookups self ms cd0 m' :
  wf (team_attack self) ->
  (forall t, In t (keys (team_attack self)) ->
             In t (keys (team_defense self))) ->
  fit self ms cd0 = Returns m' ->
  exists cd,
    reference_date ms cd0 = Returns cd /\
    let stats := stats_of self cd ms in
    let L := league_average stats in
    let a1 := set_all (raw_attack L) stats (team_attack self) in
    let d1 := set_all (raw_defense L) stats (team_defense self) in
    let avg := mean_attack a1 in
    (ms = [] \/ L <> 0) /\
    xi m' = xi self /\
    keys (team_attack m') = keys a1 /\
    keys (team_defense m') = keys d1 /\
    (forall t, get t (team_attack m') =
               option_map (fun v => v / avg) (get t a1)) /\
    (forall t, In t (keys a1) ->
               get t (team_defense m') =
               option_map (fun v => v / avg) (get t d1)) /\
    (forall t, ~ In t (keys a1) -> get t (team_defense m') = get t d1).
Proof.
  intros Hwf Hsub Hfit. apply fit_inv in Hfit.
  destruct Hfit as (cd & a1 & d1 & a2 & d2 & Hcd & Hrate & Hnorm & ->).
  exists cd. split; [exact Hcd |]. cbv zeta.
  apply rated_inv in Hrate. destruct Hrate as (HL & Ea & Ed).
  rewrite <- Ea, <- Ed. cbn [xi team_attack team_defense].
  destruct (normalize_loop_keys _ _ _ _ _ _ Hnorm) as [Hka Hkd].
  destruct (normalize_loop (mean_attack a1) (keys a1) a1 d1)
    as (a2' & d2' & Hnorm' & Hhit & Hmiss).
  { rewrite Ea. now apply wf_set_all. }
  { intros k Hk. split; [exact Hk |]. rewrite Ea in Hk. rewrite Ed.
    apply in_keys_set_all. apply in_keys_set_all in Hk.
    destruct Hk as [Hk | Hk]; [left; now apply Hsub | now right]. }
  rewrite Hnorm in Hnorm'. injection Hnorm' as <- <-.
  repeat split; try assumption.
  - intros t. destruct (in_dec string_dec t (keys a1)) as [HI | HN].
    + apply Hhit, HI.
    + destruct (Hmiss t HN) as [-> _].
      assert (E : get t a1 = None) by now apply get_none_iff.
      now rewrite E.
  - intros t HI. apply Hhit, HI.
  - intros t HN. apply Hmiss, HN.
Qed.


Lemma mean_attack_perm (a b : dict R) :
  Permutation a b -> mean_attack a = mean_attack b.
Proof.
  intros HP. unfold mean_attack.
  destruct a as [| x a], b as [| y b].
  - reflexivity.
  - apply Permutation_nil in HP. discriminate.
  - apply Permutation_sym, Permutation_nil in HP. discriminate.
  - apply np_mean_perm. unfold values. now apply Permutation_map.
Qed.

(** A [fit] that returned on a fresh model: its result in closed form. *)
Lemma fit_fresh_inv xi0 ha rho0 ms cd0 m' :
  fit (init xi0 ha rho0) ms cd0 = Returns m' ->
  exists cd,
    reference_date ms cd0 = Returns cd /\
    let stats := stats_of (init xi0 ha rho0) cd ms in
    let L := league_average stats in
    let avg := mean_attack (map_values (raw_attack L) stats) in
    (ms = [] \/ L <> 0) /\
    m' = {| xi := xi0; home_advantage := ha; rho := rho0;
            team_attack :=
              map_values (fun s => raw_attack L s / avg) stats;
            team_defense :=
              map_values (fun s => raw_defense L s / avg) stats;
            teams := fst (collect_stats (init xi0 ha rho0) cd ms []) |}.
Proof.
  intros Hfit. pose proof Hfit as Hinv. apply fit_inv in Hinv.
  destruct Hinv as (cd & a1 & d1 & a2 & d2 & Hcd & Hrate & _ & _).
  apply rated_inv in Hrate. destruct Hrate as (HL & _ & _).
  rewrite (fit_fresh xi0 ha rho0 ms cd0 cd Hcd HL) in Hfit.
  injection Hfit as <-. exists cd. split; [exact Hcd |].
  cbv zeta. split; [exact HL | reflexivity].
Qed.


(** ** Evaluating [fit] on concrete match lists *)

Ltac struct_eq :=
  repeat match goal with
  | |- Returns _ = Returns _ => f_equal
  | |- MkModel _ _ _ _ _ _ = MkModel _ _ _ _ _ _ => f_equal
  | |- MkStat _ _ _ = MkStat _ _ _ => f_equal
  | |- cons _ _ = cons _ _ => f_equal
  | |- pair _ _ = pair _ _ => f_equal
  end.

Ltac eval_stats :=
  unfold stats_of, collect_stats;
  cbn -[exp IZR Rlt_dec Req_dec_T INR time_decay_weight];
  rewrite ?time_decay_weight_same_day;
  unfold add_result, new_stat, goals;
  cbn -[exp IZR Rlt_dec Req_dec_T INR].

Ltac eval_league :=
  unfold league_average, py_sum; cbn -[Rlt_dec IZR];
  match goal with
  | |- context [Rlt_dec ?a ?b] =>
      destruct (Rlt_dec a b); [| exfalso; lra]
  end.

Lemma stats_A_B self :
  stats_of self 0 [match_A_B] =
  [("A"%string, MkStat 1 0 1); ("B"%string, MkStat 0 1 1)].
Proof. unfold match_A_B. eval_stats. struct_eq; ring. Qed.

Lemma league_A_B :
  league_average [("A"%string, MkStat 1 0 1); ("B"%string, MkStat 0 1 1)]
  = 1 / 2.
Proof. eval_league. field. Qed.

Lemma fit_A_B : fit default_model [match_A_B] None = Returns fitted_A_B.
Proof.
  unfold default_model.
  rewrite (fit_fresh _ _ _ [match_A_B] None 0%Z eq_refl).
  - rewrite stats_A_B, league_A_B.
    unfold fitted_A_B, map_values, mean_attack, np_mean, py_sum,
      raw_attack, raw_defense.
    cbn -[IZR]. struct_eq; field.
  - right. rewrite stats_A_B, league_A_B. lra.
Qed.

Lemma stats_C_D_E self :
  stats_of self 0 [match_C_D; match_C_E] =
  [("C"%string, MkStat 2 0 2); ("D"%string, MkStat 0 1 1);
   ("E"%string, MkStat 0 1 1)].
Proof. unfold match_C_D, match_C_E. eval_stats. struct_eq; ring. Qed.

Lemma league_C_D_E :
  league_average
    [("C"%string, MkStat 2 0 2); ("D"%string, MkStat 0 1 1);
     ("E"%string, MkStat 0 1 1)]
  = 1 / 2.
Proof. eval_league. field. Qed.

Lemma fit_C_D_E :
  fit default_model [match_C_D; match_C_E] None = Returns fitted_C_D_E.
Proof.
  unfold default_model.
  rewrite (fit_fresh _ _ _ [match_C_D; match_C_E] None 0%Z eq_refl).
  - rewrite stats_C_D_E, league_C_D_E.
    unfold fitted_C_D_E, map_values, mean_attack, np_mean, py_sum,
      raw_attack, raw_defense.
    cbn -[IZR]. struct_eq; field.
  - right. rewrite stats_C_D_E, league_C_D_E. lra.
Qed.


Lemma fifty_matches_goal :
  exists m, In m fifty_matches /\ (0 < home_goals m + away_goals m)%nat.
Proof.
  exists (MkMatch "f" "A" "B" 1 0 0). split.
  - left. reflexivity.
  - simpl. lia.
Qed.

Lemma stats_lopsided self :
  stats_of self 0 lopsided_matches =
  [("A"%string, MkStat 19 1 1); ("B"%string, MkStat 1 19 1);
   ("C"%string, MkStat 0 0 1); ("D"%string, MkStat 0 0 1)].
Proof. unfold lopsided_matches. eval_stats. struct_eq; ring. Qed.

Lemma league_lopsided :
  league_average
    [("A"%string, MkStat 19 1 1); ("B"%string, MkStat 1 19 1);
     ("C"%string, MkStat 0 0 1); ("D"%string, MkStat 0 0 1)]
  = 5.
Proof. eval_league. field. Qed.

Lemma fit_lopsided :
  fit default_model lopsided_matches None = Returns fitted_lopsided.
Proof.
  unfold default_model.
  rewrite (fit_fresh _ _ _ lopsided_matches None 0%Z eq_refl).
  - rewrite stats_lopsided, league_lopsided.
    unfold fitted_lopsided, map_values, mean_attack, np_mean, py_sum,
      raw_attack, raw_defense.
    cbn -[IZR]. struct_eq; field.
  - right. rewrite stats_lopsided, league_lopsided. lra.
Qed.


(** ** The scoreline grid in closed form *)

Lemma texp_pos x : 0 < texp x.
Proof. unfold texp. nra. Qed.

Lemma texp_wsum x : texp x = wsum (fun _ => 1) x.
Proof. unfold texp, wsum. field. Qed.

Lemma score_grid_closed self l m :
  score_grid self l m =
  (exp (- l) * exp (- m) * wsum (home_coeff m (rho self)) l,
   exp (- l) * exp (- m) * draw_poly l m (rho self),
   exp (- l) * exp (- m) * wsum (away_coeff m (rho self)) l).
Proof.
  unfold score_grid, poisson, tau_correction, add_score, wsum, home_coeff,
    away_coeff, draw_poly.
  cbn -[exp pow INR]. cbn [fact Nat.mul Nat.add]. cbn [INR].
  f_equal; [f_equal |]; field.
Qed.

Lemma grid_poly_total l m r :
  wsum (home_coeff m r) l + draw_poly l m r + wsum (away_coeff m r) l =
  texp l * texp m.
Proof. unfold wsum, home_coeff, away_coeff, draw_poly, texp. field. Qed.

(** In exact arithmetic the three accumulators add up to a positive
    total, whatever the means and whatever [rho]. *)
Lemma score_grid_total self l m :
  bucket_total (score_grid self l m) =
  exp (- l) * exp (- m) * (texp l * texp m).
Proof.
  rewrite score_grid_closed. unfold bucket_total.
  rewrite <- (grid_poly_total l m (rho self)). ring.
Qed.

Lemma score_grid_total_pos self l m : 0 < bucket_total (score_grid self l m).
Proof.
  rewrite score_grid_total.
  pose proof (exp_pos (- l)). pose proof (exp_pos (- m)).
  pose proof (texp_pos l). pose proof (texp_pos m).
  repeat apply Rmult_lt_0_compat; assumption.
Qed.

Lemma normalize_pos h d a :
  0 < h + d + a ->
  normalize (h, d, a) = (h / (h + d + a), d / (h + d + a), a / (h + d + a)).
Proof.
  intros H. unfold normalize.
  destruct (Rlt_dec 0 (h + d + a)) as [_ | N]; [reflexivity | contradiction].
Qed.

Lemma normalize_not_pos h d a :
  ~ 0 < h + d + a -> normalize (h, d, a) = (h, d, a).
Proof.
  intros H. unfold normalize.
  destruct (Rlt_dec 0 (h + d + a)) as [P | _]; [contradiction | reflexivity].
Qed.

(** The probabilities [predict] returns, as quotients of polynomials. *)
Lemma normalize_score_grid self l m :
  normalize (score_grid self l m) =
  (wsum (home_coeff m (rho self)) l / (texp l * texp m),
   draw_poly l m (rho self) / (texp l * texp m),
   wsum (away_coeff m (rho self)) l / (texp l * texp m)).
Proof.
  pose proof (score_grid_total_pos self l m) as Hpos.
  pose proof (score_grid_total self l m) as Htot.
  rewrite score_grid_closed in *. unfold bucket_total in Hpos, Htot.
  rewrite normalize_pos by exact Hpos. rewrite Htot.
  pose proof (exp_pos (- l)). pose proof (exp_pos (- m)).
  pose proof (texp_pos l). pose proof (texp_pos m).
  f_equal; [f_equal |]; field; repeat split; apply Rgt_not_eq; assumption.
Qed.

Lemma predict_closed self home away :
  let l := lambda_of self home away in
  let m := mu_of self home away in
  predict self home away =
  Returns {| home_win_prob :=
               wsum (home_coeff m (rho self)) l / (texp l * texp m);
             draw_prob := draw_poly l m (rho self) / (texp l * texp m);
             away_win_prob :=
               wsum (away_coeff m (rho self)) l / (texp l * texp m);
             expected_home_goals := l;
             expected_away_goals := m;
             home_attack := get_default home (team_attack self) 1;
             home_defense := get_default home (team_defense self) 1;
             away_attack := get_default away (team_attack self) 1;
             away_defense := get_default away (team_defense self) 1;
             pred_rho := rho self; pred_xi := xi self |}.
Proof.
  intros l m. unfold predict, predict_finish. cbv zeta.
  fold (lambda_of self home away). fold (mu_of self home away).
  fold l m. rewrite normalize_score_grid. reflexivity.
Qed.

(** ** Monotone coefficients give a monotone quotient *)

Lemma fact_INR_pos n : 0 < INR (fact n).
Proof. apply lt_0_INR, lt_O_fact. Qed.

Lemma pow_diff_nonneg x y n : 0 <= x -> x <= y -> 0 <= y ^ n - x ^ n.
Proof.
  intros Hx Hxy. pose proof (pow_incr x y n (conj Hx Hxy)). lra.
Qed.

Lemma pow_diff_pos x y n :
  0 <= x -> x < y -> (0 < n)%nat -> 0 < y ^ n - x ^ n.
Proof.
  intros Hx Hxy Hn. destruct n as [| n]; [lia |]. clear Hn.
  induction n as [| n IH].
  - simpl. lra.
  - assert (H1 : 0 <= x ^ S n) by now apply pow_le.
    change (y ^ S (S n)) with (y * y ^ S n).
    change (x ^ S (S n)) with (x * x ^ S n). nra.
Qed.

Lemma kernel_eq i k x y :
  kernel (k + i) k x y =
  (x * y) ^ k * (y ^ i - x ^ i) / (INR (fact (k + i)) * INR (fact k)).
Proof.
  unfold kernel, pterm. rewrite !pow_add, Rpow_mult_distr.
  pose proof (fact_INR_pos (k + i)). pose proof (fact_INR_pos k).
  field. split; apply Rgt_not_eq; assumption.
Qed.

Lemma kernel_nonneg i k x y :
  0 <= x -> x <= y -> (k <= i)%nat -> 0 <= kernel i k x y.
Proof.
  intros Hx Hxy Hki. replace i with (k + (i - k))%nat by lia.
  rewrite kernel_eq.
  pose proof (fact_INR_pos (k + (i - k))). pose proof (fact_INR_pos k).
  apply Rmult_le_pos.
  - apply Rmult_le_pos.
    + apply pow_le. nra.
    + now apply pow_diff_nonneg.
  - left. apply Rinv_0_lt_compat. now apply Rmult_lt_0_compat.
Qed.

Lemma kernel_zero_pos i x y :
  0 <= x -> x < y -> (0 < i)%nat -> 0 < kernel i 0 x y.
Proof.
  intros Hx Hxy Hi. change i with (0 + i)%nat. rewrite kernel_eq.
  pose proof (fact_INR_pos (0 + i)). pose proof (fact_INR_pos 0).
  apply Rmult_lt_0_compat.
  - simpl pow at 1. rewrite Rmult_1_l. now apply pow_diff_pos.
  - apply Rinv_0_lt_compat. now apply Rmult_lt_0_compat.
Qed.

Section Cross.
Variable c : nat -> R.
Variables x y : R.
Hypothesis Hx : 0 <= x.
Hypothesis Hxy : x <= y.

Lemma cross_step_0 c' i :
  cross_step c c' i x y 0 = (c' - c O) * kernel i 0 x y.
Proof.
  unfold cross_step, kernel, pterm. simpl.
  pose proof (fact_INR_pos i). field. lra.
Qed.

Lemma cross_step_S c' i n :
  cross_step c c' i x y (S n) =
  cross_step c c' i x y n + (c' - c (S n)) * kernel i (S n) x y.
Proof.
  unfold cross_step, kernel, pterm, Rdiv. cbn [psum]. unfold Rdiv. ring.
Qed.

(** Adding a degree whose coefficient dominates the earlier ones adds at
    least the contribution of degree 0. *)
Lemma cross_step_lower c' i n :
  (forall k, (k <= n)%nat -> c k <= c') ->
  (n < i)%nat ->
  (c' - c O) * kernel i 0 x y <= cross_step c c' i x y n.
Proof.
  intros Hc Hi. induction n as [| n IH].
  - rewrite cross_step_0. lra.
  - rewrite cross_step_S.
    assert (H1 : 0 <= c' - c (S n)).
    { specialize (Hc (S n) (le_n _)). lra. }
    assert (H2 : 0 <= kernel i (S n) x y).
    { apply kernel_nonneg; try assumption. lia. }
    assert (H3 : (c' - c O) * kernel i 0 x y <= cross_step c c' i x y n).
    { apply IH; [| lia]. intros k Hk. apply Hc. lia. }
    nra.
Qed.

Lemma cross_S n :
  cross c x y (S n) = cross c x y n + cross_step c (c (S n)) (S n) x y n.
Proof.
  unfold cross, cross_step, pterm, Rdiv. cbn [psum]. unfold Rdiv. ring.
Qed.

Lemma monotone_le n :
  (forall i, (i < n)%nat -> c i <= c (S i)) ->
  forall i j, (i <= j)%nat -> (j <= n)%nat -> c i <= c j.
Proof.
  intros Hstep i j Hij Hjn. induction Hij as [| j Hij IH].
  - lra.
  - assert (c j <= c (S j)) by (apply Hstep; lia).
    assert (c i <= c j) by (apply IH; lia). lra.
Qed.

Lemma cross_nonneg n :
  (forall i, (i < n)%nat -> c i <= c (S i)) -> 0 <= cross c x y n.
Proof.
  induction n as [| n IH]; intros Hstep.
  - unfold cross. simpl. lra.
  - rewrite cross_S.
    assert (H1 : 0 <= cross c x y n).
    { apply IH. intros i Hi. apply Hstep. lia. }
    assert (H2 : (c (S n) - c O) * kernel (S n) 0 x y
                 <= cross_step c (c (S n)) (S n) x y n).
    { apply cross_step_lower; [| lia].
      intros k Hk. apply (monotone_le (S n) Hstep); lia. }
    assert (H3 : 0 <= c (S n) - c O).
    { pose proof (monotone_le (S n) Hstep 0%nat (S n)) as Hm.
      specialize (Hm ltac:(lia) ltac:(lia)). lra. }
    assert (H4 : 0 <= kernel (S n) 0 x y).
    { apply kernel_nonneg; try assumption. lia. }
    nra.
Qed.
End Cross.

Lemma cross_pos c x y n :
  0 <= x -> x < y ->
  (forall i, (i < S n)%nat -> c i <= c (S i)) ->
  c O < c (S n) ->
  0 < cross c x y (S n).
Proof.
  intros Hx Hxy Hstep Hends.
  assert (Hle : x <= y) by lra.
  rewrite cross_S.
  assert (H1 : 0 <= cross c x y n).
  { apply cross_nonneg; try assumption. intros i Hi. apply Hstep. lia. }
  assert (H2 : (c (S n) - c O) * kernel (S n) 0 x y
               <= cross_step c (c (S n)) (S n) x y n).
  { apply cross_step_lower; try assumption; [| lia].
    intros k Hk. apply (monotone_le c (S n) Hstep); lia. }
  assert (H3 : 0 < kernel (S n) 0 x y).
  { apply kernel_zero_pos; try assumption. lia. }
  nra.
Qed.

Lemma fact_values :
  INR (fact 1) = 1 /\ INR (fact 2) = 2 /\ INR (fact 3) = 6 /\
  INR (fact 4) = 24 /\ INR (fact 5) = 120 /\ INR (fact 6) = 720.
Proof.
  rewrite !INR_IZR_INZ. repeat split; apply f_equal; reflexivity.
Qed.

Lemma wsum_psum c x : wsum c x = psum c x 6.
Proof.
  unfold wsum. cbn [psum].
  destruct fact_values as (-> & -> & -> & -> & -> & ->). field.
Qed.

Lemma texp_psum x : texp x = psum (fun _ => 1) x 6.
Proof. rewrite texp_wsum. apply wsum_psum. Qed.

(** The quotient of the weighted by the plain polynomial grows strictly
    with the mean when the coefficients do not decrease and are not all
    equal. *)
Lemma wsum_ratio_lt c x y :
  0 <= x -> x < y ->
  (forall i, (i < 6)%nat -> c i <= c (S i)) ->
  c 0%nat < c 6%nat ->
  wsum c x / texp x < wsum c y / texp y.
Proof.
  intros Hx Hxy Hstep Hends.
  pose proof (cross_pos c x y 5 Hx Hxy Hstep Hends) as Hc.
  unfold cross in Hc. rewrite <- !texp_psum, <- !wsum_psum in Hc.
  pose proof (texp_pos x) as Tx. pose proof (texp_pos y) as Ty.
  apply Rlt_0_minus.
  replace (wsum c y / texp y - wsum c x / texp x)
    with ((wsum c y * texp x - wsum c x * texp y) / (texp x * texp y))
    by (field; split; apply Rgt_not_eq; assumption).
  apply Rdiv_lt_0_compat; [exact Hc | now apply Rmult_lt_0_compat].
Qed.

Lemma wsum_opp c x : wsum (fun i => - c i) x = - wsum c x.
Proof. unfold wsum. field. Qed.

Lemma home_coeff_steps m r :
  0 <= m -> r <= 1 -> 0 <= 1 + m * r ->
  (forall i, (i < 6)%nat -> home_coeff m r i <= home_coeff m r (S i)) /\
  home_coeff m r 0 < home_coeff m r 6.
Proof.
  intros Hm Hr Htau.
  pose proof (pow_le m 2 Hm). pose proof (pow_le m 3 Hm).
  pose proof (pow_le m 4 Hm). pose proof (pow_le m 5 Hm).
  split.
  - intros i Hi.
    destruct i as [| [| [| [| [| [| i]]]]]]; [.. | lia];
      cbn [home_coeff]; nra.
  - cbn [home_coeff]. nra.
Qed.

Lemma away_coeff_steps m r :
  0 < m -> r <= 1 -> - m / 2 <= r ->
  (forall i, (i < 6)%nat ->
             - away_coeff m r i <= - away_coeff m r (S i)) /\
  - away_coeff m r 0 < - away_coeff m r 6.
Proof.
  intros Hm Hr Hlow.
  assert (Hm0 : 0 <= m) by lra.
  pose proof (pow_le m 2 Hm0). pose proof (pow_le m 3 Hm0).
  pose proof (pow_le m 4 Hm0). pose proof (pow_le m 5 Hm0).
  pose proof (pow_le m 6 Hm0).
  assert (Hsq : m ^ 2 = m * m) by ring.
  split.
  - intros i Hi.
    destruct i as [| [| [| [| [| [| i]]]]]]; [.. | lia];
      cbn [away_coeff]; nra.
  - cbn [away_coeff]. nra.
Qed.

Lemma lambda_of_with_home_advantage self ha home away :
  lambda_of (with_home_advantage self ha) home away =
  get_default home (team_attack self) 1
  * get_default away (team_defense self) 1 * (1 + ha).
Proof.
  unfold lambda_of, with_home_advantage. cbn [team_attack team_defense
    home_advantage]. ring.
Qed.

Lemma mu_of_with_home_advantage self ha home away :
  mu_of (with_home_advantage self ha) home away = mu_of self home away.
Proof. reflexivity. Qed.

(** ** SimpleDixonColes *)

Lemma poisson_nonneg m k : 0 <= m -> 0 <= poisson m k.
Proof.
  intros Hm. unfold poisson.
  apply Rmult_le_pos; [| left; apply Rinv_0_lt_compat, fact_INR_pos].
  apply Rmult_le_pos; [left; apply exp_pos | now apply pow_le].
Qed.

Lemma add_score_nonneg i j s b :
  0 <= s -> buckets_nonneg b -> buckets_nonneg (add_score i j s b).
Proof.
  intros Hs. destruct b as [[h d] a]. unfold buckets_nonneg, add_score.
  intros (H1 & H2 & H3).
  destruct (j <? i)%nat; [| destruct (i =? j)%nat]; repeat split; lra.
Qed.

Lemma fold_nonneg {A : Type} (f : buckets -> A -> buckets) (l : list A) :
  (forall b x, buckets_nonneg b -> buckets_nonneg (f b x)) ->
  forall b, buckets_nonneg b -> buckets_nonneg (fold_left f l b).
Proof.
  intros Hf. induction l as [| x l IH]; intros b Hb; simpl.
  - exact Hb.
  - apply IH, Hf, Hb.
Qed.

Lemma simple_score_grid_nonneg l m :
  0 <= l -> 0 <= m -> buckets_nonneg (Simple.score_grid l m).
Proof.
  intros Hl Hm. unfold Simple.score_grid.
  apply fold_nonneg; [| simpl; lra].
  intros b i Hb. apply fold_nonneg; [| exact Hb].
  intros b' j Hb'. apply add_score_nonneg; [| exact Hb'].
  apply Rmult_le_pos; now apply poisson_nonneg.
Qed.

Lemma simple_score_grid_total l m :
  bucket_total (Simple.score_grid l m) =
  exp (- l) * exp (- m) * (texp5 l * texp5 m).
Proof.
  unfold Simple.score_grid, poisson, add_score, bucket_total, texp5.
  cbn -[exp pow INR]. cbn [fact Nat.mul Nat.add]. cbn [INR]. field.
Qed.

Lemma texp5_pos x : 0 <= x -> 0 < texp5 x.
Proof.
  intros Hx. unfold texp5.
  pose proof (pow_le x 2 Hx). pose proof (pow_le x 3 Hx).
  pose proof (pow_le x 4 Hx). pose proof (pow_le x 5 Hx). lra.
Qed.

Lemma normalize_probabilities h d a :
  0 <= h -> 0 <= d -> 0 <= a -> 0 < h + d + a ->
  exists h' d' a',
    normalize (h, d, a) = (h', d', a') /\
    h' + d' + a' = 1 /\
    0 <= h' <= 1 /\ 0 <= d' <= 1 /\ 0 <= a' <= 1.
Proof.
  intros Hh Hd Ha Ht. rewrite normalize_pos by exact Ht.
  do 3 eexists. split; [reflexivity |].
  assert (Hi : 0 < / (h + d + a)) by now apply Rinv_0_lt_compat.
  assert (Hs : h / (h + d + a) + d / (h + d + a) + a / (h + d + a) = 1).
  { field. now apply Rgt_not_eq. }
  assert (0 <= h / (h + d + a)) by (apply Rmult_le_pos; lra).
  assert (0 <= d / (h + d + a)) by (apply Rmult_le_pos; lra).
  assert (0 <= a / (h + d + a)) by (apply Rmult_le_pos; lra).
  split; [exact Hs |]. repeat split; lra.
Qed.

(** Without tau correction, non-negative expected goals are enough for
    the three probabilities to lie in [0,1] and add up to 1. *)
Lemma simple_predict_probabilities self home away :
  0 <= Simple.home_exp_of self home away ->
  0 <= Simple.away_exp_of self home away ->
  exists p,
    Simple.predict self home away = Returns p /\
    Simple.home_win_prob p + Simple.draw_prob p + Simple.away_win_prob p = 1
    /\ 0 <= Simple.home_win_prob p <= 1
    /\ 0 <= Simple.draw_prob p <= 1
    /\ 0 <= Simple.away_win_prob p <= 1.
Proof.
  intros Hl Hm. unfold Simple.predict. cbv zeta.
  fold (Simple.home_exp_of self home away).
  fold (Simple.away_exp_of self home away).
  set (l := Simple.home_exp_of self home away) in *.
  set (m := Simple.away_exp_of self home away) in *.
  pose proof (simple_score_grid_nonneg l m Hl Hm) as Hnn.
  pose proof (simple_score_grid_total l m) as Htot.
  destruct (Simple.score_grid l m) as [[h d] a].
  destruct Hnn as (Hh & Hd & Ha). unfold bucket_total in Htot.
  assert (Ht : 0 < h + d + a).
  { rewrite Htot.
    pose proof (exp_pos (- l)). pose proof (exp_pos (- m)).
    pose proof (texp5_pos l Hl). pose proof (texp5_pos m Hm).
    repeat apply Rmult_lt_0_compat; assumption. }
  destruct (normalize_probabilities h d a Hh Hd Ha Ht)
    as (h' & d' & a' & -> & Hs & H1 & H2 & H3).
  eexists. split; [reflexivity |]. simpl. repeat split; lra.
Qed.

(** *** The two loops of [SimpleDixonColes.fit] *)

Lemma simple_collect_match_ok d m :
  simple_stats_ok d -> simple_stats_ok (Simple.collect_match d m).
Proof.
  intros [Hwf Hall]. unfold Simple.collect_match. cbv zeta.
  pose (P := fun e : string * Simple.team_stat =>
               (0 < Simple.matches (snd e))%Z).
  pose (Q := fun k (e : string * Simple.team_stat) =>
               P e \/ (fst e = k /\ (0 <= Simple.matches (snd e))%Z)).
  assert (Hinit : forall k d0,
            wf d0 -> Forall P d0 ->
            wf (if contains k d0 then d0 else set k Simple.new_stat d0) /\
            Forall (Q k)
              (if contains k d0 then d0 else set k Simple.new_stat d0)).
  { intros k d0 Hw Hp.
    assert (HQ : Forall (Q k) d0).
    { eapply Forall_impl; [| exact Hp]. intros e He. now left. }
    destruct (contains k d0); [now split |]. split.
    - now apply wf_set.
    - apply Forall_set; [exact HQ |]. right. simpl. split; [reflexivity | lia]. }
  assert (Hadj : forall k sc co d0,
            wf d0 -> Forall (Q k) d0 ->
            wf (adjust k (Simple.add_result sc co) d0) /\
            Forall P (adjust k (Simple.add_result sc co) d0)).
  { intros k sc co d0 Hw HQ. split; [now apply wf_adjust |].
    apply Forall_adjust with (Q := Q k); try assumption.
    - intros e He _. unfold P. simpl.
      destruct He as [He | [_ He]]; unfold P in *; lia.
    - intros e He Hne. destruct He as [He | [E _]]; [exact He | contradiction]. }
  destruct (Hinit (home_team m) d Hwf Hall) as [Hw1 HQ1].
  destruct (Hadj (home_team m) (home_goals m) (away_goals m) _ Hw1 HQ1)
    as [Hw2 HP2].
  destruct (Hinit (away_team m) _ Hw2 HP2) as [Hw3 HQ3].
  destruct (Hadj (away_team m) (away_goals m) (home_goals m) _ Hw3 HQ3)
    as [Hw4 HP4].
  split; assumption.
Qed.

Lemma simple_collect_ok ms : forall d,
  simple_stats_ok d ->
  simple_stats_ok (fold_left Simple.collect_match ms d).
Proof.
  induction ms as [| m ms IH]; intros d Hd; cbn [fold_left].
  - exact Hd.
  - apply IH. now apply simple_collect_match_ok.
Qed.

Lemma simple_rate_loop_inv L items : forall a d a' d',
  Forall (fun e => (0 < Simple.matches (snd e))%Z) items ->
  for_each (Simple.rate_team L) items (a, d) = Returns (a', d') ->
  a' = set_all (simple_attack L) items a /\
  d' = set_all (simple_defense L) items d.
Proof.
  induction items as [| [t s] items IH]; intros a d a' d' Hall H.
  - injection H as <- <-. now split.
  - inversion Hall as [| ? ? Hs Hrest]; subst. simpl in Hs.
    cbn [for_each] in H. apply bind_returns in H.
    destruct H as ([a1 d1] & Hstep & Hloop).
    unfold Simple.rate_team in Hstep.
    apply Z.ltb_lt in Hs. rewrite Hs in Hstep.
    apply bind_returns in Hstep. destruct Hstep as (va & Hva & Hstep).
    apply bind_returns in Hstep. destruct Hstep as (vd & Hvd & Hstep).
    injection Hstep as <- <-.
    apply py_div_inv in Hva. destruct Hva as [_ ->].
    apply py_div_inv in Hvd. destruct Hvd as [_ ->].
    apply (IH _ _ _ _ Hrest) in Hloop. exact Hloop.
Qed.

(** A [SimpleDixonColes.fit] that returned on a fresh model stored each
    team's goals per match divided by the league average, and nothing
    more. *)
Lemma simple_fit_fresh_inv xi0 ha ms m' :
  Simple.fit (Simple.init xi0 ha) ms = Returns m' ->
  let stats := fold_left Simple.collect_match ms [] in
  let L := Simple.league_average stats in
  Simple.team_attack m' = map_values (simple_attack L) stats /\
  Simple.team_defense m' = map_values (simple_defense L) stats.
Proof.
  intros Hfit stats L. unfold Simple.fit in Hfit. cbv zeta in Hfit.
  fold stats in Hfit. fold L in Hfit.
  apply bind_returns in Hfit. destruct Hfit as ([a d] & Hrate & Hret).
  injection Hret as <-. cbn [Simple.team_attack Simple.team_defense fst snd].
  assert (Hok : simple_stats_ok stats).
  { apply simple_collect_ok. split; constructor. }
  destruct Hok as [Hwf Hall].
  apply simple_rate_loop_inv in Hrate; [| exact Hall].
  destruct Hrate as [-> ->]. cbn [Simple.team_attack Simple.team_defense
    Simple.init]. unfold empty.
  now rewrite !set_all_fresh.
Qed.

(* ================================================================== *)
(** * The tau correction *)

(** C3. For all scorelines and all real lambda, mu, rho the tau correction
    is [1 - lambda*mu*rho] at (0,0), [1 + lambda*rho] at (0,1),
    [1 + mu*rho] at (1,0), [1 - rho] at (1,1) and [1] at every other
    scoreline (one with two or more goals on a side); with [rho = 0] it is
    [1] at every scoreline. *)
Theorem tau_correction_table :
  forall (xi0 ha rho0 : R) (att def : dict R) (tms : list string)
         (lambda mu : R),
    let self := MkModel xi0 ha rho0 att def tms in
    let zero := MkModel xi0 ha 0 att def tms in
    tau_correction self 0 0 lambda mu = 1 - lambda * mu * rho0 /\
    tau_correction self 0 1 lambda mu = 1 + lambda * rho0 /\
    tau_correction self 1 0 lambda mu = 1 + mu * rho0 /\
    tau_correction self 1 1 lambda mu = 1 - rho0 /\
    (forall i j, tau_correction self (S (S i)) j lambda mu = 1 /\
                 tau_correction self i (S (S j)) lambda mu = 1) /\
    (forall i j, tau_correction zero i j lambda mu = 1).
Proof.
  intros xi0 ha rho0 att def tms lambda mu self zero.
  repeat split; try reflexivity.
  - destruct i as [| [| i]]; reflexivity.
  - destruct i as [| [| i]], j as [| [| j]]; unfold tau_correction; simpl;
      ring.
Qed.

(* ================================================================== *)
(** * The Brier score *)

(** C9. For every probability triple and every result in H, D, A the Brier
    score is a third of the sum of the squared differences to the one-hot
    encoding of the result; it is 0 for (1,0,0) against H and 2/9 for
    (1/3,1/3,1/3) against each of the three results. *)
Theorem calculate_brier_score_spec :
  forall p1 p2 p3 : R,
    calculate_brier_score [p1; p2; p3] "H" =
      Returns (((p1 - 1) ^ 2 + (p2 - 0) ^ 2 + (p3 - 0) ^ 2) / 3) /\
    calculate_brier_score [p1; p2; p3] "D" =
      Returns (((p1 - 0) ^ 2 + (p2 - 1) ^ 2 + (p3 - 0) ^ 2) / 3) /\
    calculate_brier_score [p1; p2; p3] "A" =
      Returns (((p1 - 0) ^ 2 + (p2 - 0) ^ 2 + (p3 - 1) ^ 2) / 3) /\
    calculate_brier_score [1; 0; 0] "H" = Returns 0 /\
    calculate_brier_score [1 / 3; 1 / 3; 1 / 3] "H" = Returns (2 / 9) /\
    calculate_brier_score [1 / 3; 1 / 3; 1 / 3] "D" = Returns (2 / 9) /\
    calculate_brier_score [1 / 3; 1 / 3; 1 / 3] "A" = Returns (2 / 9).
Proof.
  intros p1 p2 p3.
  repeat split; unfold calculate_brier_score, squared_errors, py_sum;
    simpl; f_equal; field.
Qed.


(* ================================================================== *)
(** * Ratings after [fit] *)




(* ================================================================== *)
(** * Training twice on one instance *)




(* ================================================================== *)
(** * Home advantage *)

(** In exact arithmetic: with the ratings fixed, a positive product of the
    home attack and the away defense, and home advantages from -1 upwards,
    the home-win probability strictly increases with the home advantage
    and the away-win probability strictly decreases, inside the window on
    [rho]. *)
Lemma home_advantage_monotone_exact :
  forall (self : DixonColesModel) (home away : string) (ha1 ha2 : R)
         (p1 p2 : Prediction),
    0 < get_default home (team_attack self) 1
        * get_default away (team_defense self) 1 ->
    -1 <= ha1 -> ha1 < ha2 ->
    predict (with_home_advantage self ha1) home away = Returns p1 ->
    predict (with_home_advantage self ha2) home away = Returns p2 ->
    (0 <= mu_of self home away ->
     rho self <= 1 ->
     0 <= 1 + mu_of self home away * rho self ->
     home_win_prob p1 < home_win_prob p2) /\
    (0 < mu_of self home away ->
     rho self <= 1 ->
     - mu_of self home away / 2 <= rho self ->
     away_win_prob p2 < away_win_prob p1).
Proof.
  intros self home away ha1 ha2 p1 p2 Hprod Hlow Hlt Hp1 Hp2.
  rewrite predict_closed in Hp1, Hp2. cbv zeta in Hp1, Hp2.
  injection Hp1 as <-. injection Hp2 as <-.
  cbn [home_win_prob away_win_prob].
  rewrite !lambda_of_with_home_advantage, !mu_of_with_home_advantage.
  change (rho (with_home_advantage self ha1)) with (rho self).
  change (rho (with_home_advantage self ha2)) with (rho self).
  set (k := get_default home (team_attack self) 1
            * get_default away (team_defense self) 1) in *.
  set (m := mu_of self home away). set (r := rho self).
  assert (Hl1 : 0 <= k * (1 + ha1)) by (apply Rmult_le_pos; lra).
  assert (Hl12 : k * (1 + ha1) < k * (1 + ha2)).
  { apply Rmult_lt_compat_l; lra. }
  pose proof (texp_pos m) as Tm.
  pose proof (texp_pos (k * (1 + ha1))) as T1.
  pose proof (texp_pos (k * (1 + ha2))) as T2.
  assert (Hsplit : forall c x,
             0 < texp x ->
             wsum c x / (texp x * texp m) = wsum c x / texp x / texp m).
  { intros c x Hx. field. split; apply Rgt_not_eq; assumption. }
  split.
  - intros Hm Hr Htau.
    destruct (home_coeff_steps m r Hm Hr Htau) as [Hstep Hends].
    pose proof (wsum_ratio_lt _ _ _ Hl1 Hl12 Hstep Hends) as Hratio.
    rewrite !Hsplit by assumption.
    apply Rmult_lt_compat_r; [now apply Rinv_0_lt_compat | exact Hratio].
  - intros Hm Hr Hrlow.
    destruct (away_coeff_steps m r Hm Hr Hrlow) as [Hstep Hends].
    pose proof (wsum_ratio_lt (fun i => - away_coeff m r i) _ _
                  Hl1 Hl12 Hstep Hends) as Hratio.
    rewrite !wsum_opp in Hratio.
    rewrite !Hsplit by assumption.
    apply Rmult_lt_compat_r; [now apply Rinv_0_lt_compat |].
    unfold Rdiv in *. lra.
Qed.

(** The window on [rho] is not idle.  With the default [rho = -0.13] and
    expected away goals [mu = 10], the coefficient [1 + mu * rho] of the
    (1,0) cell is negative, and raising the home advantage from 0.3 to 0.5
    lowers the home-win probability. *)
Lemma home_advantage_outside_window :
  exists p1 p2,
    predict (with_home_advantage steep_model 0.3) "H" "A" = Returns p1 /\
    predict (with_home_advantage steep_model 0.5) "H" "A" = Returns p2 /\
    1 + mu_of steep_model "H" "A" * rho steep_model < 0 /\
    home_win_prob p2 < home_win_prob p1.
Proof.
  do 2 eexists.
  split; [apply predict_closed |]. split; [apply predict_closed |].
  cbn [home_win_prob].
  rewrite !lambda_of_with_home_advantage, !mu_of_with_home_advantage.
  change (rho (with_home_advantage steep_model 0.3)) with (-0.13).
  change (rho (with_home_advantage steep_model 0.5)) with (-0.13).
  change (rho steep_model) with (-0.13).
  assert (Em : mu_of steep_model "H" "A" = 10).
  { unfold mu_of, steep_model, get_default. simpl. lra. }
  assert (E1 : get_default "H" (team_attack steep_model) 1
               * get_default "A" (team_defense steep_model) 1 * (1 + 0.3)
               = 13 / 1000).
  { unfold steep_model, get_default. simpl. lra. }
  assert (E2 : get_default "H" (team_attack steep_model) 1
               * get_default "A" (team_defense steep_model) 1 * (1 + 0.5)
               = 15 / 1000).
  { unfold steep_model, get_default. simpl. lra. }
  rewrite Em, E1, E2. split; [lra |].
  pose proof (texp_pos 10) as Tm.
  pose proof (texp_pos (13 / 1000)) as T1.
  pose proof (texp_pos (15 / 1000)) as T2.
  assert (Hcross : wsum (home_coeff 10 (-0.13)) (15 / 1000)
                   * texp (13 / 1000)
                   < wsum (home_coeff 10 (-0.13)) (13 / 1000)
                     * texp (15 / 1000)).
  { unfold wsum, home_coeff, texp. lra. }
  apply Rlt_0_minus.
  replace (wsum (home_coeff 10 (-0.13)) (13 / 1000)
           / (texp (13 / 1000) * texp 10)
           - wsum (home_coeff 10 (-0.13)) (15 / 1000)
             / (texp (15 / 1000) * texp 10))
    with ((wsum (home_coeff 10 (-0.13)) (13 / 1000) * texp (15 / 1000)
           - wsum (home_coeff 10 (-0.13)) (15 / 1000) * texp (13 / 1000))
          / (texp (13 / 1000) * texp (15 / 1000) * texp 10))
    by (field; repeat split; apply Rgt_not_eq; assumption).
  apply Rdiv_lt_0_compat; [lra |].
  repeat apply Rmult_lt_0_compat; assumption.
Qed.

(* ================================================================== *)
(** * Further properties of [fit] *)

Lemma goalless_or_scored ms : goalless ms \/ scored_in ms.
Proof.
  induction ms as [| m ms IH].
  - left. intros m [].
  - destruct IH as [IH | (m' & Hin & Hg)].
    + destruct (home_goals m + away_goals m)%nat eqn:E.
      * left. intros x [<- | Hx]; [lia | now apply IH].
      * right. exists m. split; [now left | lia].
    + right. exists m'. split; [now right | exact Hg].
Qed.

Lemma goalless_not_scored ms : goalless ms -> ~ scored_in ms.
Proof. intros Hg (m & Hin & Hpos). destruct (Hg m Hin). lia. Qed.

Lemma rate_loop_raises L items : forall a d e,
  for_each (rate_team L) items (a, d) = Raises e -> e = ZeroDivisionError.
Proof.
  induction items as [| [t s] items IH]; intros a d e H.
  - discriminate H.
  - cbn [for_each] in H. unfold rate_team at 1 in H.
    destruct (Rlt_dec 0 (weighted_matches s)) as [_ | _].
    + unfold py_div in H. destruct (Req_dec_T L 0) as [_ | _].
      * simpl in H. now injection H as <-.
      * simpl in H. now apply IH in H.
    + simpl in H. now apply IH in H.
Qed.

Lemma normalize_loop_raises avg ks : forall a d e,
  for_each (normalize_team avg) ks (a, d) = Raises e -> e = KeyError.
Proof.
  induction ks as [| k ks IH]; intros a d e H.
  - discriminate H.
  - cbn [for_each] in H. unfold normalize_team at 1 in H. unfold getitem in H.
    destruct (get k a) as [va |]; [| simpl in H; now injection H as <-].
    destruct (get k d) as [vd |]; [| simpl in H; now injection H as <-].
    simpl in H. now apply IH in H.
Qed.

(** What [fit] can raise, and where it comes from. *)
Lemma fit_raises_inv self ms cd0 e :
  fit self ms cd0 = Raises e ->
  (e = ValueError /\ ms = [] /\ cd0 = None) \/
  (e = ZeroDivisionError /\ exists cd, reference_date ms cd0 = Returns cd) \/
  (e = KeyError /\ exists cd, reference_date ms cd0 = Returns cd).
Proof.
  unfold fit.
  change (match cd0 with
          | Some d => Returns d
          | None => max_match_date ms
          end) with (reference_date ms cd0).
  destruct (reference_date ms cd0) as [cd | e0] eqn:Ecd.
  - cbn [bind]. destruct (collect_stats self cd ms (teams self)) as [tms st].
    destruct (for_each (rate_team (league_average st)) st
                (team_attack self, team_defense self)) as [[a1 d1] | e1]
      eqn:Erate.
    + cbn [bind fst snd].
      destruct (for_each (normalize_team (mean_attack a1)) (keys a1) (a1, d1))
        as [[a2 d2] | e2] eqn:Enorm.
      * cbn [bind]. discriminate.
      * cbn [bind]. intros H. injection H as <-.
        apply normalize_loop_raises in Enorm. subst e2.
        right. right. split; [reflexivity | now exists cd].
    + cbn [bind]. intros H. injection H as <-.
      apply rate_loop_raises in Erate. subst e1.
      right. left. split; [reflexivity | now exists cd].
  - cbn [bind]. intros H. injection H as <-.
    destruct cd0 as [d |]; [discriminate Ecd |].
    destruct ms as [| m ms]; [| discriminate Ecd].
    simpl in Ecd. injection Ecd as <-. left. now repeat split.
Qed.

(** X1. [fit] raises [ValueError] exactly when it is given no match and no
    reference date: the only source is [max] over an empty sequence. *)
Theorem fit_value_error_iff :
  forall (self : DixonColesModel) (ms : list match_row) (cd0 : option Z),
    fit self ms cd0 = Raises ValueError <-> ms = [] /\ cd0 = None.
Proof.
  intros self ms cd0. split.
  - intros H. apply fit_raises_inv in H.
    destruct H as [(_ & H1 & H2) | [(H & _) | (H & _)]];
      [now split | discriminate H | discriminate H].
  - intros [-> ->]. reflexivity.
Qed.

Lemma weighted_goals_zero_goalless self cd ms :
  weighted_goals self cd ms = 0 -> goalless ms.
Proof.
  intros H0. destruct (goalless_or_scored ms) as [Hg | Hs]; [exact Hg |].
  pose proof (weighted_goals_pos self cd ms Hs). lra.
Qed.

(** [fit] once its reference date is known. *)
Lemma fit_with_date self ms cd0 cd :
  reference_date ms cd0 = Returns cd ->
  fit self ms cd0 =
  (rated <- for_each (rate_team (league_average (stats_of self cd ms)))
              (stats_of self cd ms) (team_attack self, team_defense self) ;;
   normalized <- for_each (normalize_team (mean_attack (fst rated)))
                   (keys (fst rated)) rated ;;
   Returns {| xi := xi self; home_advantage := home_advantage self;
              rho := rho self;
              team_attack := fst normalized;
              team_defense := snd normalized;
              teams := fst (collect_stats self cd ms (teams self)) |}).
Proof.
  intros Hcd. unfold fit, stats_of.
  change (match cd0 with
          | Some d => Returns d
          | None => max_match_date ms
          end) with (reference_date ms cd0).
  rewrite Hcd. cbn [bind].
  destruct (collect_stats self cd ms (teams self)) as [tms st].
  reflexivity.
Qed.

(** The rating loop returns when there is no match or a goal was scored. *)
Lemma rate_loop_outcome self cd ms a d :
  ms = [] \/ scored_in ms ->
  for_each (rate_team (league_average (stats_of self cd ms)))
    (stats_of self cd ms) (a, d) =
  Returns (set_all (raw_attack (league_average (stats_of self cd ms)))
             (stats_of self cd ms) a,
           set_all (raw_defense (league_average (stats_of self cd ms)))
             (stats_of self cd ms) d).
Proof.
  intros [-> | Hs].
  - reflexivity.
  - assert (Hne : ms <> []).
    { destruct Hs as (m & Hm & _). intros ->. exact Hm. }
    pose proof (stats_of_ok self cd ms) as [_ Hall].
    apply rate_loop_returns.
    + destruct (league_average_nonempty self cd ms Hne) as (W & HW & ->).
      pose proof (weighted_goals_pos self cd ms Hs).
      apply Rgt_not_eq. now apply Rdiv_lt_0_compat.
    + eapply Forall_impl; [| exact Hall]. intros x Hx. apply Hx.
Qed.

(** In exact arithmetic [fit] raises [ZeroDivisionError] exactly when the
    list is not empty and no goal was scored in it. *)
Lemma fit_zero_division_exact :
  forall (self : DixonColesModel) (ms : list match_row) (cd0 : option Z),
    fit self ms cd0 = Raises ZeroDivisionError <-> ms <> [] /\ goalless ms.
Proof.
  intros self ms cd0. split.
  - intros H.
    assert (Hcase : ms = [] \/ scored_in ms -> False).
    { intros Hc.
      destruct (reference_date ms cd0) as [cd | e] eqn:Ecd.
      - rewrite (fit_with_date self ms cd0 cd Ecd) in H.
        rewrite (rate_loop_outcome self cd ms _ _ Hc) in H.
        cbn [bind fst snd] in H.
        destruct (for_each _ _ _) as [r | e] eqn:E in H.
        + discriminate H.
        + cbn [bind] in H. injection H as ->.
          apply normalize_loop_raises in E. discriminate E.
      - apply fit_raises_inv in H.
        destruct H as [(H & _) | [(_ & cd & Hcd) | (H & _)]];
          try discriminate H.
        rewrite Hcd in Ecd. discriminate Ecd. }
    split.
    + intros E. apply Hcase. now left.
    + destruct (goalless_or_scored ms) as [Hg | Hs]; [exact Hg |].
      exfalso. apply Hcase. now right.
  - intros [Hne Hg]. now apply fit_goalless_raises.
Qed.

Lemma fit_value_error_iff_witness :
  fit default_model [] None = Raises ValueError.
Proof. apply (fit_value_error_iff default_model). now split. Defined.

Lemma fit_returns_of self ms cd0 cd :
  wf (team_attack self) ->
  (forall t, In t (keys (team_attack self)) ->
             In t (keys (team_defense self))) ->
  reference_date ms cd0 = Returns cd ->
  ms = [] \/ scored_in ms ->
  exists m', fit self ms cd0 = Returns m'.
Proof.
  intros Hwf Hsub Hcd Hc.
  rewrite (fit_with_date self ms cd0 cd Hcd).
  rewrite (rate_loop_outcome self cd ms _ _ Hc). cbn [bind fst snd].
  set (L := league_average (stats_of self cd ms)).
  set (a1 := set_all (raw_attack L) (stats_of self cd ms) (team_attack self)).
  set (d1 := set_all (raw_defense L) (stats_of self cd ms)
               (team_defense self)).
  destruct (normalize_loop (mean_attack a1) (keys a1) a1 d1)
    as (a2 & d2 & Hnorm & _).
  { now apply wf_set_all. }
  { intros k Hk. split; [exact Hk |]. unfold a1, d1 in *.
    apply in_keys_set_all. apply in_keys_set_all in Hk.
    destruct Hk as [Hk | Hk]; [left; now apply Hsub | now right]. }
  rewrite Hnorm. cbn [bind]. eexists. reflexivity.
Qed.

(** In exact arithmetic, on a model whose two dictionaries hold the same
    teams, [fit] keeps that property, never raises [KeyError], and returns
    exactly when a goal was scored or the list is empty and a date is
    given. *)
Lemma fit_keeps_consistent_exact :
  forall (self : DixonColesModel) (ms : list match_row) (cd0 : option Z),
    consistent self ->
    fit self ms cd0 <> Raises KeyError /\
    (forall m', fit self ms cd0 = Returns m' -> consistent m') /\
    ((exists m', fit self ms cd0 = Returns m') <->
     (ms = [] /\ cd0 <> None) \/ scored_in ms).
Proof.
  intros self ms cd0 (Hwa & Hwd & Hiff).
  assert (Hsub : forall t, In t (keys (team_attack self)) ->
                           In t (keys (team_defense self))).
  { intros t. apply Hiff. }
  assert (Hret : (ms = [] /\ cd0 <> None) \/ scored_in ms ->
                 exists m', fit self ms cd0 = Returns m').
  { intros [[-> Hd] | Hs].
    - destruct cd0 as [d |]; [| now elim Hd].
      apply (fit_returns_of self [] (Some d) d); auto.
    - assert (Hne : ms <> []).
      { destruct Hs as (m & Hm & _). intros ->. exact Hm. }
      destruct (reference_date_returns ms cd0 (or_introl Hne)) as [cd Hcd].
      apply (fit_returns_of self ms cd0 cd); auto. }
  split; [| split].
  - intros H.
    destruct (goalless_or_scored ms) as [Hg | Hs].
    + destruct ms as [| m ms].
      * destruct cd0 as [d |].
        -- destruct Hret as [m' Hm']; [left; split; [reflexivity | discriminate] |].
           rewrite Hm' in H. discriminate H.
        -- discriminate H.
      * rewrite fit_goalless_raises in H; [discriminate H | discriminate |].
        exact Hg.
    + destruct (Hret (or_intror Hs)) as [m' Hm'].
      rewrite Hm' in H. discriminate H.
  - intros m' Hfit. apply fit_inv in Hfit.
    destruct Hfit as (cd & a1 & d1 & a2 & d2 & _ & Hrate & Hnorm & ->).
    apply rated_inv in Hrate. destruct Hrate as (_ & -> & ->).
    apply normalize_loop_keys in Hnorm. destruct Hnorm as [Ha Hd].
    unfold consistent, wf. cbn [team_attack team_defense].
    rewrite Ha, Hd. split; [| split].
    + now apply wf_set_all.
    + now apply wf_set_all.
    + intros t. rewrite !in_keys_set_all, Hiff. reflexivity.
  - split; [| exact Hret].
    intros [m' Hm'].
    destruct (goalless_or_scored ms) as [Hg | Hs]; [| now right].
    left. destruct ms as [| m ms].
    + split; [reflexivity |]. intros ->. discriminate Hm'.
    + rewrite fit_goalless_raises in Hm'; [discriminate Hm' | discriminate |].
      exact Hg.
Qed.

(** ** Signs of the ratings *)






(* ================================================================== *)
(** * The time-decay weight *)

Lemma time_decay_weight_unit self d cd :
  0 <= xi self -> (d <= cd)%Z -> 0 < time_decay_weight self d cd <= 1.
Proof.
  intros Hxi Hd. split; [apply time_decay_weight_pos |].
  unfold time_decay_weight. rewrite <- exp_0.
  assert (H : 0 <= IZR (cd - d)) by (apply IZR_le; lia).
  destruct (Rle_lt_or_eq_dec _ _ (Rmult_le_pos _ _ Hxi H)) as [Hlt | Heq].
  - left. apply exp_increasing. lra.
  - right. f_equal. lra.
Qed.

Lemma fold_max_ge (l : list Z) : forall a,
  (a <= fold_left Z.max l a)%Z /\
  (forall x, In x l -> (x <= fold_left Z.max l a)%Z) /\
  (fold_left Z.max l a = a \/ In (fold_left Z.max l a) l).
Proof.
  induction l as [| y l IH]; intros a; simpl.
  - split; [lia |]. split; [intros x [] | now left].
  - destruct (IH (Z.max a y)) as (H1 & H2 & H3).
    split; [lia |]. split.
    + intros x [<- | Hx]; [lia | now apply H2].
    + destruct H3 as [H3 | H3].
      * rewrite H3. destruct (Z.max_spec a y) as [[_ ->] | [_ ->]];
          [right; now left | now left].
      * right. now right.
Qed.

(* ================================================================== *)
(** * The statistics loop in closed form *)

Lemma get_adjust {V : Type} k k' (f : V -> V) (d : dict V) :
  get k' (adjust k f d) =
  if String.eqb k k' then option_map f (get k' d) else get k' d.
Proof.
  induction d as [| [k0 v0] d IH]; simpl.
  - now destruct (String.eqb k k').
  - destruct (String.eqb_spec k k0) as [-> | Hne]; simpl.
    + destruct (String.eqb_spec k' k0) as [-> | Hne'].
      * now rewrite String.eqb_refl.
      * destruct (String.eqb_spec k0 k') as [E | _]; [now elim Hne' |].
        reflexivity.
    + destruct (String.eqb_spec k' k0) as [-> | Hne'].
      * destruct (String.eqb_spec k k0) as [E | _]; [now elim Hne |].
        reflexivity.
      * exact IH.
Qed.

Lemma get_init {V : Type} k k' (v : V) (d : dict V) :
  get k' (if contains k d then d else set k v d) =
  match get k' d with
  | Some s => Some s
  | None => if String.eqb k k' then Some v else None
  end.
Proof.
  destruct (contains k d) eqn:Ec.
  - destruct (get k' d) eqn:Eg; [reflexivity |].
    destruct (String.eqb_spec k k') as [-> | _]; [| reflexivity].
    unfold contains in Ec. rewrite Eg in Ec. discriminate Ec.
  - destruct (String.eqb_spec k k') as [-> | Hne].
    + rewrite get_set_eq.
      unfold contains in Ec. destruct (get k' d); [discriminate Ec |].
      reflexivity.
    + rewrite get_set_ne by exact Hne. now destruct (get k' d).
Qed.

Lemma collect_match_get self cd tms d m t :
  get t (snd (collect_match self cd (tms, d) m)) =
  match get t d with
  | Some s => Some (bump self cd t s m)
  | None =>
      if String.eqb (home_team m) t || String.eqb (away_team m) t
      then Some (bump self cd t new_stat m)
      else None
  end.
Proof.
  unfold collect_match. cbv zeta. cbn [snd].
  rewrite !get_adjust, !get_init. unfold bump. cbv zeta.
  destruct (get t d) as [s |];
    destruct (String.eqb (home_team m) t), (String.eqb (away_team m) t);
    reflexivity.
Qed.

Lemma bump_other self cd t s m :
  String.eqb (home_team m) t || String.eqb (away_team m) t = false ->
  bump self cd t s m = s.
Proof.
  intros H. apply orb_false_iff in H. destruct H as [H1 H2].
  unfold bump. cbv zeta. now rewrite H1, H2.
Qed.

Lemma in_match_teams_cons t m ms :
  In t (match_teams (m :: ms)) <->
  String.eqb (home_team m) t || String.eqb (away_team m) t = true
  \/ In t (match_teams ms).
Proof.
  unfold match_teams. cbn [flat_map app In].
  rewrite orb_true_iff, !String.eqb_eq. tauto.
Qed.

Lemma collect_fold_get self cd t ms : forall tms d,
  get t (snd (fold_left (collect_match self cd) ms (tms, d))) =
  match get t d with
  | Some s => Some (fold_left (bump self cd t) ms s)
  | None =>
      if in_dec string_dec t (match_teams ms)
      then Some (fold_left (bump self cd t) ms new_stat)
      else None
  end.
Proof.
  induction ms as [| m ms IH]; intros tms d.
  - cbn [fold_left snd]. destruct (get t d); [reflexivity |].
    destruct (in_dec string_dec t (match_teams [])) as [[] | _].
    reflexivity.
  - cbn [fold_left].
    destruct (collect_match self cd (tms, d) m) as [tms' d'] eqn:E.
    rewrite IH.
    assert (Hstep := collect_match_get self cd tms d m t).
    rewrite E in Hstep. cbn [snd] in Hstep. rewrite Hstep.
    destruct (get t d) as [s |]; [reflexivity |].
    destruct (String.eqb (home_team m) t || String.eqb (away_team m) t)
      eqn:Eb.
    + destruct (in_dec string_dec t (match_teams (m :: ms))) as [_ | Hn];
        [reflexivity |].
      elim Hn. apply in_match_teams_cons. now left.
    + rewrite (bump_other _ _ _ _ _ Eb).
      destruct (in_dec string_dec t (match_teams ms)) as [Hi | Hn];
        destruct (in_dec string_dec t (match_teams (m :: ms)))
          as [Hi' | Hn']; try reflexivity.
      * elim Hn'. apply in_match_teams_cons. now right.
      * apply in_match_teams_cons in Hi'. destruct Hi' as [Hi' | Hi'].
        -- rewrite Hi' in Eb. discriminate Eb.
        -- now elim Hn.
Qed.

Lemma weighted_total_cons self cd f m ms :
  weighted_total self cd f (m :: ms) =
  f m * time_decay_weight self (match_date m) cd
  + weighted_total self cd f ms.
Proof. unfold weighted_total. cbn [map]. apply py_sum_cons. Qed.

Lemma bump_fields self cd t s m :
  goals_scored (bump self cd t s m) =
    goals_scored s
    + scored_by t m * time_decay_weight self (match_date m) cd /\
  goals_conceded (bump self cd t s m) =
    goals_conceded s
    + conceded_by t m * time_decay_weight self (match_date m) cd /\
  weighted_matches (bump self cd t s m) =
    weighted_matches s
    + played_by t m * time_decay_weight self (match_date m) cd.
Proof.
  unfold bump, scored_by, conceded_by, played_by. cbv zeta.
  destruct (String.eqb (home_team m) t), (String.eqb (away_team m) t);
    cbn [add_result goals_scored goals_conceded weighted_matches];
    repeat split; ring.
Qed.

Lemma bump_fold_fields self cd t ms : forall s,
  goals_scored (fold_left (bump self cd t) ms s) =
    goals_scored s + weighted_total self cd (scored_by t) ms /\
  goals_conceded (fold_left (bump self cd t) ms s) =
    goals_conceded s + weighted_total self cd (conceded_by t) ms /\
  weighted_matches (fold_left (bump self cd t) ms s) =
    weighted_matches s + weighted_total self cd (played_by t) ms.
Proof.
  induction ms as [| m ms IH]; intros s; cbn [fold_left].
  - unfold weighted_total. cbn [map]. rewrite py_sum_nil.
    repeat split; ring.
  - destruct (IH (bump self cd t s m)) as (H1 & H2 & H3).
    destruct (bump_fields self cd t s m) as (B1 & B2 & B3).
    rewrite H1, H2, H3, B1, B2, B3, !weighted_total_cons.
    repeat split; ring.
Qed.

Lemma bump_fold_new self cd t ms :
  fold_left (bump self cd t) ms new_stat = team_totals self cd t ms.
Proof.
  destruct (bump_fold_fields self cd t ms new_stat) as (H1 & H2 & H3).
  destruct (fold_left (bump self cd t) ms new_stat) as [a b c].
  cbn [goals_scored goals_conceded weighted_matches new_stat] in *.
  unfold team_totals. f_equal; lra.
Qed.

(** The entry of a team after the first loop of [fit]. *)
Lemma stats_of_get self cd ms t :
  get t (stats_of self cd ms) =
  if in_dec string_dec t (match_teams ms)
  then Some (team_totals self cd t ms)
  else None.
Proof.
  unfold stats_of, collect_stats. rewrite collect_fold_get.
  cbn [get empty]. now rewrite bump_fold_new.
Qed.

Lemma collect_fold_keys_eq self self' cd cd' ms : forall tms tms' d d',
  keys d = keys d' ->
  keys (snd (fold_left (collect_match self cd) ms (tms, d))) =
  keys (snd (fold_left (collect_match self' cd') ms (tms', d'))).
Proof.
  assert (Hinit : forall V k (v : V) (d d' : dict V),
            keys d = keys d' ->
            keys (if contains k d then d else set k v d) =
            keys (if contains k d' then d' else set k v d')).
  { intros V k v d d' Hk.
    destruct (contains k d) eqn:E1; destruct (contains k d') eqn:E2.
    - exact Hk.
    - apply contains_true_iff in E1. apply contains_false_iff in E2.
      rewrite Hk in E1. contradiction.
    - apply contains_false_iff in E1. apply contains_true_iff in E2.
      rewrite Hk in E1. contradiction.
    - apply contains_false_iff in E1. apply contains_false_iff in E2.
      rewrite !keys_set_notin by assumption. now rewrite Hk. }
  induction ms as [| m ms IH]; intros tms tms' d d' Hk; cbn [fold_left].
  - exact Hk.
  - destruct (collect_match self cd (tms, d) m) as [t1 d1] eqn:E1.
    destruct (collect_match self' cd' (tms', d') m) as [t2 d2] eqn:E2.
    apply IH.
    unfold collect_match in E1, E2. cbv zeta in E1, E2.
    injection E1 as _ <-. injection E2 as _ <-.
    rewrite !keys_adjust. now apply Hinit, Hinit.
Qed.

Lemma stats_of_keys_eq self self' cd cd' ms :
  keys (stats_of self cd ms) = keys (stats_of self' cd' ms).
Proof.
  unfold stats_of, collect_stats. now apply collect_fold_keys_eq.
Qed.

Lemma collect_fold_teams self self' cd cd' ms : forall tms d d',
  fst (fold_left (collect_match self cd) ms (tms, d)) =
  fst (fold_left (collect_match self' cd') ms (tms, d')).
Proof.
  induction ms as [| m ms IH]; intros tms d d'; cbn [fold_left].
  - reflexivity.
  - destruct (collect_match self cd (tms, d) m) as [t1 d1] eqn:E1.
    destruct (collect_match self' cd' (tms, d') m) as [t2 d2] eqn:E2.
    unfold collect_match in E1, E2. cbv zeta in E1, E2.
    injection E1 as <- _. injection E2 as <- _. apply IH.
Qed.

(* ================================================================== *)
(** * League totals and the reference date *)

Lemma total_fold_collect self cd (p : team_stat -> R) (sh : R -> R -> R) ms :
  p new_stat = 0 ->
  (forall sc co w v, p (add_result sc co w v) = p v + sh sc co * w) ->
  forall tms d,
  stat_total p (snd (fold_left (collect_match self cd) ms (tms, d))) =
  stat_total p d
  + weighted_total self cd
      (fun m => sh (goals (home_goals m)) (goals (away_goals m))
                + sh (goals (away_goals m)) (goals (home_goals m))) ms.
Proof.
  intros Hp Hadd. induction ms as [| m ms IH]; intros tms d;
    cbn [fold_left].
  - unfold weighted_total. cbn [map snd]. rewrite py_sum_nil. ring.
  - destruct (collect_match self cd (tms, d) m) as [tms' d'] eqn:E.
    rewrite IH, weighted_total_cons.
    pose proof (total_collect_match p self cd tms d m sh Hp Hadd) as Hs.
    rewrite E in Hs. cbn [snd] in Hs. rewrite Hs. ring.
Qed.

Lemma weighted_total_ext self cd f g ms :
  (forall m, f m = g m) ->
  weighted_total self cd f ms = weighted_total self cd g ms.
Proof.
  intros H. unfold weighted_total. f_equal. apply map_ext.
  intros m. now rewrite H.
Qed.

Lemma weighted_total_mul self cd c f ms :
  weighted_total self cd (fun m => c * f m) ms =
  c * weighted_total self cd f ms.
Proof.
  induction ms as [| m ms IH].
  - unfold weighted_total. cbn [map]. rewrite py_sum_nil. ring.
  - rewrite !weighted_total_cons, IH. ring.
Qed.

Lemma stats_of_totals self cd ms :
  stat_total goals_scored (stats_of self cd ms) = weighted_goals self cd ms /\
  stat_total goals_conceded (stats_of self cd ms) =
    weighted_goals self cd ms /\
  stat_total weighted_matches (stats_of self cd ms) =
    2 * weighted_total self cd (fun _ => 1) ms.
Proof.
  unfold stats_of, collect_stats. split; [| split].
  - rewrite (total_fold_collect self cd goals_scored (fun sc _ => sc));
      [| reflexivity | reflexivity].
    unfold stat_total, empty. cbn [values map]. rewrite py_sum_nil.
    unfold weighted_goals, weighted_total. ring.
  - rewrite (total_fold_collect self cd goals_conceded (fun _ co => co));
      [| reflexivity | reflexivity].
    unfold stat_total, empty. cbn [values map]. rewrite py_sum_nil.
    rewrite Rplus_0_l. unfold weighted_goals, weighted_total.
    f_equal. apply map_ext. intros m. ring.
  - rewrite (total_fold_collect self cd weighted_matches (fun _ _ => 1));
      [| reflexivity | intros; cbn [add_result weighted_matches]; ring].
    unfold stat_total, empty. cbn [values map]. rewrite py_sum_nil.
    rewrite Rplus_0_l.
    rewrite (weighted_total_ext _ _ _ (fun m => 2 * 1)) by (intros; ring).
    apply weighted_total_mul.
Qed.

Lemma weighted_total_one_pos self cd ms :
  ms <> [] -> 0 < weighted_total self cd (fun _ => 1) ms.
Proof.
  intros Hne. unfold weighted_total. apply py_sum_all_pos.
  - destruct ms; [contradiction | discriminate].
  - apply Forall_map, Forall_forall. intros m _.
    pose proof (time_decay_weight_pos self (match_date m) cd). lra.
Qed.



Lemma time_decay_weight_shift self d cd cd' :
  time_decay_weight self d cd' =
  exp (- xi self * IZR (cd' - cd)) * time_decay_weight self d cd.
Proof.
  unfold time_decay_weight. rewrite <- exp_plus. f_equal.
  rewrite !minus_IZR. ring.
Qed.

Lemma weighted_total_shift self cd cd' f ms :
  weighted_total self cd' f ms =
  exp (- xi self * IZR (cd' - cd)) * weighted_total self cd f ms.
Proof.
  induction ms as [| m ms IH].
  - unfold weighted_total. cbn [map]. rewrite py_sum_nil. ring.
  - rewrite !weighted_total_cons, IH.
    rewrite (time_decay_weight_shift self (match_date m) cd cd'). ring.
Qed.

Lemma stats_of_shift self cd cd' ms :
  stats_of self cd' ms =
  map_values (scale_stat (exp (- xi self * IZR (cd' - cd))))
    (stats_of self cd ms).
Proof.
  apply same_keys_lookups.
  - apply stats_of_ok.
  - apply stats_of_keys_eq.
  - intros k. rewrite !stats_of_get.
    destruct (in_dec string_dec k (match_teams ms)); [| reflexivity].
    cbn [option_map]. f_equal. unfold team_totals, scale_stat.
    cbn [goals_scored goals_conceded weighted_matches].
    f_equal; apply weighted_total_shift.
Qed.

Lemma py_sum_map_mul {A : Type} (f : A -> R) c (l : list A) :
  py_sum (map (fun x => c * f x) l) = c * py_sum (map f l).
Proof.
  induction l as [| x l IH]; cbn [map].
  - rewrite py_sum_nil. ring.
  - rewrite !py_sum_cons, IH. ring.
Qed.

Lemma league_average_scale c (d : dict team_stat) :
  0 < c ->
  league_average (map_values (scale_stat c) d) = league_average d.
Proof.
  intros Hc. unfold league_average. cbv zeta.
  rewrite values_map_values, !map_map.
  cbn [scale_stat goals_scored weighted_matches].
  rewrite (py_sum_map_mul goals_scored c (values d)).
  rewrite (py_sum_map_mul weighted_matches c (values d)).
  set (G := py_sum (map goals_scored (values d))).
  set (W := py_sum (map weighted_matches (values d))).
  destruct (Rlt_dec 0 (c * W)) as [H1 | H1];
    destruct (Rlt_dec 0 W) as [H2 | H2].
  - field. split; lra.
  - nra.
  - nra.
  - reflexivity.
Qed.

Lemma rate_team_scale L c acc t s :
  0 < c ->
  rate_team L acc (t, scale_stat c s) = rate_team L acc (t, s).
Proof.
  intros Hc. destruct acc as [a d]. unfold rate_team. cbv zeta.
  cbn [scale_stat goals_scored goals_conceded weighted_matches].
  destruct (Rlt_dec 0 (c * weighted_matches s)) as [H1 | H1];
    destruct (Rlt_dec 0 (weighted_matches s)) as [H2 | H2].
  - replace (c * goals_scored s / (c * weighted_matches s))
      with (goals_scored s / weighted_matches s) by (field; split; lra).
    replace (c * goals_conceded s / (c * weighted_matches s))
      with (goals_conceded s / weighted_matches s) by (field; split; lra).
    reflexivity.
  - nra.
  - nra.
  - reflexivity.
Qed.

Lemma rate_loop_scale L c items : forall acc,
  0 < c ->
  for_each (rate_team L) (map_values (scale_stat c) items) acc =
  for_each (rate_team L) items acc.
Proof.
  induction items as [| [t s] items IH]; intros acc Hc.
  - reflexivity.
  - cbn [map_values map for_each fst snd].
    rewrite rate_team_scale by exact Hc.
    destruct (rate_team L acc (t, s)) as [acc' | e]; cbn [bind].
    + now apply IH.
    + reflexivity.
Qed.

Lemma fit_date_shift self ms cd cd' :
  fit self ms (Some cd) = fit self ms (Some cd').
Proof.
  rewrite (fit_with_date self ms (Some cd) cd) by reflexivity.
  rewrite (fit_with_date self ms (Some cd') cd') by reflexivity.
  rewrite (stats_of_shift self cd cd' ms).
  set (c := exp (- xi self * IZR (cd' - cd))).
  assert (Hc : 0 < c) by apply exp_pos.
  rewrite league_average_scale by exact Hc.
  rewrite rate_loop_scale by exact Hc.
  unfold collect_stats.
  rewrite (collect_fold_teams self self cd cd' ms (teams self) empty empty).
  reflexivity.
Qed.

Lemma fit_any_date self ms cd0 cd :
  ms <> [] \/ cd0 <> None -> fit self ms cd0 = fit self ms (Some cd).
Proof.
  intros H. destruct (reference_date_returns ms cd0 H) as [d Hd].
  transitivity (fit self ms (Some d)); [| apply fit_date_shift].
  rewrite (fit_with_date self ms cd0 d Hd).
  now rewrite (fit_with_date self ms (Some d) d).
Qed.

(** X8. Over the reals the result of [fit] does not depend on the
    reference date: a shift of the date multiplies every weight by the same
    factor, which cancels in each rating.  A call with a date returns the
    same model, or raises the same exception, as a call with any other
    date, and on a non-empty list as the call without a date. *)
Theorem fit_reference_date_irrelevant :
  forall (self : DixonColesModel) (ms : list match_row) (cd cd' : Z),
    fit self ms (Some cd) = fit self ms (Some cd') /\
    (ms <> [] -> fit self ms None = fit self ms (Some cd)).
Proof.
  intros self ms cd cd'. split; [apply fit_date_shift |].
  intros Hne. apply fit_any_date. now left.
Qed.

Lemma fit_reference_date_irrelevant_witness :
  fit default_model [match_A_B] None = fit default_model [match_A_B] (Some 0%Z).
Proof.
  apply (fit_reference_date_irrelevant default_model [match_A_B] 0 0).
  discriminate.
Defined.

(* ================================================================== *)
(** * The order of the matches *)

Lemma match_teams_perm ms ms' t :
  Permutation ms ms' -> In t (match_teams ms) -> In t (match_teams ms').
Proof.
  intros HP. unfold match_teams. rewrite !in_flat_map.
  intros (m & Hm & Ht). exists m. split; [| exact Ht].
  now apply (Permutation_in _ HP).
Qed.

Lemma weighted_total_perm self cd f ms ms' :
  Permutation ms ms' ->
  weighted_total self cd f ms = weighted_total self cd f ms'.
Proof.
  intros HP. unfold weighted_total. apply py_sum_perm.
  now apply Permutation_map.
Qed.

Lemma stats_of_perm self cd ms ms' :
  Permutation ms ms' ->
  forall t, get t (stats_of self cd ms) = get t (stats_of self cd ms').
Proof.
  intros HP t. rewrite !stats_of_get.
  destruct (in_dec string_dec t (match_teams ms)) as [H1 | H1];
    destruct (in_dec string_dec t (match_teams ms')) as [H2 | H2].
  - f_equal. unfold team_totals.
    f_equal; now apply weighted_total_perm.
  - elim H2. now apply (match_teams_perm ms ms').
  - elim H1. apply (match_teams_perm ms' ms); [| exact H2].
    now apply Permutation_sym.
  - reflexivity.
Qed.

Lemma league_average_perm (d d' : dict team_stat) :
  Permutation d d' -> league_average d = league_average d'.
Proof.
  intros HP. unfold league_average. cbv zeta.
  assert (H1 : py_sum (map goals_scored (values d)) =
               py_sum (map goals_scored (values d'))).
  { apply py_sum_perm. unfold values. now do 2 apply Permutation_map. }
  assert (H2 : py_sum (map weighted_matches (values d)) =
               py_sum (map weighted_matches (values d'))).
  { apply py_sum_perm. unfold values. now do 2 apply Permutation_map. }
  now rewrite H1, H2.
Qed.

Lemma scored_in_perm ms ms' :
  Permutation ms ms' -> scored_in ms -> scored_in ms'.
Proof.
  intros HP (m & Hm & Hg). exists m. split; [| exact Hg].
  now apply (Permutation_in _ HP).
Qed.

Lemma fit_returns_scored self ms cd0 m' :
  fit self ms cd0 = Returns m' -> ms = [] \/ scored_in ms.
Proof.
  intros Hfit. destruct ms as [| m ms]; [now left |]. right.
  destruct (goalless_or_scored (m :: ms)) as [Hg | Hs]; [| exact Hs].
  rewrite fit_goalless_raises in Hfit; [discriminate Hfit | discriminate |].
  exact Hg.
Qed.

(** X9. [fit] does not depend on the order of the matches: on a model
    whose attack keys are all defense keys, a permutation of the list
    returns as well, and gives every team the same attack and defense
    rating (the insertion order of the teams can differ). *)
Theorem fit_order_independent :
  forall (self : DixonColesModel) (ms ms' : list match_row)
         (cd0 : option Z) (m1 : DixonColesModel),
    wf (team_attack self) ->
    (forall t, In t (keys (team_attack self)) ->
               In t (keys (team_defense self))) ->
    Permutation ms ms' ->
    fit self ms cd0 = Returns m1 ->
    exists m2,
      fit self ms' cd0 = Returns m2 /\
      forall t,
        get t (team_attack m1) = get t (team_attack m2) /\
        get t (team_defense m1) = get t (team_defense m2).
Proof.
  intros self ms ms' cd0 m1 Hwf Hsub HP Hfit.
  destruct ms as [| m0 ms0].
  { apply Permutation_nil in HP. subst ms'. exists m1. now split. }
  set (ms := m0 :: ms0) in *.
  assert (Hne : ms <> []) by discriminate.
  assert (Hne' : ms' <> []).
  { intros ->. apply Permutation_sym, Permutation_nil in HP.
    discriminate HP. }
  rewrite (fit_any_date self ms cd0 0%Z (or_introl Hne)) in Hfit.
  rewrite (fit_any_date self ms' cd0 0%Z (or_introl Hne')).
  assert (Hsc : scored_in ms').
  { destruct (fit_returns_scored _ _ _ _ Hfit) as [E | Hs];
      [now elim Hne | now apply (scored_in_perm ms)]. }
  destruct (fit_returns_of self ms' (Some 0%Z) 0%Z Hwf Hsub eq_refl
              (or_intror Hsc)) as [m2 Hfit2].
  exists m2. split; [exact Hfit2 |].
  destruct (fit_lookups self ms (Some 0%Z) m1 Hwf Hsub Hfit)
    as (cd & Hcd & H1).
  destruct (fit_lookups self ms' (Some 0%Z) m2 Hwf Hsub Hfit2)
    as (cd' & Hcd' & H2).
  cbn in Hcd, Hcd'. injection Hcd as <-. injection Hcd' as <-.
  cbv zeta in H1, H2.
  destruct H1 as (_ & _ & _ & _ & Ha1 & Hd1 & Hn1).
  destruct H2 as (_ & _ & _ & _ & Ha2 & Hd2 & Hn2).
  pose proof (stats_of_ok self 0%Z ms) as [Hw1 _].
  pose proof (stats_of_ok self 0%Z ms') as [Hw2 _].
  pose proof (stats_of_perm self 0%Z ms ms' HP) as Hget.
  assert (HPs : Permutation (stats_of self 0%Z ms) (stats_of self 0%Z ms'))
    by now apply same_lookups_perm.
  rewrite <- (league_average_perm _ _ HPs) in Ha2, Hd2, Hn2.
  set (L := league_average (stats_of self 0%Z ms)) in *.
  set (a1 := set_all (raw_attack L) (stats_of self 0%Z ms)
               (team_attack self)) in *.
  set (a2 := set_all (raw_attack L) (stats_of self 0%Z ms')
               (team_attack self)) in *.
  set (d1 := set_all (raw_defense L) (stats_of self 0%Z ms)
               (team_defense self)) in *.
  set (d2 := set_all (raw_defense L) (stats_of self 0%Z ms')
               (team_defense self)) in *.
  assert (Hga : forall t, get t a1 = get t a2).
  { intros t. unfold a1, a2. rewrite !get_set_all by assumption.
    now rewrite Hget. }
  assert (Hgd : forall t, get t d1 = get t d2).
  { intros t. unfold d1, d2. rewrite !get_set_all by assumption.
    now rewrite Hget. }
  assert (Hmean : mean_attack a1 = mean_attack a2).
  { apply mean_attack_perm, same_lookups_perm; try exact Hga;
      now apply wf_set_all. }
  assert (Hkeys : forall t, In t (keys a1) <-> In t (keys a2)).
  { intros t. unfold a1, a2. rewrite !in_keys_set_all.
    rewrite !stats_of_keys. split; intros [H | H]; auto; right.
    - now apply (match_teams_perm ms ms').
    - apply (match_teams_perm ms' ms); [now apply Permutation_sym | exact H]. }
  intros t. split.
  - now rewrite Ha1, Ha2, Hga, Hmean.
  - destruct (in_dec string_dec t (keys a1)) as [Hi | Hn].
    + rewrite (Hd1 t Hi), (Hd2 t (proj1 (Hkeys t) Hi)).
      now rewrite Hgd, Hmean.
    + rewrite (Hn1 t Hn).
      rewrite (Hn2 t (fun H => Hn (proj2 (Hkeys t) H))).
      apply Hgd.
Qed.

Lemma fit_order_independent_witness :
  exists m2,
    fit default_model [match_C_E; match_C_D] None = Returns m2 /\
    forall t,
      get t (team_attack fitted_C_D_E) = get t (team_attack m2) /\
      get t (team_defense fitted_C_D_E) = get t (team_defense m2).
Proof.
  apply (fit_order_independent default_model [match_C_D; match_C_E]).
  - constructor.
  - intros t [].
  - apply perm_swap.
  - exact fit_C_D_E.
Defined.

(* ================================================================== *)
(** * SimpleDixonColes.fit and DixonColesModel.fit without time decay *)

Lemma simple_collect_match_get d m t :
  get t (Simple.collect_match d m) =
  match get t d with
  | Some s => Some (simple_bump t s m)
  | None =>
      if String.eqb (home_team m) t || String.eqb (away_team m) t
      then Some (simple_bump t Simple.new_stat m)
      else None
  end.
Proof.
  unfold Simple.collect_match. cbv zeta.
  rewrite get_adjust, get_init, get_adjust, get_init.
  unfold simple_bump. cbv zeta.
  destruct (get t d) as [s |];
    destruct (String.eqb (home_team m) t), (String.eqb (away_team m) t);
    reflexivity.
Qed.

Lemma bump_simple self cd t s m :
  xi self = 0 ->
  bump self cd t (stat_of_simple s) m = stat_of_simple (simple_bump t s m).
Proof.
  intros Hxi. unfold bump, simple_bump, time_decay_weight. cbv zeta.
  rewrite Hxi. replace (- 0 * IZR (cd - match_date m)) with 0 by ring.
  rewrite exp_0.
  destruct (String.eqb (home_team m) t), (String.eqb (away_team m) t);
    unfold stat_of_simple, add_result, Simple.add_result, goals;
    cbn [goals_scored goals_conceded weighted_matches
         Simple.goals_scored Simple.goals_conceded Simple.matches];
    rewrite ?plus_IZR; f_equal; ring.
Qed.

Lemma keys_init_eq {V W : Type} k (v : V) (w : W) (d : dict V)
  (d' : dict W) :
  keys d = keys d' ->
  keys (if contains k d then d else set k v d) =
  keys (if contains k d' then d' else set k w d').
Proof.
  intros Hk.
  destruct (contains k d) eqn:E1; destruct (contains k d') eqn:E2.
  - exact Hk.
  - apply contains_true_iff in E1. apply contains_false_iff in E2.
    rewrite Hk in E1. contradiction.
  - apply contains_false_iff in E1. apply contains_true_iff in E2.
    rewrite Hk in E1. contradiction.
  - apply contains_false_iff in E1. apply contains_false_iff in E2.
    rewrite !keys_set_notin by assumption. now rewrite Hk.
Qed.

Lemma simple_fold_related self cd ms : forall tms d sd,
  xi self = 0 ->
  keys d = keys sd ->
  (forall t, get t d = option_map stat_of_simple (get t sd)) ->
  keys (snd (fold_left (collect_match self cd) ms (tms, d))) =
    keys (fold_left Simple.collect_match ms sd) /\
  (forall t,
     get t (snd (fold_left (collect_match self cd) ms (tms, d))) =
     option_map stat_of_simple (get t (fold_left Simple.collect_match ms sd))).
Proof.
  induction ms as [| m ms IH]; intros tms d sd Hxi Hk Hg; cbn [fold_left].
  - now split.
  - destruct (collect_match self cd (tms, d) m) as [tms' d'] eqn:E.
    apply IH; [exact Hxi | |].
    + unfold collect_match in E. cbv zeta in E. injection E as _ <-.
      unfold Simple.collect_match. cbv zeta.
      rewrite !keys_adjust.
      apply keys_init_eq. rewrite keys_adjust. now apply keys_init_eq.
    + intros t.
      pose proof (collect_match_get self cd tms d m t) as Hs.
      rewrite E in Hs. cbn [snd] in Hs.
      rewrite Hs, simple_collect_match_get, Hg.
      destruct (get t sd) as [s |]; cbn [option_map].
      * now rewrite (bump_simple self cd t s m Hxi).
      * destruct (String.eqb (home_team m) t || String.eqb (away_team m) t);
          [| reflexivity].
        cbn [option_map]. f_equal.
        now rewrite <- (bump_simple self cd t Simple.new_stat m Hxi).
Qed.

Lemma simple_stats_of_ok ms : simple_stats_ok (simple_stats_of ms).
Proof. apply simple_collect_ok. split; constructor. Qed.

(** With [xi = 0] the first loop of [DixonColesModel.fit] counts what the
    first loop of [SimpleDixonColes.fit] counts. *)
Lemma stats_of_simple self cd ms :
  xi self = 0 ->
  stats_of self cd ms = map_values stat_of_simple (simple_stats_of ms).
Proof.
  intros Hxi.
  destruct (simple_fold_related self cd ms (teams self) empty empty Hxi
              eq_refl (fun _ => eq_refl)) as [Hk Hg].
  apply same_keys_lookups.
  - apply simple_stats_of_ok.
  - exact Hk.
  - exact Hg.
Qed.

Lemma sum_int_acc l : forall a, fold_left Z.add l a = (a + Simple.sum_int l)%Z.
Proof.
  unfold Simple.sum_int.
  induction l as [| x l IH]; intros a; cbn [fold_left].
  - lia.
  - rewrite IH, (IH (0 + x)%Z). lia.
Qed.

Lemma sum_int_IZR l : IZR (Simple.sum_int l) = py_sum (map IZR l).
Proof.
  induction l as [| x l IH]; cbn [map].
  - reflexivity.
  - rewrite py_sum_cons, <- IH. unfold Simple.sum_int at 1.
    cbn [fold_left]. rewrite sum_int_acc, Z.add_0_l, plus_IZR. ring.
Qed.

Lemma simple_league_average (d : dict Simple.team_stat) :
  Simple.league_average d = league_average (map_values stat_of_simple d).
Proof.
  unfold Simple.league_average, league_average. cbv zeta.
  rewrite values_map_values, !map_map.
  cbn [stat_of_simple goals_scored weighted_matches].
  rewrite <- (map_map Simple.goals_scored IZR).
  rewrite <- (map_map Simple.matches IZR).
  rewrite <- !sum_int_IZR.
  destruct (Z.ltb_spec 0 (Simple.sum_int (map Simple.matches (values d))))
    as [H | H];
    destruct (Rlt_dec 0
                (IZR (Simple.sum_int (map Simple.matches (values d)))))
      as [H' | H'].
  - reflexivity.
  - elim H'. now apply IZR_lt.
  - apply lt_IZR in H'. lia.
  - reflexivity.
Qed.

Lemma simple_rate_team L acc t s :
  Simple.rate_team L acc (t, s) = rate_team L acc (t, stat_of_simple s).
Proof.
  destruct acc as [a d]. unfold Simple.rate_team, rate_team. cbv zeta.
  cbn [stat_of_simple goals_scored goals_conceded weighted_matches].
  destruct (Z.ltb_spec 0 (Simple.matches s)) as [H | H];
    destruct (Rlt_dec 0 (IZR (Simple.matches s))) as [H' | H'].
  - reflexivity.
  - elim H'. now apply IZR_lt.
  - apply lt_IZR in H'. lia.
  - reflexivity.
Qed.

Lemma simple_rate_loop L items : forall acc,
  for_each (Simple.rate_team L) items acc =
  for_each (rate_team L) (map_values stat_of_simple items) acc.
Proof.
  induction items as [| [t s] items IH]; intros acc.
  - reflexivity.
  - cbn [map_values map for_each fst snd].
    rewrite simple_rate_team.
    destruct (rate_team L acc (t, stat_of_simple s)) as [acc' | e];
      cbn [bind]; [apply IH | reflexivity].
Qed.

(** [SimpleDixonColes.fit] is the first two loops of
    [DixonColesModel.fit] run without time decay. *)
Lemma simple_fit_as_main (self : Simple.SimpleDixonColes) model cd ms :
  xi model = 0 ->
  Simple.fit self ms =
  (rated <- for_each (rate_team (league_average (stats_of model cd ms)))
              (stats_of model cd ms)
              (Simple.team_attack self, Simple.team_defense self) ;;
   Returns {| Simple.xi := Simple.xi self;
              Simple.home_advantage := Simple.home_advantage self;
              Simple.team_attack := fst rated;
              Simple.team_defense := snd rated |}).
Proof.
  intros Hxi. unfold Simple.fit. cbv zeta.
  fold (simple_stats_of ms).
  rewrite simple_rate_loop, simple_league_average.
  now rewrite <- (stats_of_simple model cd ms Hxi).
Qed.

Lemma rate_loop_goalless self cd ms a d :
  ms <> [] -> goalless ms ->
  for_each (rate_team (league_average (stats_of self cd ms)))
    (stats_of self cd ms) (a, d) = Raises ZeroDivisionError.
Proof.
  intros Hne Hzero.
  pose proof (stats_of_ok self cd ms) as [_ Hall].
  pose proof (stats_of_nonempty self cd ms Hne) as Hsne.
  assert (HL : league_average (stats_of self cd ms) = 0).
  { destruct (league_average_nonempty self cd ms Hne) as (W & HW & ->).
    rewrite weighted_goals_goalless by exact Hzero. unfold Rdiv. ring. }
  rewrite HL.
  destruct (stats_of self cd ms) as [| e items]; [contradiction |].
  apply rate_loop_zero.
  inversion Hall as [| ? ? He _]; subst. apply He.
Qed.

Lemma simple_fit_returns (self : Simple.SimpleDixonColes) ms :
  ms = [] \/ scored_in ms -> exists m', Simple.fit self ms = Returns m'.
Proof.
  intros Hc.
  rewrite (simple_fit_as_main self (init 0 0 0) 0%Z ms eq_refl).
  rewrite (rate_loop_outcome (init 0 0 0) 0%Z ms _ _ Hc). cbn [bind].
  eexists. reflexivity.
Qed.

(** X10. [SimpleDixonColes.fit] has no reference date and no third loop,
    so it never raises [ValueError] or [KeyError]: on the empty list it
    returns the model unchanged, on a non-empty list without any goal it
    raises [ZeroDivisionError], and in every other case it returns. *)
Theorem simple_fit_outcome :
  forall (self : Simple.SimpleDixonColes) (ms : list match_row),
    (ms = [] -> Simple.fit self ms = Returns self) /\
    (Simple.fit self ms = Raises ZeroDivisionError <->
     ms <> [] /\ goalless ms) /\
    ((exists m', Simple.fit self ms = Returns m') <->
     ms = [] \/ scored_in ms) /\
    Simple.fit self ms <> Raises ValueError /\
    Simple.fit self ms <> Raises KeyError.
Proof.
  intros self ms.
  pose (model := init 0 0 0).
  pose proof (simple_fit_as_main self model 0%Z ms eq_refl) as Heq.
  pose proof (simple_fit_returns self ms) as Hret.
  assert (Hzde : ms <> [] -> goalless ms ->
                 Simple.fit self ms = Raises ZeroDivisionError).
  { intros Hne Hg. rewrite Heq.
    now rewrite (rate_loop_goalless model 0%Z ms _ _ Hne Hg). }
  assert (Hcases : (ms = [] \/ scored_in ms) \/ (ms <> [] /\ goalless ms)).
  { destruct ms as [| m ms0]; [left; now left |].
    destruct (goalless_or_scored (m :: ms0)) as [Hg | Hs].
    - right. split; [discriminate | exact Hg].
    - left. now right. }
  split; [| split; [| split; [| split]]].
  - intros ->. destruct self. reflexivity.
  - split.
    + intros H. destruct Hcases as [Hc | Hc]; [| exact Hc].
      destruct (Hret Hc) as [m' Hm']. rewrite Hm' in H. discriminate H.
    + intros [Hne Hg]. now apply Hzde.
  - split; [| exact Hret].
    intros [m' Hm']. destruct Hcases as [Hc | [Hne Hg]]; [exact Hc |].
    rewrite (Hzde Hne Hg) in Hm'. discriminate Hm'.
  - intros H. destruct Hcases as [Hc | [Hne Hg]].
    + destruct (Hret Hc) as [m' Hm']. rewrite Hm' in H. discriminate H.
    + rewrite (Hzde Hne Hg) in H. discriminate H.
  - intros H. destruct Hcases as [Hc | [Hne Hg]].
    + destruct (Hret Hc) as [m' Hm']. rewrite Hm' in H. discriminate H.
    + rewrite (Hzde Hne Hg) in H. discriminate H.
Qed.

Lemma simple_fit_outcome_witness :
  Simple.fit Simple.default_model [] = Returns Simple.default_model /\
  Simple.fit Simple.default_model [MkMatch "z1" "A" "B" 0 0 0] =
    Raises ZeroDivisionError.
Proof.
  split.
  - now apply (simple_fit_outcome Simple.default_model []).
  - apply (simple_fit_outcome Simple.default_model
             [MkMatch "z1" "A" "B" 0 0 0]).
    split; [discriminate |].
    intros m [<- | []]. now split.
Defined.

(** X11. Without time decay ([xi = 0]) a fresh [DixonColesModel.fit]
    gives the ratings of a fresh [SimpleDixonColes.fit] on the same
    matches, each divided by the mean of the simple attack ratings. *)
Theorem fit_without_decay_is_simple_fit_normalized :
  forall (ha rho0 sxi sha : R) (ms : list match_row) (cd0 : option Z)
         (m' : DixonColesModel) (s' : Simple.SimpleDixonColes),
    fit (init 0 ha rho0) ms cd0 = Returns m' ->
    Simple.fit (Simple.init sxi sha) ms = Returns s' ->
    let avg := mean_attack (Simple.team_attack s') in
    team_attack m' = map_values (fun v => v / avg) (Simple.team_attack s') /\
    team_defense m' = map_values (fun v => v / avg) (Simple.team_defense s').
Proof.
  intros ha rho0 sxi sha ms cd0 m' s' Hfit Hsfit avg.
  destruct (fit_fresh_inv _ _ _ _ _ _ Hfit) as (cd & _ & Hm).
  cbv zeta in Hm. destruct Hm as [_ ->].
  pose proof (simple_fit_fresh_inv _ _ _ _ Hsfit) as Hs.
  cbv zeta in Hs. destruct Hs as [Ha Hd].
  fold (simple_stats_of ms) in Ha, Hd.
  cbn [team_attack team_defense].
  rewrite (stats_of_simple (init 0 ha rho0) cd ms eq_refl).
  rewrite <- simple_league_average.
  set (L := Simple.league_average (simple_stats_of ms)) in *.
  assert (Hraw : map_values (raw_attack L)
                   (map_values stat_of_simple (simple_stats_of ms)) =
                 Simple.team_attack s').
  { rewrite Ha. unfold map_values. rewrite map_map. reflexivity. }
  rewrite Hraw. fold avg. rewrite Ha, Hd. unfold map_values.
  rewrite !map_map. split; reflexivity.
Qed.

Lemma fit_without_decay_is_simple_fit_normalized_witness :
  exists m' s',
    fit (init 0 0.3 (-0.13)) [match_A_B] None = Returns m' /\
    Simple.fit Simple.default_model [match_A_B] = Returns s' /\
    team_attack m' =
      map_values (fun v => v / mean_attack (Simple.team_attack s'))
        (Simple.team_attack s').
Proof.
  assert (Hs : scored_in [match_A_B]).
  { exists match_A_B. split; [now left | unfold match_A_B; simpl; lia]. }
  destruct (fit_returns_of (init 0 0.3 (-0.13)) [match_A_B] None 0%Z)
    as [m' Hm'].
  - constructor.
  - intros t [].
  - reflexivity.
  - now right.
  - destruct (simple_fit_returns Simple.default_model [match_A_B])
      as [s' Hs']; [now right |].
    exists m', s'. split; [exact Hm' |]. split; [exact Hs' |].
    apply (fit_without_decay_is_simple_fit_normalized
             0.3 (-0.13) 0.0065 0.3 [match_A_B] None m' s' Hm' Hs').
Defined.

(* ================================================================== *)
(** * What [fit] leaves alone *)

Lemma in_set_add x y s : In y (set_add x s) <-> y = x \/ In y s.
Proof.
  unfold set_add. destruct (in_dec string_dec x s) as [Hi | Hn].
  - split; [now right | intros [-> | H]; assumption].
  - rewrite in_app_iff. cbn [In]. split.
    + intros [H | [H | []]]; [now right | now left].
    + intros [H | H]; [right; now left | now left].
Qed.

Lemma NoDup_set_add x s : NoDup s -> NoDup (set_add x s).
Proof.
  intros Hs. unfold set_add.
  destruct (in_dec string_dec x s) as [Hi | Hn]; [exact Hs |].
  apply NoDup_app; [exact Hs | repeat constructor; intros [] |].
  intros y Hy [<- | []]. contradiction.
Qed.

Lemma collect_fold_teams_in self cd ms : forall tms d,
  (forall t, In t (fst (fold_left (collect_match self cd) ms (tms, d))) <->
             In t tms \/ In t (match_teams ms)) /\
  (NoDup tms ->
   NoDup (fst (fold_left (collect_match self cd) ms (tms, d)))).
Proof.
  induction ms as [| m ms IH]; intros tms d; cbn [fold_left].
  - unfold match_teams. cbn [fst flat_map In].
    split; [intros t; tauto | auto].
  - destruct (collect_match self cd (tms, d) m) as [tms' d'] eqn:E.
    unfold collect_match in E. cbv zeta in E. injection E as <- _.
    destruct (IH (set_add (away_team m) (set_add (home_team m) tms)) d')
      as [Hin Hnd].
    split.
    + intros t. rewrite Hin, !in_set_add.
      unfold match_teams. cbn [flat_map app In]. fold (match_teams ms).
      split; intros H; intuition (subst; auto).
    + intros Hs. now apply Hnd, NoDup_set_add, NoDup_set_add.
Qed.

(* ================================================================== *)
(** * The ratings of a fresh model in closed form *)




(* ================================================================== *)
(** * The mass of the truncated grid *)

Lemma exp_partial_sum x N :
  0 <= x ->
  sum_f_R0 (fun i => / INR (fact i) * x ^ i) N <= exp x.
Proof.
  intros Hx. unfold exp. destruct (exist_exp x) as [l Hl]. cbn [proj1_sig].
  apply sum_incr.
  - exact Hl.
  - intros n. apply Rmult_le_pos; [| now apply pow_le].
    left. apply Rinv_0_lt_compat, fact_INR_pos.
Qed.

Lemma texp_le_exp x : 0 <= x -> texp x <= exp x.
Proof.
  intros Hx. pose proof (exp_partial_sum x 6 Hx) as H.
  cbn [sum_f_R0] in H. cbn [fact Nat.mul Nat.add] in H. cbn [INR] in H.
  unfold texp. cbn [pow] in *. lra.
Qed.

Lemma texp_lt_exp x : 0 < x -> texp x < exp x.
Proof.
  intros Hx. assert (Hx0 : 0 <= x) by lra.
  pose proof (exp_partial_sum x 7 Hx0) as H.
  cbn [sum_f_R0] in H. cbn [fact Nat.mul Nat.add] in H. cbn [INR] in H.
  assert (H7 : 0 < x ^ 7) by now apply pow_lt.
  unfold texp. cbn [pow] in *. lra.
Qed.

(** In exact arithmetic the total of the three accumulators does not
    depend on [rho], is positive, and for non-negative means is at most 1,
    below 1 as soon as one mean is positive. *)
Lemma score_grid_mass_exact :
  forall (self : DixonColesModel) (lambda_h mu_a : R),
    (forall other : DixonColesModel,
       bucket_total (score_grid other lambda_h mu_a) =
       bucket_total (score_grid self lambda_h mu_a)) /\
    0 < bucket_total (score_grid self lambda_h mu_a) /\
    (0 <= lambda_h -> 0 <= mu_a ->
     bucket_total (score_grid self lambda_h mu_a) <= 1) /\
    (0 <= lambda_h -> 0 <= mu_a -> 0 < lambda_h + mu_a ->
     bucket_total (score_grid self lambda_h mu_a) < 1).
Proof.
  intros self l m.
  assert (Hform : forall s,
            bucket_total (score_grid s l m) =
            (texp l / exp l) * (texp m / exp m)).
  { intros s. rewrite score_grid_total, !exp_Ropp.
    pose proof (exp_pos l). pose proof (exp_pos m). field. lra. }
  pose proof (exp_pos l) as El. pose proof (exp_pos m) as Em.
  pose proof (texp_pos l) as Tl. pose proof (texp_pos m) as Tm.
  assert (Ql : 0 < texp l / exp l) by now apply Rdiv_lt_0_compat.
  assert (Qm : 0 < texp m / exp m) by now apply Rdiv_lt_0_compat.
  assert (Hle : forall x, 0 <= x -> texp x / exp x <= 1).
  { intros x Hx. pose proof (exp_pos x). pose proof (texp_le_exp x Hx).
    apply Rmult_le_reg_r with (exp x); [assumption |].
    unfold Rdiv. rewrite Rmult_assoc, Rinv_l by lra. lra. }
  assert (Hlt : forall x, 0 < x -> texp x / exp x < 1).
  { intros x Hx. pose proof (exp_pos x). pose proof (texp_lt_exp x Hx).
    apply Rmult_lt_reg_r with (exp x); [assumption |].
    unfold Rdiv. rewrite Rmult_assoc, Rinv_l by lra. lra. }
  split; [| split; [| split]].
  - intros other. now rewrite !Hform.
  - rewrite Hform. now apply Rmult_lt_0_compat.
  - intros Hl Hm. rewrite Hform.
    pose proof (Hle l Hl). pose proof (Hle m Hm). nra.
  - intros Hl Hm Hpos. rewrite Hform.
    pose proof (Hle l Hl). pose proof (Hle m Hm).
    destruct (Rlt_dec 0 l) as [Hl' | Hl'].
    + pose proof (Hlt l Hl'). nra.
    + assert (Hm' : 0 < m) by lra. pose proof (Hlt m Hm'). nra.
Qed.

(** X13. With no home advantage [predict] treats the two sides alike:
    exchanging the two teams exchanges the home-win and the away-win
    probability and the two expected goal counts, and leaves the draw
    probability unchanged. *)
Theorem predict_swap_teams :
  forall (self : DixonColesModel) (home away : string) (p q : Prediction),
    home_advantage self = 0 ->
    predict self home away = Returns p ->
    predict self away home = Returns q ->
    home_win_prob q = away_win_prob p /\
    away_win_prob q = home_win_prob p /\
    draw_prob q = draw_prob p /\
    expected_home_goals q = expected_away_goals p /\
    expected_away_goals q = expected_home_goals p.
Proof.
  intros self home away p q Hha Hp Hq.
  rewrite predict_closed in Hp, Hq. cbv zeta in Hp, Hq.
  injection Hp as <-. injection Hq as <-.
  cbn [home_win_prob away_win_prob draw_prob expected_home_goals
       expected_away_goals].
  assert (Hl : lambda_of self away home = mu_of self home away).
  { unfold lambda_of, mu_of. cbv zeta. rewrite Hha. ring. }
  assert (Hm : mu_of self away home = lambda_of self home away).
  { unfold lambda_of, mu_of. cbv zeta. rewrite Hha. ring. }
  rewrite Hl, Hm.
  set (l := lambda_of self home away). set (m := mu_of self home away).
  pose proof (texp_pos l). pose proof (texp_pos m).
  assert (Hsym : forall x y r,
            wsum (home_coeff x r) y = wsum (away_coeff y r) x).
  { intros x y r. unfold wsum, home_coeff, away_coeff. field. }
  repeat split.
  - rewrite Hsym. f_equal. ring.
  - rewrite <- Hsym. f_equal. ring.
  - unfold draw_poly. field. lra.
Qed.

Lemma predict_swap_teams_witness :
  exists p q,
    predict (with_home_advantage fitted_A_B 0) "A" "B" = Returns p /\
    predict (with_home_advantage fitted_A_B 0) "B" "A" = Returns q /\
    home_win_prob q = away_win_prob p.
Proof.
  pose proof (predict_closed (with_home_advantage fitted_A_B 0) "A" "B")
    as Hp.
  pose proof (predict_closed (with_home_advantage fitted_A_B 0) "B" "A")
    as Hq.
  cbv zeta in Hp, Hq.
  eexists. eexists. split; [exact Hp |]. split; [exact Hq |].
  apply (predict_swap_teams (with_home_advantage fitted_A_B 0) "A" "B" _ _
           eq_refl Hp Hq).
Defined.

(* ================================================================== *)
(** * The Brier score *)

Lemma squared_errors_nonneg predicted actual :
  Forall (fun x => 0 <= x) (squared_errors predicted actual).
Proof.
  unfold squared_errors. apply Forall_map, Forall_forall.
  intros [p a] _. cbn [fst snd]. apply pow2_ge_0.
Qed.

Lemma brier_returns_inv predicted r v :
  calculate_brier_score predicted r = Returns v ->
  exists actual,
    (r = "H"%string /\ actual = [1; 0; 0] \/
     r = "D"%string /\ actual = [0; 1; 0] \/
     r = "A"%string /\ actual = [0; 0; 1]) /\
    v = py_sum (squared_errors predicted actual) / 3.
Proof.
  unfold calculate_brier_score.
  destruct (String.eqb_spec r "H") as [-> | HH].
  { cbn [bind]. intros H. injection H as <-. eexists. split; [| reflexivity].
    now left. }
  destruct (String.eqb_spec r "D") as [-> | HD].
  { cbn [bind]. intros H. injection H as <-. eexists. split; [| reflexivity].
    right. now left. }
  destruct (String.eqb_spec r "A") as [-> | HA].
  { cbn [bind]. intros H. injection H as <-. eexists. split; [| reflexivity].
    right. now right. }
  cbn [bind]. discriminate.
Qed.

(** X15. A Brier score is never negative.  For three probabilities that
    sum to 1 it is at most 2/3, and it is 0 exactly when the prediction
    puts probability 1 on the actual result. *)
Theorem calculate_brier_score_range :
  forall (predicted : list R) (r : string) (v : R),
    calculate_brier_score predicted r = Returns v ->
    0 <= v /\
    (forall h d a,
       predicted = [h; d; a] ->
       0 <= h -> 0 <= d -> 0 <= a -> h + d + a = 1 ->
       v <= 2 / 3 /\
       (v = 0 <->
        (r = "H"%string /\ h = 1) \/ (r = "D"%string /\ d = 1) \/
        (r = "A"%string /\ a = 1))).
Proof.
  intros predicted r v Hv.
  destruct (brier_returns_inv predicted r v Hv) as (actual & Hr & ->).
  split.
  - pose proof (py_sum_nonneg _ (squared_errors_nonneg predicted actual)).
    lra.
  - intros h d a -> Hh Hd Ha Hsum.
    destruct Hr as [[-> ->] | [[-> ->] | [-> ->]]];
      unfold squared_errors; cbn [combine map fst snd];
      rewrite !py_sum_cons, py_sum_nil; split.
    + nra.
    + split.
      * intros H0. left. split; [reflexivity | nra].
      * intros [[_ E] | [[E _] | [E _]]]; try discriminate E.
        subst h. assert (d = 0) by lra. assert (a = 0) by lra. subst.
        lra.
    + nra.
    + split.
      * intros H0. right. left. split; [reflexivity | nra].
      * intros [[E _] | [[_ E] | [E _]]]; try discriminate E.
        subst d. assert (h = 0) by lra. assert (a = 0) by lra. subst.
        lra.
    + nra.
    + split.
      * intros H0. right. right. split; [reflexivity | nra].
      * intros [[E _] | [[E _] | [_ E]]]; try discriminate E.
        subst a. assert (h = 0) by lra. assert (d = 0) by lra. subst.
        lra.
Qed.

Lemma calculate_brier_score_range_witness :
  exists v,
    calculate_brier_score [0.5; 0.3; 0.2] "H" = Returns v /\
    0 <= v <= 2 / 3.
Proof.
  eexists. split; [reflexivity |].
  destruct (calculate_brier_score_range [0.5; 0.3; 0.2] "H" _ eq_refl)
    as [H0 H1].
  split; [exact H0 |].
  apply (H1 0.5 0.3 0.2 eq_refl); lra.
Defined.

(** X16. [zip] stops at the shorter sequence and the sum is always divided
    by 3: entries of the prediction after the third are ignored, and a
    prediction with fewer than three entries is scored on the entries it
    has, the empty one scoring 0 like a perfect prediction. *)
Theorem calculate_brier_score_zip :
  forall (r : string),
    r = "H"%string \/ r = "D"%string \/ r = "A"%string ->
    (forall h d a rest,
       calculate_brier_score (h :: d :: a :: rest) r =
       calculate_brier_score [h; d; a] r) /\
    calculate_brier_score [] r = Returns 0 /\
    (forall h, calculate_brier_score [h] "H" = Returns ((h - 1) ^ 2 / 3)).
Proof.
  intros r Hr. split; [| split].
  - intros h d a rest.
    destruct Hr as [-> | [-> | ->]]; unfold calculate_brier_score;
      cbn [String.eqb Ascii.eqb Bool.eqb bind]; unfold squared_errors;
      cbn [combine map]; rewrite combine_nil; reflexivity.
  - destruct Hr as [-> | [-> | ->]]; unfold calculate_brier_score;
      cbn [String.eqb Ascii.eqb Bool.eqb bind]; unfold squared_errors;
      cbn [combine map]; rewrite py_sum_nil; f_equal; lra.
  - intros h. unfold calculate_brier_score.
    cbn [String.eqb Ascii.eqb Bool.eqb bind]. unfold squared_errors.
    cbn [combine map fst snd]. rewrite py_sum_cons, py_sum_nil.
    f_equal. lra.
Qed.

Lemma calculate_brier_score_zip_witness :
  calculate_brier_score [1; 0; 0; 0.7] "H" =
  calculate_brier_score [1; 0; 0] "H" /\
  calculate_brier_score [] "A" = Returns 0.
Proof.
  destruct (calculate_brier_score_zip "H" (or_introl eq_refl))
    as (H1 & _ & _).
  destruct (calculate_brier_score_zip "A" (or_intror (or_intror eq_refl)))
    as (_ & H2 & _).
  split; [apply H1 | exact H2].
Defined.

(** X17. [SimpleDixonColes.calculate_brier] has no error case: it agrees
    with [DixonColesModel.calculate_brier_score] wherever that one returns,
    and scores a result other than 'H' and 'D' as an away win, where the
    full model raises. *)
Theorem simple_calculate_brier_total :
  forall (predicted : list R) (r : string),
    (forall v, calculate_brier_score predicted r = Returns v ->
               Simple.calculate_brier predicted r = v) /\
    (r <> "H"%string -> r <> "D"%string ->
     Simple.calculate_brier predicted r =
     Simple.calculate_brier predicted "A") /\
    0 <= Simple.calculate_brier predicted r.
Proof.
  intros predicted r. unfold calculate_brier_score, Simple.calculate_brier.
  cbv zeta. split; [| split].
  - intros v.
    destruct (String.eqb r "H"); [cbn [bind]; now intros [= <-] |].
    destruct (String.eqb r "D"); [cbn [bind]; now intros [= <-] |].
    destruct (String.eqb r "A"); [cbn [bind]; now intros [= <-] |].
    cbn [bind]. discriminate.
  - intros HH HD.
    destruct (String.eqb_spec r "H") as [E | _]; [contradiction |].
    destruct (String.eqb_spec r "D") as [E | _]; [contradiction |].
    reflexivity.
  - set (actual := if String.eqb r "H" then [1; 0; 0]
                   else if String.eqb r "D" then [0; 1; 0] else [0; 0; 1]).
    pose proof (py_sum_nonneg _ (squared_errors_nonneg predicted actual)).
    lra.
Qed.

Lemma simple_calculate_brier_total_witness :
  Simple.calculate_brier [1; 0; 0] "home" =
  Simple.calculate_brier [1; 0; 0] "A".
Proof.
  apply (simple_calculate_brier_total [1; 0; 0] "home"); discriminate.
Defined.

(* ================================================================== *)
(** * main: the split, the evaluation loop and the summary *)

Lemma actual_result_cases hg ag :
  (actual_result hg ag = "H"%string /\ (ag < hg)%nat) \/
  (actual_result hg ag = "A"%string /\ (hg < ag)%nat) \/
  (actual_result hg ag = "D"%string /\ hg = ag).
Proof.
  unfold actual_result.
  destruct (Nat.ltb_spec ag hg) as [H | H]; [now left |].
  destruct (Nat.ltb_spec hg ag) as [H' | H']; [right; now left |].
  right. right. split; [reflexivity | lia].
Qed.

Lemma evaluate_match_returns model preds scores m :
  exists p s,
    evaluate_match model (preds, scores) m =
      Returns (preds ++ [(fixture_id m, p)], scores ++ [s]) /\
    evaluated model m (fixture_id m, p, s).
Proof.
  unfold evaluate_match.
  pose proof (predict_closed model (home_team m) (away_team m)) as Hp.
  cbv zeta in Hp. rewrite Hp. cbn [bind].
  match type of Hp with _ = Returns ?q => set (p := q) in * end.
  assert (Hb : exists s,
            calculate_brier_score
              [home_win_prob p; draw_prob p; away_win_prob p]
              (actual_result (home_goals m) (away_goals m)) = Returns s).
  { destruct (actual_result_cases (home_goals m) (away_goals m))
      as [[-> _] | [[-> _] | [-> _]]]; eexists; reflexivity. }
  destruct Hb as [s Hs]. rewrite Hs. cbn [bind].
  exists p, s. split; [reflexivity |].
  unfold evaluated. repeat split; try assumption.
  destruct (brier_returns_inv _ _ _ Hs) as (actual & _ & ->).
  pose proof (py_sum_nonneg _ (squared_errors_nonneg
    [home_win_prob p; draw_prob p; away_win_prob p] actual)).
  lra.
Qed.

Lemma evaluate_loop model tests : forall preds scores,
  length preds = length scores ->
  exists preds' scores',
    for_each (evaluate_match model) tests (preds, scores) =
      Returns (preds ++ preds', scores ++ scores') /\
    length preds' = length scores' /\
    Forall2 (evaluated model) tests (combine preds' scores').
Proof.
  induction tests as [| m tests IH]; intros preds scores Hlen.
  - exists [], []. rewrite !app_nil_r. repeat split. constructor.
  - destruct (evaluate_match_returns model preds scores m)
      as (p & s & Hstep & Hev).
    cbn [for_each]. rewrite Hstep. cbn [bind].
    destruct (IH (preds ++ [(fixture_id m, p)]) (scores ++ [s]))
      as (preds' & scores' & Hloop & Hlen' & Hall).
    { rewrite !length_app. cbn [length]. lia. }
    exists ((fixture_id m, p) :: preds'), (s :: scores').
    rewrite Hloop, <- !app_assoc. cbn [app].
    split; [reflexivity |]. split; [cbn [length]; lia |].
    cbn [combine]. now constructor.
Qed.

Lemma evaluate_inv model tests :
  exists preds scores,
    evaluate model tests = Returns (preds, scores) /\
    length preds = length scores /\
    Forall2 (evaluated model) tests (combine preds scores).
Proof.
  destruct (evaluate_loop model tests [] [] eq_refl)
    as (preds & scores & H & Hlen & Hall).
  exists preds, scores. now repeat split.
Qed.

Lemma evaluated_lengths model tests preds scores :
  length preds = length scores ->
  Forall2 (evaluated model) tests (combine preds scores) ->
  length preds = length tests /\ length scores = length tests /\
  map fst preds = map fixture_id tests /\
  Forall (fun s => 0 <= s) scores.
Proof.
  revert preds scores.
  induction tests as [| m tests IH]; intros preds scores Hlen Hall.
  - inversion Hall as [E |]. destruct preds, scores; try discriminate.
    repeat split; constructor.
  - inversion Hall as [| ? ps ? rest Hm Hrest E1 E2]; subst.
    destruct preds as [| [fid p] preds], scores as [| s scores];
      try discriminate.
    cbn [combine] in E2. injection E2 as -> ->.
    cbn [length] in Hlen. injection Hlen as Hlen.
    destruct (IH preds scores Hlen Hrest) as (H1 & H2 & H3 & H4).
    destruct Hm as (Hf & _ & _ & Hs).
    cbn [length map fst]. repeat split; try lia.
    + now rewrite Hf, H3.
    + now constructor.
Qed.


Lemma list_bounds_mean (l : list R) a b :
  l <> [] ->
  Forall (fun y => a <= y <= b) l ->
  a <= np_mean l <= b.
Proof.
  intros Hne Hall.
  assert (Hsum : INR (length l) * a <= py_sum l <= INR (length l) * b).
  { clear Hne. induction Hall as [| y l Hy _ IH].
    - rewrite py_sum_nil. cbn [length INR]. lra.
    - rewrite py_sum_cons. change (length (y :: l)) with (S (length l)).
      rewrite S_INR. lra. }
  assert (Hn : 0 < INR (length l)).
  { apply lt_0_INR. destruct l; [contradiction | cbn [length]; lia]. }
  unfold np_mean. split.
  - apply Rmult_le_reg_r with (INR (length l)); [exact Hn |].
    unfold Rdiv. rewrite Rmult_assoc, Rinv_l by lra. lra.
  - apply Rmult_le_reg_r with (INR (length l)); [exact Hn |].
    unfold Rdiv. rewrite Rmult_assoc, Rinv_l by lra. lra.
Qed.

Lemma fold_Rmin_le l : forall x,
  fold_left Rmin l x <= x /\
  Forall (fun y => fold_left Rmin l x <= y) l /\
  (fold_left Rmin l x = x \/ In (fold_left Rmin l x) l).
Proof.
  induction l as [| y l IH]; intros x; cbn [fold_left].
  - split; [lra |]. split; [constructor | now left].
  - destruct (IH (Rmin x y)) as (H1 & H2 & H3).
    pose proof (Rmin_l x y). pose proof (Rmin_r x y).
    split; [lra |]. split.
    + constructor; [lra | exact H2].
    + destruct H3 as [H3 | H3]; [| right; now right].
      rewrite H3. unfold Rmin. destruct (Rle_dec x y);
        [now left | right; now left].
Qed.

Lemma fold_Rmax_ge l : forall x,
  x <= fold_left Rmax l x /\
  Forall (fun y => y <= fold_left Rmax l x) l /\
  (fold_left Rmax l x = x \/ In (fold_left Rmax l x) l).
Proof.
  induction l as [| y l IH]; intros x; cbn [fold_left].
  - split; [lra |]. split; [constructor | now left].
  - destruct (IH (Rmax x y)) as (H1 & H2 & H3).
    pose proof (Rmax_l x y). pose proof (Rmax_r x y).
    split; [lra |]. split.
    + constructor; [lra | exact H2].
    + destruct H3 as [H3 | H3]; [| right; now right].
      rewrite H3. unfold Rmax. destruct (Rle_dec x y);
        [right; now left | now left].
Qed.

(** X19. The summary of [main]: the minimum, the mean and the maximum of
    the Brier scores of an evaluation are ordered and not negative, the
    minimum and the maximum are scores of the list, and all three are 0
    when there is no test match. *)
Theorem brier_summary :
  forall (model : DixonColesModel) (test_matches : list match_row)
         (predictions : list (string * Prediction)) (brier_scores : list R),
    evaluate model test_matches = Returns (predictions, brier_scores) ->
    0 <= min_brier brier_scores /\
    min_brier brier_scores <= avg_brier brier_scores /\
    avg_brier brier_scores <= max_brier brier_scores /\
    (test_matches <> [] ->
     In (min_brier brier_scores) brier_scores /\
     In (max_brier brier_scores) brier_scores) /\
    (test_matches = [] ->
     min_brier brier_scores = 0 /\ avg_brier brier_scores = 0 /\
     max_brier brier_scores = 0).
Proof.
  intros model tests preds scores Hev.
  destruct (evaluate_inv model tests) as (preds' & scores' & H & Hlen & Hall).
  rewrite Hev in H. injection H as <- <-.
  destruct (evaluated_lengths model tests preds scores Hlen Hall)
    as (_ & Hl & _ & Hnn).
  destruct scores as [| x rest].
  - cbn [min_brier avg_brier max_brier].
    split; [lra |]. split; [lra |]. split; [lra |]. split.
    + intros Hne. destruct tests; [contradiction | discriminate Hl].
    + intros _. now repeat split.
  - cbn [min_brier avg_brier max_brier].
    destruct (fold_Rmin_le rest x) as (A1 & A2 & A3).
    destruct (fold_Rmax_ge rest x) as (B1 & B2 & B3).
    set (lo := fold_left Rmin rest x) in *.
    set (hi := fold_left Rmax rest x) in *.
    assert (Hin_lo : In lo (x :: rest)).
    { destruct A3 as [-> | A3]; [now left | now right]. }
    assert (Hin_hi : In hi (x :: rest)).
    { destruct B3 as [-> | B3]; [now left | now right]. }
    assert (Hbounds : Forall (fun y => lo <= y <= hi) (x :: rest)).
    { constructor; [lra |].
      rewrite Forall_forall in A2, B2. apply Forall_forall.
      intros y Hy. split; [now apply A2 | now apply B2]. }
    destruct (list_bounds_mean (x :: rest) lo hi) as [M1 M2];
      [discriminate | exact Hbounds |].
    rewrite Forall_forall in Hnn.
    split; [now apply Hnn |]. split; [exact M1 |]. split; [exact M2 |].
    split; [intros _; now split |].
    intros ->. discriminate Hl.
Qed.

Lemma brier_summary_witness :
  exists predictions brier_scores,
    evaluate fitted_A_B [match_A_B] = Returns (predictions, brier_scores) /\
    0 <= min_brier brier_scores <= avg_brier brier_scores.
Proof.
  destruct (evaluate_inv fitted_A_B [match_A_B])
    as (preds & scores & H & _).
  exists preds, scores. split; [exact H |].
  destruct (brier_summary fitted_A_B [match_A_B] preds scores H)
    as (H1 & H2 & _).
  now split.
Defined.

Lemma sorted_app_le (l1 l2 : list match_row) :
  newest_first (l1 ++ l2) ->
  forall a b, In a l1 -> In b l2 -> (match_date b <= match_date a)%Z.
Proof.
  unfold newest_first. induction l1 as [| x l1 IH]; intros Hs a b Ha Hb.
  - destruct Ha.
  - cbn [app] in Hs. apply StronglySorted_inv in Hs. destruct Hs as [Hs Hx].
    destruct Ha as [<- | Ha].
    + rewrite Forall_forall in Hx. apply Hx. apply in_or_app. now right.
    + now apply IH.
Qed.

Lemma newest_first_max m rest :
  newest_first (m :: rest) ->
  fold_left Z.max (map match_date rest) (match_date m) = match_date m.
Proof.
  unfold newest_first. intros Hs. apply StronglySorted_inv in Hs.
  destruct Hs as [_ Hx].
  destruct (fold_max_ge (map match_date rest) (match_date m))
    as (H1 & H2 & [H3 | H3]); [exact H3 |].
  apply in_map_iff in H3. destruct H3 as (y & Hy & Hin).
  rewrite Forall_forall in Hx. specialize (Hx y Hin). lia.
Qed.

Lemma split_idx_bounds (matches : list match_row) :
  (100 <= length matches)%nat ->
  (80 <= split_idx matches)%nat /\
  (split_idx matches + 20 <= length matches)%nat.
Proof.
  intros H. unfold split_idx.
  assert (80 <= length matches * 4 / 5)%nat
    by (apply Nat.div_le_lower_bound; lia).
  assert (5 * (length matches * 4 / 5) <= length matches * 4)%nat
    by (apply Nat.Div0.mul_div_le).
  lia.
Qed.

(** X20. The split of [main]: the first 80% of the rows are the training
    set and the rest is the test set, so with the 100 rows that
    [get_training_data] lets through at least 80 matches train the model
    and at least 20 test it.  As the query returns the newest match first,
    no test match is later than a training match, and [fit], called
    without a date, takes the date of the first row as its reference. *)
Theorem main_split :
  forall (fetched matches : list match_row),
    get_training_data fetched = Some matches ->
    let train_matches := firstn (split_idx matches) matches in
    let test_matches := skipn (split_idx matches) matches in
    train_matches ++ test_matches = matches /\
    (80 <= length train_matches)%nat /\
    (20 <= length test_matches)%nat /\
    length train_matches = split_idx matches /\
    (newest_first matches ->
     (forall a b, In a train_matches -> In b test_matches ->
                  (match_date b <= match_date a)%Z) /\
     (forall m rest, matches = m :: rest ->
        reference_date train_matches None = Returns (match_date m))).
Proof.
  intros fetched matches Hget train test.
  unfold get_training_data in Hget.
  destruct (Nat.ltb_spec (length fetched) 100) as [H | H];
    [discriminate Hget |].
  injection Hget as <-.
  destruct (split_idx_bounds fetched H) as [H80 H20].
  assert (Happ : train ++ test = fetched) by apply firstn_skipn.
  assert (Hlt : length train = split_idx fetched).
  { unfold train. rewrite length_firstn. lia. }
  split; [exact Happ |]. split; [lia |]. split.
  { unfold test. rewrite length_skipn. lia. }
  split; [exact Hlt |].
  intros Hs. split.
  - apply sorted_app_le. now rewrite Happ.
  - intros m rest E.
    assert (Htrain : exists rest', train = m :: rest').
    { destruct (split_idx fetched) as [| k] eqn:Ek; [lia |].
      exists (firstn k rest). unfold train. rewrite E. reflexivity. }
    destruct Htrain as [rest' Ht]. rewrite Ht.
    unfold reference_date, max_match_date. f_equal.
    apply newest_first_max.
    assert (Hst : newest_first (train ++ test)) by now rewrite Happ.
    rewrite Ht in Hst. unfold newest_first in *.
    cbn [app] in Hst. apply StronglySorted_inv in Hst.
    destruct Hst as [Hrest Hall].
    constructor.
    + clear - Hrest. induction rest' as [| y l IH]; [constructor |].
      cbn [app] in Hrest. apply StronglySorted_inv in Hrest.
      destruct Hrest as [Hl Hy]. constructor; [now apply IH |].
      rewrite Forall_forall in *. intros z Hz. apply Hy.
      apply in_or_app. now left.
    + rewrite Forall_forall in *. intros z Hz. apply Hall.
      apply in_or_app. now left.
Qed.

Lemma dated_seq_newest_first n : forall a,
  newest_first
    (map (fun d => MkMatch "f" "A" "B" 1 0 (Z.of_nat (100 - d))) (seq a n)).
Proof.
  unfold newest_first.
  induction n as [| n IH]; intros a; cbn [seq map]; constructor.
  - apply IH.
  - apply Forall_forall. intros b Hb. apply in_map_iff in Hb.
    destruct Hb as (d & <- & Hd). apply in_seq in Hd.
    cbn [match_date]. lia.
Qed.

Lemma main_split_witness :
  (80 <= length (firstn (split_idx hundred_matches) hundred_matches))%nat /\
  (20 <= length (skipn (split_idx hundred_matches) hundred_matches))%nat /\
  reference_date (firstn (split_idx hundred_matches) hundred_matches) None =
    Returns 100%Z.
Proof.
  destruct (main_split hundred_matches hundred_matches eq_refl)
    as (_ & H1 & H2 & _ & H3).
  split; [exact H1 |]. split; [exact H2 |].
  destruct (H3 (dated_seq_newest_first 100 0)) as [_ H4].
  apply (H4 (MkMatch "f" "A" "B" 1 0 100) _ eq_refl).
Defined.


Lemma hundred_matches_scored :
  scored_in (firstn (split_idx hundred_matches) hundred_matches).
Proof.
  exists (MkMatch "f" "A" "B" 1 0 100). split; [now left | simpl; lia].
Qed.


(* ================================================================== *)
(** * store_predictions *)

Section StoreFacts.
Variable database : Type.
Variable execute : database -> feature_row -> database * bool.

Lemma store_prediction_step db n p :
  store_prediction database execute (db, n) p =
  (fst (execute db (row_of p)),
   if snd (execute db (row_of p)) then S n else n).
Proof.
  unfold store_prediction. now destruct (execute db (row_of p)).
Qed.

Lemma store_loop_count predictions : forall db n,
  (n <= snd (fold_left (store_prediction database execute) predictions
               (db, n)) <= n + length predictions)%nat.
Proof.
  induction predictions as [| p ps IH]; intros db n; cbn [fold_left].
  - cbn [snd length]. lia.
  - rewrite store_prediction_step.
    destruct (execute db (row_of p)) as [db' ok]. cbn [fst snd].
    specialize (IH db' (if ok then S n else n)).
    cbn [length]. destruct ok; lia.
Qed.

Lemma store_loop_filter (ok : feature_row -> bool) predictions :
  (forall db row, snd (execute db row) = ok row) ->
  forall db n,
  snd (fold_left (store_prediction database execute) predictions (db, n)) =
  (n + length (filter ok (map row_of predictions)))%nat.
Proof.
  intros Hok. induction predictions as [| p ps IH]; intros db n;
    cbn [fold_left map filter].
  - cbn [snd length]. lia.
  - rewrite store_prediction_step, Hok, IH.
    destruct (ok (row_of p)); cbn [length]; lia.
Qed.

End StoreFacts.

(** X22. [store_predictions] never raises, whatever [cursor.execute] does:
    a failing row is skipped and the loop goes on, so the count it returns
    is at most the number of predictions, and when the failure of a row
    depends on the row alone it is the number of rows that can be written.
    The home advantage written with a prediction of [predict] is always
    0.3, the default of the lookup, whatever the home advantage of the
    model: the prediction dictionary has no such key. *)
Theorem store_predictions_count :
  forall (database : Type)
         (execute : database -> feature_row -> database * bool)
         (db : database) (predictions : list (string * Prediction)),
    (snd (store_predictions database execute db predictions)
     <= length predictions)%nat /\
    (forall ok : feature_row -> bool,
       (forall db' row, snd (execute db' row) = ok row) ->
       snd (store_predictions database execute db predictions) =
       length (filter ok (map row_of predictions))) /\
    (forall (model : DixonColesModel) (home away fid : string) p,
       predict model home away = Returns p ->
       dc_home_advantage (row_of (fid, p)) = 0.3 /\
       dc_home_prob (row_of (fid, p)) = home_win_prob p /\
       row_fixture_id (row_of (fid, p)) = fid).
Proof.
  intros database execute db predictions. unfold store_predictions.
  split; [| split].
  - pose proof (store_loop_count database execute predictions db 0). lia.
  - intros ok Hok.
    now rewrite (store_loop_filter database execute ok predictions Hok).
  - intros model home away fid p _. now repeat split.
Qed.

Lemma store_predictions_count_witness :
  snd (store_predictions (list feature_row) (execute_except "f2") []
         [("f1"%string, MkPrediction 1 0 0 1 1 1 1 1 1 0 0);
          ("f2"%string, MkPrediction 1 0 0 1 1 1 1 1 1 0 0);
          ("f3"%string, MkPrediction 1 0 0 1 1 1 1 1 1 0 0)]) = 2%nat.
Proof.
  destruct (store_predictions_count (list feature_row) (execute_except "f2")
              []
              [("f1"%string, MkPrediction 1 0 0 1 1 1 1 1 1 0 0);
               ("f2"%string, MkPrediction 1 0 0 1 1 1 1 1 1 0 0);
               ("f3"%string, MkPrediction 1 0 0 1 1 1 1 1 1 0 0)])
    as (_ & H & _).
  rewrite (H (fun row => negb (String.eqb (row_fixture_id row) "f2"))).
  - reflexivity.
  - intros db' row. unfold execute_except.
    now destruct (String.eqb (row_fixture_id row) "f2").
Defined.

(* ================================================================== *)
(** * The normalisation SimpleDixonColes.fit does have *)

Lemma combine_map_same {A B C : Type} (f : A -> B) (g : A -> C) l :
  combine (map f l) (map g l) = map (fun x => (f x, g x)) l.
Proof.
  induction l as [| x l IH]; cbn [map combine]; [reflexivity |].
  now rewrite IH.
Qed.

Lemma py_sum_map_ext_in {A : Type} (f g : A -> R) l :
  (forall x, In x l -> f x = g x) -> py_sum (map f l) = py_sum (map g l).
Proof.
  intros H. f_equal. now apply map_ext_in.
Qed.

Lemma simple_fit_scored self ms m' :
  ms <> [] -> Simple.fit self ms = Returns m' -> scored_in ms.
Proof.
  intros Hne Hfit.
  destruct (goalless_or_scored ms) as [Hg | Hs]; [| exact Hs].
  rewrite (simple_fit_as_main self (init 0 0 0) 0%Z ms eq_refl) in Hfit.
  rewrite (rate_loop_goalless (init 0 0 0) 0%Z ms _ _ Hne Hg) in Hfit.
  discriminate Hfit.
Qed.

(** X25. [SimpleDixonColes.fit] does not divide by the mean attack, but
    its ratings are normalised all the same, weighted by the matches
    played: after a fit on a fresh model and a non-empty list, the sum over
    the teams of matches played times attack rating equals the sum of the
    matches played, and so does the sum of matches played times defense
    rating. *)
Theorem simple_fit_weighted_mean_one :
  forall (sxi sha : R) (ms : list match_row)
         (s' : Simple.SimpleDixonColes),
    ms <> [] ->
    Simple.fit (Simple.init sxi sha) ms = Returns s' ->
    let played :=
      map (fun s => IZR (Simple.matches s)) (values (simple_stats_of ms)) in
    0 < py_sum played /\
    py_sum (map (fun p => fst p * snd p)
              (combine played (values (Simple.team_attack s')))) =
      py_sum played /\
    py_sum (map (fun p => fst p * snd p)
              (combine played (values (Simple.team_defense s')))) =
      py_sum played.
Proof.
  intros sxi sha ms s' Hne Hfit played.
  pose proof (simple_fit_scored _ _ _ Hne Hfit) as Hs.
  pose proof (simple_fit_fresh_inv _ _ _ _ Hfit) as Hinv.
  cbv zeta in Hinv. fold (simple_stats_of ms) in Hinv.
  destruct Hinv as [Ha Hd].
  set (model := init 0 0 0).
  pose proof (stats_of_simple model 0%Z ms eq_refl) as Hst.
  destruct (stats_of_totals model 0%Z ms) as (HG & HC & HW).
  pose proof (weighted_goals_pos model 0%Z ms Hs) as HGpos.
  pose proof (weighted_total_one_pos model 0%Z ms Hne) as HWpos.
  destruct (simple_stats_of_ok ms) as [_ Hall].
  unfold stat_total in HG, HC, HW. rewrite Hst in HG, HC, HW.
  rewrite values_map_values, !map_map in HG, HC, HW.
  cbn [stat_of_simple goals_scored goals_conceded weighted_matches]
    in HG, HC, HW.
  set (stats := simple_stats_of ms) in *.
  assert (Hp : 0 < py_sum played) by (unfold played; rewrite HW; lra).
  assert (HL : Simple.league_average stats =
               weighted_goals model 0 ms / py_sum played).
  { rewrite simple_league_average. unfold league_average. cbv zeta.
    rewrite values_map_values, !map_map.
    cbn [stat_of_simple goals_scored weighted_matches].
    rewrite HG. fold played.
    destruct (Rlt_dec 0 (py_sum played)); [reflexivity | contradiction]. }
  set (L := Simple.league_average stats) in *.
  assert (HLne : L <> 0).
  { rewrite HL. apply Rgt_not_eq. now apply Rdiv_lt_0_compat. }
  assert (Hsum : forall (num : Simple.team_stat -> Z) (f : Simple.team_stat -> R),
            (forall s, f s = IZR (num s) / IZR (Simple.matches s) / L) ->
            py_sum (map (fun s => IZR (num s)) (values stats)) =
              weighted_goals model 0 ms ->
            py_sum (map (fun p => fst p * snd p)
                      (combine played (map f (values stats)))) =
            py_sum played).
  { intros num f Hf Hnum. unfold played at 1.
    rewrite combine_map_same, map_map. cbn [fst snd].
    rewrite (py_sum_map_ext_in _ (fun s => IZR (num s) / L)).
    - rewrite <- (map_map (fun s => IZR (num s)) (fun v => v / L)).
      rewrite py_sum_map_div, Hnum, HL. field. split; lra.
    - intros s Hin. rewrite Hf.
      assert (Hm : (0 < Simple.matches s)%Z).
      { unfold values in Hin. apply in_map_iff in Hin.
        destruct Hin as (e & <- & He).
        rewrite Forall_forall in Hall. now apply Hall. }
      apply IZR_lt in Hm. field. split; lra. }
  split; [exact Hp |]. split.
  - rewrite Ha, values_map_values.
    apply (Hsum Simple.goals_scored); [reflexivity | exact HG].
  - rewrite Hd, values_map_values.
    apply (Hsum Simple.goals_conceded); [reflexivity | exact HC].
Qed.

Lemma simple_fit_weighted_mean_one_witness :
  exists s',
    Simple.fit Simple.default_model unbalanced_matches = Returns s' /\
    py_sum (map (fun p => fst p * snd p)
              (combine
                 (map (fun s => IZR (Simple.matches s))
                    (values (simple_stats_of unbalanced_matches)))
                 (values (Simple.team_attack s')))) =
    py_sum (map (fun s => IZR (Simple.matches s))
              (values (simple_stats_of unbalanced_matches))).
Proof.
  destruct (simple_fit_returns Simple.default_model unbalanced_matches)
    as [s' Hs'].
  { right. exists (MkMatch "h1" "A" "B" 1 0 0).
    split; [now left | simpl; lia]. }
  exists s'. split; [exact Hs' |].
  apply (simple_fit_weighted_mean_one 0.0065 0.3 unbalanced_matches s');
    [discriminate | exact Hs'].
Defined.

(* ================================================================== *)
(** * SimpleDixonColes.predict *)




(* ================================================================== *)
(** * main of the simplified script *)

Lemma simple_predict_returns self home away :
  exists p, Simple.predict self home away = Returns p.
Proof.
  unfold Simple.predict. cbv zeta.
  destruct (normalize _) as [[h d] a]. eexists. reflexivity.
Qed.

Lemma simple_brier_strict predicted hg ag :
  calculate_brier_score predicted (actual_result hg ag) =
  Returns (Simple.calculate_brier predicted (actual_result hg ag)).
Proof.
  destruct (actual_result_cases hg ag) as [[-> _] | [[-> _] | [-> _]]];
    reflexivity.
Qed.

Lemma simple_evaluate_loop model tests : forall preds scores,
  exists preds',
    for_each (simple_evaluate_match model) tests (preds, scores) =
      Returns (preds ++ preds', scores ++ map simple_brier_score preds') /\
    Forall2 (simple_evaluated model) tests preds'.
Proof.
  induction tests as [| m tests IH]; intros preds scores.
  - exists []. cbn [map]. rewrite !app_nil_r. split; [reflexivity |].
    constructor.
  - cbn [for_each]. unfold simple_evaluate_match at 1.
    destruct (simple_predict_returns model (home_team m) (away_team m))
      as [p Hp].
    rewrite Hp. cbn [bind].
    match goal with
    | |- context [for_each _ tests (preds ++ [?r], _)] => set (row := r)
    end.
    destruct (IH (preds ++ [row]) (scores ++ [simple_brier_score row]))
      as (preds' & Hloop & Hall).
    exists (row :: preds').
    change (Simple.calculate_brier
              [Simple.home_win_prob p; Simple.draw_prob p;
               Simple.away_win_prob p]
              (actual_result (home_goals m) (away_goals m)))
      with (simple_brier_score row).
    rewrite Hloop, <- !app_assoc. cbn [app map].
    split; [reflexivity |]. constructor; [| exact Hall].
    split; [reflexivity |]. exists p. split; [exact Hp |].
    repeat split. apply simple_brier_strict.
Qed.

(** X27. The simplified [main], from the fetched rows to the mean Brier
    score: with 100 rows or more it raises [ZeroDivisionError] out of
    [fit] when no goal was scored in the training set; otherwise it scores
    every test match, the mean is taken over a non-empty list (at least 20
    scores), and each score is the one the strict [calculate_brier_score]
    of the full model returns, the lenient branch of [calculate_brier]
    being reached with 'A' only. *)
Theorem simple_main_evaluate_outcome :
  forall fetched : list match_row,
    (100 <= length fetched)%nat ->
    let train_matches := firstn (split_idx fetched) fetched in
    let test_matches := skipn (split_idx fetched) fetched in
    (goalless train_matches ->
     simple_main_evaluate fetched = Some (Raises ZeroDivisionError)) /\
    (scored_in train_matches ->
     exists model predictions avg_brier,
       Simple.fit Simple.default_model train_matches = Returns model /\
       simple_main_evaluate fetched =
         Some (Returns (predictions, map simple_brier_score predictions,
                        Some avg_brier)) /\
       (20 <= length predictions)%nat /\
       avg_brier = np_mean (map simple_brier_score predictions) /\
       Forall2 (simple_evaluated model) test_matches predictions).
Proof.
  intros fetched Hge train test.
  assert (Hmain : simple_main_evaluate fetched =
            Some (model <- Simple.fit Simple.default_model train ;;
                  evaluated <- for_each (simple_evaluate_match model) test
                                 ([], []) ;;
                  let avg_brier :=
                    match snd evaluated with
                    | [] => None
                    | _ :: _ => Some (np_mean (snd evaluated))
                    end in
                  Returns (fst evaluated, snd evaluated, avg_brier))).
  { unfold simple_main_evaluate, get_training_data.
    assert (E : (length fetched <? 100)%nat = false) by now apply Nat.ltb_ge.
    rewrite E. destruct fetched; [cbn [length] in Hge; lia |].
    reflexivity. }
  destruct (split_idx_bounds fetched Hge) as [H80 H20].
  assert (Hne : train <> []).
  { intros E. apply (f_equal (@length _)) in E. unfold train in E.
    rewrite length_firstn in E. cbn [length] in E. lia. }
  split.
  - intros Hg. rewrite Hmain.
    rewrite (simple_fit_as_main Simple.default_model (init 0 0 0) 0%Z train
               eq_refl).
    now rewrite (rate_loop_goalless (init 0 0 0) 0%Z train _ _ Hne Hg).
  - intros Hs.
    destruct (simple_fit_returns Simple.default_model train
                (or_intror Hs)) as [model Hfit].
    destruct (simple_evaluate_loop model test [] [])
      as (preds & Hloop & Hall).
    cbn [app] in Hloop.
    assert (Hlen : length preds = length test).
    { symmetry. eapply Forall2_length. exact Hall. }
    assert (H20' : (20 <= length preds)%nat).
    { rewrite Hlen. unfold test. rewrite length_skipn. lia. }
    exists model, preds, (np_mean (map simple_brier_score preds)).
    split; [exact Hfit |]. split; [| now repeat split].
    rewrite Hmain, Hfit. cbn [bind]. rewrite Hloop. cbn [bind fst snd].
    destruct preds as [| row preds]; [cbn [length] in H20'; lia |].
    reflexivity.
Qed.

Lemma simple_main_evaluate_outcome_witness :
  exists predictions avg_brier,
    simple_main_evaluate hundred_matches =
      Some (Returns (predictions, map simple_brier_score predictions,
                     Some avg_brier)) /\
    (20 <= length predictions)%nat.
Proof.
  destruct (simple_main_evaluate_outcome hundred_matches) as [_ H].
  - unfold hundred_matches. rewrite length_map, length_seq. lia.
  - destruct (H hundred_matches_scored)
      as (model & preds & avg & _ & Hm & Hl & _).
    exists preds, avg. split; [exact Hm | exact Hl].
Defined.


(* ================================================================== *)
(** * The float reading: range lemmas *)

Lemma math_exp_in_range x :
  Float.exp_underflow <= x <= Float.exp_overflow ->
  Float.math_exp x = Returns (exp x).
Proof.
  intros [H1 H2]. unfold Float.math_exp.
  destruct (Rlt_dec Float.exp_overflow x) as [H | _]; [lra |].
  destruct (Rlt_dec x Float.exp_underflow) as [H | _]; [lra |].
  reflexivity.
Qed.

Lemma math_exp_underflow x :
  x < Float.exp_underflow -> Float.math_exp x = Returns 0.
Proof.
  intros H. unfold Float.math_exp.
  destruct (Rlt_dec Float.exp_overflow x) as [H' | _].
  - unfold Float.exp_overflow, Float.exp_underflow in *. lra.
  - destruct (Rlt_dec x Float.exp_underflow) as [_ | N];
      [reflexivity | contradiction].
Qed.

Lemma math_exp_overflow x :
  Float.exp_overflow < x -> Float.math_exp x = Raises OverflowError.
Proof.
  intros H. unfold Float.math_exp.
  destruct (Rlt_dec Float.exp_overflow x) as [_ | N];
    [reflexivity | contradiction].
Qed.

Lemma math_exp_cases x :
  (Float.exp_overflow < x /\ Float.math_exp x = Raises OverflowError) \/
  (x < Float.exp_underflow /\ Float.math_exp x = Returns 0) \/
  (Float.exp_underflow <= x <= Float.exp_overflow /\
   Float.math_exp x = Returns (exp x)).
Proof.
  destruct (Rlt_dec Float.exp_overflow x) as [H | H].
  - left. split; [exact H | now apply math_exp_overflow].
  - destruct (Rlt_dec x Float.exp_underflow) as [H' | H'].
    + right. left. split; [exact H' | now apply math_exp_underflow].
    + right. right. assert (Hr : Float.exp_underflow <= x <= Float.exp_overflow)
        by lra.
      split; [exact Hr | now apply math_exp_in_range].
Qed.

Lemma math_exp_returns x a :
  Float.math_exp x = Returns a ->
  0 <= a /\ (0 < a <-> Float.exp_underflow <= x).
Proof.
  intros H.
  destruct (math_exp_cases x) as [[_ E] | [[Hx E] | [Hx E]]];
    rewrite E in H; [discriminate H | |]; injection H as <-.
  - split; [lra |]. split; intros; lra.
  - pose proof (exp_pos x). split; [lra |]. split; intros; lra.
Qed.

Lemma math_exp_raises x e :
  Float.math_exp x = Raises e -> e = OverflowError.
Proof.
  intros H.
  destruct (math_exp_cases x) as [[_ E] | [[_ E] | [_ E]]];
    rewrite E in H; [now injection H as <- | discriminate H | discriminate H].
Qed.

Lemma float_pow_raises x k e :
  Float.float_pow x k = Raises e -> e = OverflowError.
Proof.
  unfold Float.float_pow.
  destruct (Rlt_dec Float.float_max (Rabs (x ^ k)));
    [now intros [= <-] | discriminate].
Qed.

Lemma pow_10_300_IZR : 10 ^ 300 = IZR (10 ^ 300).
Proof. rewrite pow_IZR. f_equal. Qed.

Lemma float_max_IZR : Float.float_max = IZR ((2 ^ 53 - 1) * 2 ^ 971).
Proof.
  unfold Float.float_max. rewrite mult_IZR, minus_IZR, !pow_IZR. reflexivity.
Qed.

Lemma float_max_big : 10 ^ 300 <= Float.float_max.
Proof.
  rewrite pow_10_300_IZR, float_max_IZR. apply IZR_le.
  vm_compute. discriminate.
Qed.

Lemma float_pow_in_range x k :
  Rabs x <= 10 ^ 50 -> (k <= 6)%nat ->
  Float.float_pow x k = Returns (x ^ k).
Proof.
  intros Hx Hk. unfold Float.float_pow.
  destruct (Rlt_dec Float.float_max (Rabs (x ^ k))) as [H | _];
    [| reflexivity].
  exfalso. rewrite <- RPow_abs in H.
  assert (H1 : Rabs x ^ k <= (10 ^ 50) ^ k).
  { apply pow_incr. split; [apply Rabs_pos | exact Hx]. }
  assert (H2 : (10 ^ 50) ^ k <= (10 ^ 50) ^ 6).
  { apply Rle_pow; [| exact Hk]. apply pow_R1_Rle. lra. }
  assert (H3 : (10 ^ 50) ^ 6 = 10 ^ 300) by (rewrite <- pow_mult; reflexivity).
  pose proof float_max_big. lra.
Qed.


(* ================================================================== *)
(** * The float reading of [fit] *)

Lemma for_each_returns {A S : Type} (body : S -> A -> pyresult S)
  (f : S -> A -> S) (l : list A) :
  (forall s x, In x l -> body s x = Returns (f s x)) ->
  forall s, for_each body l s = Returns (fold_left f l s).
Proof.
  induction l as [| x l IH]; intros H s; cbn [for_each fold_left].
  - reflexivity.
  - rewrite H by now left. cbn [bind]. apply IH.
    intros s' y Hy. apply H. now right.
Qed.

Lemma float_collect_match_weight self cd acc m :
  Float.collect_match self cd acc m =
  (weight <- Float.time_decay_weight self (match_date m) cd ;;
   Returns (collect_with weight acc m)).
Proof. destruct acc as [tms st]. reflexivity. Qed.

Lemma collect_match_with self cd acc m :
  collect_match self cd acc m =
  collect_with (time_decay_weight self (match_date m) cd) acc m.
Proof. destruct acc as [tms st]. reflexivity. Qed.

Lemma float_weight_exact self d cd :
  0 <= xi self * IZR (cd - d) <= 700 ->
  Float.time_decay_weight self d cd = Returns (time_decay_weight self d cd).
Proof.
  intros H. unfold Float.time_decay_weight, time_decay_weight. cbv zeta.
  apply math_exp_in_range.
  unfold Float.exp_underflow, Float.exp_overflow. lra.
Qed.

Lemma float_collect_exact self cd ms :
  weights_in_range self cd ms ->
  forall acc,
    for_each (Float.collect_match self cd) ms acc =
    Returns (fold_left (collect_match self cd) ms acc).
Proof.
  intros Hr. apply for_each_returns. intros acc m Hm.
  rewrite float_collect_match_weight, collect_match_with.
  now rewrite (float_weight_exact self (match_date m) cd (Hr m Hm)).
Qed.

(** Inside the range the float reading of [fit] is the exact one. *)
Lemma float_fit_exact self ms cd0 cd :
  reference_date ms cd0 = Returns cd ->
  weights_in_range self cd ms ->
  Float.fit self ms cd0 = fit self ms cd0.
Proof.
  intros Hcd Hr. unfold Float.fit, fit.
  change (match cd0 with
          | Some d => Returns d
          | None => max_match_date ms
          end) with (reference_date ms cd0).
  rewrite Hcd. cbn [bind].
  rewrite (float_collect_exact self cd ms Hr). cbn [bind].
  unfold collect_stats. reflexivity.
Qed.

Lemma float_fit_no_date self :
  Float.fit self [] None = Raises ValueError.
Proof. reflexivity. Qed.

Lemma weights_in_range_nil self cd : weights_in_range self cd [].
Proof. intros m []. Qed.

(** The first loop in general: it raises [OverflowError] only, and when
    it returns the statistics have one entry for every team of the
    matches and [self.teams] has gained these teams. *)
Lemma float_collect_raises self cd ms : forall acc e,
  for_each (Float.collect_match self cd) ms acc = Raises e ->
  e = OverflowError.
Proof.
  induction ms as [| m ms IH]; intros acc e H; cbn [for_each] in H.
  - discriminate H.
  - rewrite float_collect_match_weight in H.
    destruct (Float.time_decay_weight self (match_date m) cd) as [w | e']
      eqn:Ew; cbn [bind] in H.
    + now apply IH in H.
    + injection H as <-. unfold Float.time_decay_weight in Ew.
      now apply math_exp_raises in Ew.
Qed.

Lemma collect_with_inv w tms d m tms' d' :
  collect_with w (tms, d) m = (tms', d') ->
  tms' = set_add (away_team m) (set_add (home_team m) tms) /\
  (wf d -> wf d') /\
  (forall t, In t (keys d') <->
             In t (keys d) \/ t = home_team m \/ t = away_team m).
Proof.
  unfold collect_with. cbv zeta. intros H. injection H as <- <-.
  split; [reflexivity |]. split.
  - intros Hwf. apply wf_adjust, wf_adjust.
    destruct (contains (away_team m) _); [| apply wf_set];
      (destruct (contains (home_team m) d); [| apply wf_set]); exact Hwf.
  - intros t. rewrite !keys_adjust.
    assert (Hinit : forall k (d0 : dict team_stat),
              In t (keys (if contains k d0 then d0
                          else set k new_stat d0)) <->
              In t (keys d0) \/ t = k).
    { intros k d0. destruct (contains k d0) eqn:E.
      - apply contains_true_iff in E. split; [now left |].
        intros [H | ->]; assumption.
      - rewrite in_keys_set. tauto. }
    rewrite !Hinit. tauto.
Qed.

Lemma float_collect_inv self cd ms : forall tms d tms' d',
  for_each (Float.collect_match self cd) ms (tms, d) = Returns (tms', d') ->
  (wf d -> wf d') /\
  (forall t, In t (keys d') <-> In t (keys d) \/ In t (match_teams ms)) /\
  (forall t, In t tms' <-> In t tms \/ In t (match_teams ms)) /\
  (NoDup tms -> NoDup tms').
Proof.
  induction ms as [| m ms IH]; intros tms d tms' d' H; cbn [for_each] in H.
  - injection H as <- <-. unfold match_teams. cbn [flat_map In].
    repeat split; auto; tauto.
  - rewrite float_collect_match_weight in H.
    destruct (Float.time_decay_weight self (match_date m) cd) as [w | e];
      cbn [bind] in H; [| discriminate H].
    destruct (collect_with w (tms, d) m) as [tms1 d1] eqn:E.
    destruct (collect_with_inv _ _ _ _ _ _ E) as (-> & Hwf1 & Hk1).
    destruct (IH _ _ _ _ H) as (Hwf & Hk & Ht & Hnd).
    split; [auto |]. split; [| split].
    + intros t. rewrite Hk, Hk1.
      unfold match_teams. cbn [flat_map app In]. fold (match_teams ms).
      split; intros H0; intuition (subst; auto).
    + intros t. rewrite Ht, !in_set_add.
      unfold match_teams. cbn [flat_map app In]. fold (match_teams ms).
      split; intros H0; intuition (subst; auto).
    + intros Hn. now apply Hnd, NoDup_set_add, NoDup_set_add.
Qed.

(** The second loop in general: a team is rated in both dictionaries or
    in none. *)
Lemma rate_loop_inv L items : forall a d a1 d1,
  for_each (rate_team L) items (a, d) = Returns (a1, d1) ->
  (wf a -> wf a1) /\ (wf d -> wf d1) /\
  (forall t, In t (keys a1) -> In t (keys a) \/ In t (keys items)) /\
  (forall t, In t (keys a) -> In t (keys a1)) /\
  ((forall t, In t (keys a) <-> In t (keys d)) ->
   forall t, In t (keys a1) <-> In t (keys d1)).
Proof.
  induction items as [| [k s] items IH]; intros a d a1 d1 H;
    cbn [for_each] in H.
  - injection H as <- <-.
    split; [auto |]. split; [auto |]. split; [intros t Ht; now left |].
    split; [auto |]. intros Hc. exact Hc.
  - unfold rate_team at 1 in H.
    destruct (Rlt_dec 0 (weighted_matches s)) as [Hw | Hw].
    + cbv zeta in H.
      destruct (py_div (goals_scored s / weighted_matches s) L)
        as [att | e]; cbn [bind] in H; [| discriminate H].
      destruct (py_div (goals_conceded s / weighted_matches s) L)
        as [def | e]; cbn [bind] in H; [| discriminate H].
      destruct (IH _ _ _ _ H) as (H1 & H2 & H3 & H4 & H5).
      split; [intros Hwf; now apply H1, wf_set |].
      split; [intros Hwf; now apply H2, wf_set |].
      split; [| split].
      * intros t Ht. apply H3 in Ht. rewrite in_keys_set in Ht.
        unfold keys in *. cbn [map fst In].
        destruct Ht as [[-> | Ht] | Ht]; auto.
      * intros t Ht. apply H4. rewrite in_keys_set. now right.
      * intros Hc. apply H5. intros t. rewrite !in_keys_set, Hc. tauto.
    + cbn [bind] in H. destruct (IH _ _ _ _ H) as (H1 & H2 & H3 & H4 & H5).
      split; [exact H1 |]. split; [exact H2 |]. split; [| split].
      * intros t Ht. apply H3 in Ht.
        unfold keys in *. cbn [map fst In]. tauto.
      * exact H4.
      * exact H5.
Qed.

Lemma float_fit_inv self ms cd0 m' :
  Float.fit self ms cd0 = Returns m' ->
  exists cd tms stats a1 d1 a2 d2,
    reference_date ms cd0 = Returns cd /\
    for_each (Float.collect_match self cd) ms (teams self, empty) =
      Returns (tms, stats) /\
    for_each (rate_team (league_average stats)) stats
      (team_attack self, team_defense self) = Returns (a1, d1) /\
    for_each (normalize_team (mean_attack a1)) (keys a1) (a1, d1) =
      Returns (a2, d2) /\
    m' = {| xi := xi self; home_advantage := home_advantage self;
            rho := rho self; team_attack := a2; team_defense := d2;
            teams := tms |}.
Proof.
  unfold Float.fit.
  change (match cd0 with
          | Some d => Returns d
          | None => max_match_date ms
          end) with (reference_date ms cd0).
  intros H. apply bind_returns in H. destruct H as (cd & Hcd & H).
  apply bind_returns in H. destruct H as ([tms stats] & Hcol & H).
  cbv zeta in H.
  apply bind_returns in H. destruct H as ([a1 d1] & Hrate & H).
  cbn [fst] in H.
  apply bind_returns in H. destruct H as ([a2 d2] & Hnorm & H).
  injection H as <-.
  exists cd, tms, stats, a1, d1, a2, d2. now repeat split.
Qed.


(* ================================================================== *)
(** * The float reading of [predict] *)

Lemma score_cell_returns self l m i j b a c :
  Float.math_exp (- l) = Returns a ->
  Float.math_exp (- m) = Returns c ->
  Float.float_pow l i = Returns (l ^ i) ->
  Float.float_pow m j = Returns (m ^ j) ->
  Float.score_cell self l m i b j =
  Returns (add_score i j
             ((a * l ^ i / INR (fact i)) * (c * m ^ j / INR (fact j))
              * tau_correction self i j l m) b).
Proof.
  intros Ha Hc Hl Hm. unfold Float.score_cell.
  rewrite Ha, Hl, Hc, Hm. reflexivity.
Qed.

Lemma score_cell_raises self l m i j b e :
  Float.score_cell self l m i b j = Raises e -> e = OverflowError.
Proof.
  unfold Float.score_cell. intros H.
  destruct (Float.math_exp (- l)) as [a |] eqn:E1; cbn [bind] in H.
  2:{ injection H as <-. now apply math_exp_raises in E1. }
  destruct (Float.float_pow l i) as [p |] eqn:E2; cbn [bind] in H.
  2:{ injection H as <-. now apply float_pow_raises in E2. }
  destruct (Float.math_exp (- m)) as [c |] eqn:E3; cbn [bind] in H.
  2:{ injection H as <-. now apply math_exp_raises in E3. }
  destruct (Float.float_pow m j) as [q |] eqn:E4; cbn [bind] in H.
  2:{ injection H as <-. now apply float_pow_raises in E4. }
  discriminate H.
Qed.

Lemma for_each_raises {A S : Type} (body : S -> A -> pyresult S)
  (P : exn -> Prop) (l : list A) :
  (forall s x e, body s x = Raises e -> P e) ->
  forall s e, for_each body l s = Raises e -> P e.
Proof.
  intros Hb. induction l as [| x l IH]; intros s e H; cbn [for_each] in H.
  - discriminate H.
  - destruct (body s x) as [s' | e'] eqn:E; cbn [bind] in H.
    + now apply IH in H.
    + injection H as <-. now apply Hb in E.
Qed.

Lemma float_score_grid_raises self l m e :
  Float.score_grid self l m = Raises e -> e = OverflowError.
Proof.
  unfold Float.score_grid.
  apply (for_each_raises _ (fun e => e = OverflowError)).
  intros b i e'.
  apply (for_each_raises _ (fun e => e = OverflowError)).
  intros b' j e''. apply score_cell_raises.
Qed.

Lemma float_predict_raises self home away e :
  Float.predict self home away = Raises e -> e = OverflowError.
Proof.
  unfold Float.predict. cbv zeta. intros H.
  destruct (Float.score_grid self _ _) as [b | e'] eqn:E; cbn [bind] in H.
  - unfold predict_finish in H. destruct (normalize b) as [[h d] a].
    discriminate H.
  - injection H as <-. now apply float_score_grid_raises in E.
Qed.

(** The grid when the two exponentials have returned and no power
    overflows. *)
Lemma float_score_grid_with self l m a c :
  Float.math_exp (- l) = Returns a ->
  Float.math_exp (- m) = Returns c ->
  Rabs l <= 10 ^ 50 -> Rabs m <= 10 ^ 50 ->
  Float.score_grid self l m = Returns (grid_with a c self l m).
Proof.
  intros Ha Hc Hl Hm. unfold Float.score_grid.
  rewrite (for_each_returns _
    (fun b i =>
       fold_left
         (fun b j =>
            add_score i j
              ((a * l ^ i / INR (fact i)) * (c * m ^ j / INR (fact j))
               * tau_correction self i j l m) b)
         (seq 0 (max_goals + 1)) b)).
  - f_equal.
    unfold grid_with, tau_correction, add_score, wsum, home_coeff,
      away_coeff, draw_poly, max_goals.
    cbn -[exp pow INR]. cbn [fact Nat.mul Nat.add]. cbn [INR].
    f_equal; [f_equal |]; field.
  - intros b i Hi. apply in_seq in Hi.
    apply for_each_returns. intros b' j Hj. apply in_seq in Hj.
    unfold max_goals in *.
    apply score_cell_returns; try assumption;
      apply float_pow_in_range; try assumption; lia.
Qed.

Lemma grid_with_exact self l m :
  grid_with (exp (- l)) (exp (- m)) self l m = score_grid self l m.
Proof. now rewrite score_grid_closed. Qed.

Lemma grid_with_total a c self l m :
  bucket_total (grid_with a c self l m) = a * c * (texp l * texp m).
Proof.
  unfold grid_with, bucket_total.
  rewrite <- (grid_poly_total l m (rho self)). ring.
Qed.

Lemma pow_10_50_big : 700 <= 10 ^ 50.
Proof.
  replace (10 ^ 50) with (10 ^ 3 * 10 ^ 47) by (rewrite <- pow_add; reflexivity).
  assert (1 <= 10 ^ 47) by (apply pow_R1_Rle; lra).
  nra.
Qed.

Lemma Rabs_le_bounds x a : Rabs x <= a -> - a <= x <= a.
Proof. unfold Rabs. destruct (Rcase_abs x); lra. Qed.

Lemma float_score_grid_exact self l m :
  Rabs l <= 700 -> Rabs m <= 700 ->
  Float.score_grid self l m = Returns (score_grid self l m).
Proof.
  intros Hl Hm. rewrite <- grid_with_exact.
  pose proof pow_10_50_big.
  assert (Hl' := Hl). assert (Hm' := Hm).
  apply Rabs_le_bounds in Hl'. apply Rabs_le_bounds in Hm'.
  apply float_score_grid_with; try lra;
    apply math_exp_in_range;
    unfold Float.exp_underflow, Float.exp_overflow; lra.
Qed.

(** Inside the range the float reading of [predict] is the exact one. *)
Lemma float_predict_exact self home away :
  Rabs (lambda_of self home away) <= 700 ->
  Rabs (mu_of self home away) <= 700 ->
  Float.predict self home away = predict self home away.
Proof.
  intros Hl Hm. unfold Float.predict, predict. cbv zeta.
  fold (lambda_of self home away). fold (mu_of self home away).
  now rewrite (float_score_grid_exact self _ _ Hl Hm).
Qed.

Lemma means_in_range_abs l m :
  means_in_range l m -> Rabs l <= 700 /\ Rabs m <= 700.
Proof.
  intros (Hl & Hm & Hs). split; apply Rabs_le; lra.
Qed.


(* ================================================================== *)
(** * The float reading on concrete inputs *)

Lemma float_weight_ancient :
  Float.time_decay_weight default_model 0 118000 = Returns 0.
Proof.
  unfold Float.time_decay_weight. cbv zeta. apply math_exp_underflow.
  unfold default_model, init, Float.exp_underflow. cbn [xi].
  replace (118000 - 0)%Z with 118000%Z by reflexivity. lra.
Qed.

Lemma float_weight_same_day self d :
  Float.time_decay_weight self d d = Returns 1.
Proof.
  unfold Float.time_decay_weight. cbv zeta.
  rewrite Z.sub_diag, Rmult_0_r.
  rewrite math_exp_in_range.
  - now rewrite exp_0.
  - unfold Float.exp_underflow, Float.exp_overflow. lra.
Qed.

Lemma float_collect_ancient fid hg :
  for_each (Float.collect_match default_model 118000)
    [MkMatch "a1" "A" "B" 1 0 0; MkMatch fid "C" "D" hg 0 118000]
    ([], empty) =
  Returns (["A"%string; "B"%string; "C"%string; "D"%string],
           [("A"%string, MkStat 0 0 0); ("B"%string, MkStat 0 0 0);
            ("C"%string, MkStat (goals hg) 0 1);
            ("D"%string, MkStat 0 (goals hg) 1)]).
Proof.
  cbn [for_each]. rewrite float_collect_match_weight. cbn [match_date].
  rewrite float_weight_ancient. cbn [bind].
  rewrite float_collect_match_weight. cbn [match_date].
  rewrite float_weight_same_day. cbn [bind].
  unfold collect_with, add_result, new_stat.
  cbn -[IZR goals]. change (goals 0) with 0. change (goals 1) with 1.
  struct_eq; try reflexivity; ring.
Qed.

Lemma league_ancient :
  league_average
    [("A"%string, MkStat 0 0 0); ("B"%string, MkStat 0 0 0);
     ("C"%string, MkStat 1 0 1); ("D"%string, MkStat 0 1 1)]
  = 1 / 2.
Proof. eval_league. field. Qed.

Lemma league_ancient_goal :
  league_average
    [("A"%string, MkStat 0 0 0); ("B"%string, MkStat 0 0 0);
     ("C"%string, MkStat 0 0 1); ("D"%string, MkStat 0 0 1)]
  = 0.
Proof. eval_league. field. Qed.

Lemma float_fit_ancient :
  Float.fit default_model ancient_matches None = Returns fitted_ancient.
Proof.
  unfold Float.fit, ancient_matches.
  cbn [max_match_date map match_date fold_left bind].
  replace (Z.max 0 118000) with 118000%Z by reflexivity.
  unfold default_model, init.
  cbn [teams team_attack team_defense xi home_advantage rho].
  fold (init 0.0065 0.3 (-0.13)). fold default_model.
  rewrite (float_collect_ancient "a2" 1). cbn [bind].
  change (goals 1) with 1.
  rewrite league_ancient.
  cbn [for_each]. unfold rate_team.
  cbn [weighted_matches goals_scored goals_conceded].
  destruct (Rlt_dec 0 0) as [H | _]; [lra |].
  destruct (Rlt_dec 0 1) as [_ | H]; [| lra].
  cbn [bind].
  rewrite !py_div_returns by lra. cbn [bind].
  rewrite ?py_div_returns by lra. cbn [bind].
  unfold mean_attack, np_mean, py_sum, fitted_ancient, normalize_team,
    getitem.
  cbn -[IZR]. struct_eq; field.
Qed.

Lemma float_fit_ancient_goal :
  Float.fit default_model ancient_goal_matches None =
  Raises ZeroDivisionError.
Proof.
  unfold Float.fit, ancient_goal_matches.
  cbn [max_match_date map match_date fold_left bind].
  replace (Z.max 0 118000) with 118000%Z by reflexivity.
  unfold default_model, init.
  cbn [teams team_attack team_defense xi home_advantage rho].
  fold (init 0.0065 0.3 (-0.13)). fold default_model.
  rewrite (float_collect_ancient "a3" 0). cbn [bind].
  change (goals 0) with 0.
  rewrite league_ancient_goal.
  cbn [for_each]. unfold rate_team.
  cbn [weighted_matches goals_scored goals_conceded].
  destruct (Rlt_dec 0 0) as [H | _]; [lra |].
  destruct (Rlt_dec 0 1) as [_ | H]; [| lra].
  cbn [bind]. unfold py_div.
  destruct (Req_dec_T 0 0) as [_ | H]; [reflexivity | now elim H].
Qed.


Lemma float_pow_returns x k :
  Rabs (x ^ k) <= Float.float_max -> Float.float_pow x k = Returns (x ^ k).
Proof.
  intros H. unfold Float.float_pow.
  destruct (Rlt_dec Float.float_max (Rabs (x ^ k))); [lra | reflexivity].
Qed.

Lemma float_pow_overflow x k :
  Float.float_max < Rabs (x ^ k) ->
  Float.float_pow x k = Raises OverflowError.
Proof.
  intros H. unfold Float.float_pow.
  destruct (Rlt_dec Float.float_max (Rabs (x ^ k)));
    [reflexivity | contradiction].
Qed.

Lemma float_max_pos : 1 <= Float.float_max.
Proof.
  pose proof float_max_big. assert (1 <= 10 ^ 300) by (apply pow_R1_Rle; lra).
  lra.
Qed.

(** [predict] when the two exponentials have returned and no power
    overflows. *)
Lemma float_predict_with self home away a c :
  Float.math_exp (- lambda_of self home away) = Returns a ->
  Float.math_exp (- mu_of self home away) = Returns c ->
  Rabs (lambda_of self home away) <= 10 ^ 50 ->
  Rabs (mu_of self home away) <= 10 ^ 50 ->
  Float.predict self home away =
  predict_finish self
    (get_default home (team_attack self) 1)
    (get_default home (team_defense self) 1)
    (get_default away (team_attack self) 1)
    (get_default away (team_defense self) 1)
    (lambda_of self home away) (mu_of self home away)
    (grid_with a c self (lambda_of self home away) (mu_of self home away)).
Proof.
  intros Ha Hc Hl Hm. unfold Float.predict. cbv zeta.
  fold (lambda_of self home away). fold (mu_of self home away).
  now rewrite (float_score_grid_with self _ _ a c Ha Hc Hl Hm).
Qed.

(** An exponential that underflows leaves the three accumulators at
    zero, and [predict] returns them as they are. *)
Lemma float_predict_underflow self home away :
  0 <= lambda_of self home away <= 10 ^ 50 ->
  0 <= mu_of self home away <= 10 ^ 50 ->
  745.2 <= lambda_of self home away \/ 745.2 <= mu_of self home away ->
  exists b p,
    Float.score_grid self (lambda_of self home away) (mu_of self home away)
      = Returns b /\
    bucket_total b = 0 /\
    Float.predict self home away = Returns p /\
    home_win_prob p = 0 /\ draw_prob p = 0 /\ away_win_prob p = 0.
Proof.
  set (l := lambda_of self home away). set (m := mu_of self home away).
  intros Hl Hm Hbig.
  assert (Hexp : forall x, 0 <= x ->
            exists a, Float.math_exp (- x) = Returns a /\
                      (745.2 <= x -> a = 0)).
  { intros x Hx.
    destruct (math_exp_cases (- x)) as [[H _] | [[H E] | [H E]]].
    - unfold Float.exp_overflow in H. lra.
    - exists 0. now split.
    - exists (exp (- x)). split; [exact E |].
      unfold Float.exp_underflow in H. intros Hb. lra. }
  destruct (Hexp l (proj1 Hl)) as (a & Ha & Ha0).
  destruct (Hexp m (proj1 Hm)) as (c & Hc & Hc0).
  assert (Hac : a * c = 0).
  { destruct Hbig as [H | H]; [rewrite (Ha0 H) | rewrite (Hc0 H)]; ring. }
  assert (Hla : Rabs l <= 10 ^ 50) by (apply Rabs_le; lra).
  assert (Hma : Rabs m <= 10 ^ 50) by (apply Rabs_le; lra).
  exists (grid_with a c self l m). eexists.
  split; [now apply float_score_grid_with |].
  split; [rewrite grid_with_total, Hac; ring |].
  rewrite (float_predict_with self home away a c Ha Hc Hla Hma).
  fold l m. unfold predict_finish, grid_with. rewrite !Hac, !Rmult_0_l.
  rewrite normalize_not_pos by lra.
  split; [reflexivity |]. now repeat split.
Qed.

(** A mean whose square exceeds the largest double: the third row of the
    grid raises. *)
Lemma float_score_grid_overflow self l m a c :
  Float.math_exp (- l) = Returns a ->
  Float.math_exp (- m) = Returns c ->
  Rabs m <= 10 ^ 50 ->
  Rabs l <= Float.float_max ->
  Float.float_max < Rabs (l ^ 2) ->
  Float.score_grid self l m = Raises OverflowError.
Proof.
  intros Ha Hc Hm Hl Hover.
  assert (Hrow : forall i b,
            Rabs (l ^ i) <= Float.float_max ->
            exists b',
              for_each (Float.score_cell self l m i)
                (seq 0 (max_goals + 1)) b = Returns b').
  { intros i b Hi. eexists.
    apply (for_each_returns _
      (fun b j =>
         add_score i j
           ((a * l ^ i / INR (fact i)) * (c * m ^ j / INR (fact j))
            * tau_correction self i j l m) b)).
    intros b' j Hj. apply in_seq in Hj. unfold max_goals in Hj.
    apply score_cell_returns; try assumption.
    - now apply float_pow_returns.
    - apply float_pow_in_range; [exact Hm | lia]. }
  unfold Float.score_grid.
  set (row := fun b i =>
         for_each (Float.score_cell self l m i) (seq 0 (max_goals + 1)) b).
  change (seq 0 (max_goals + 1)) with (0 :: 1 :: 2 :: seq 3 4)%nat.
  cbn [for_each].
  destruct (Hrow 0%nat (0, 0, 0)) as [b0 Hb0].
  { cbn [pow]. rewrite Rabs_R1. apply float_max_pos. }
  change (row (0, 0, 0) 0%nat)
    with (for_each (Float.score_cell self l m 0)
            (seq 0 (max_goals + 1)) (0, 0, 0)).
  rewrite Hb0. cbn [bind].
  destruct (Hrow 1%nat b0) as [b1 Hb1].
  { cbn [pow]. now rewrite Rmult_1_r. }
  change (row b0 1%nat)
    with (for_each (Float.score_cell self l m 1)
            (seq 0 (max_goals + 1)) b0).
  rewrite Hb1. cbn [bind].
  change (row b1 2%nat)
    with (for_each (Float.score_cell self l m 2) (0 :: seq 1 6)%nat b1).
  cbn [for_each]. unfold Float.score_cell at 1.
  rewrite Ha. cbn [bind]. rewrite (float_pow_overflow l 2 Hover).
  reflexivity.
Qed.

Lemma two_pow_1000 : 2 ^ 1000 = IZR (2 ^ 1000).
Proof. rewrite pow_IZR. f_equal. Qed.

(** Two unseen teams and a home advantage of [2 ** 1000]. *)
Lemma float_predict_overflow :
  Float.predict (with_home_advantage default_model (2 ^ 1000)) "X" "Y" =
  Raises OverflowError.
Proof.
  unfold Float.predict. cbv zeta.
  unfold with_home_advantage, default_model, init, get_default.
  cbn [team_attack team_defense home_advantage get empty].
  replace (1 * (1 + 2 ^ 1000) * 1) with (IZR (1 + 2 ^ 1000))
    by (rewrite plus_IZR, two_pow_1000; ring).
  rewrite Rmult_1_r.
  assert (Hpos : 0 < IZR (1 + 2 ^ 1000)).
  { apply IZR_lt. vm_compute. reflexivity. }
  rewrite (float_score_grid_overflow _ _ _ 0 (exp (- 1))); [reflexivity | | | | |].
  - apply math_exp_underflow. unfold Float.exp_underflow.
    assert (1000 < IZR (1 + 2 ^ 1000)).
    { apply IZR_lt. vm_compute. reflexivity. }
    lra.
  - apply math_exp_in_range.
    unfold Float.exp_underflow, Float.exp_overflow. lra.
  - rewrite Rabs_R1. apply pow_R1_Rle. lra.
  - rewrite Rabs_pos_eq by lra. rewrite float_max_IZR.
    apply IZR_le. vm_compute. discriminate.
  - rewrite <- RPow_abs, Rabs_pos_eq by lra.
    rewrite float_max_IZR, pow_IZR. apply IZR_lt. vm_compute. reflexivity.
Qed.


(* ================================================================== *)
(** * The minimum-sample policy, on the float reading *)

Lemma fit_rated_exact self ms cd0 m' :
  fit self ms cd0 = Returns m' ->
  forall t, In t (match_teams ms) ->
    contains t (team_attack m') = true /\
    contains t (team_defense m') = true.
Proof.
  intros Hfit t Ht.
  apply fit_inv in Hfit.
  destruct Hfit as (cd & a1 & d1 & a2 & d2 & _ & Hrate & Hnorm & ->).
  apply rated_inv in Hrate. destruct Hrate as (_ & -> & ->).
  apply normalize_loop_keys in Hnorm. destruct Hnorm as [Ha Hd].
  cbn [team_attack team_defense].
  rewrite !contains_true_iff, Ha, Hd, !in_keys_set_all.
  split; right; now apply stats_of_keys.
Qed.

Lemma float_fit_returns self ms cd0 cd :
  reference_date ms cd0 = Returns cd ->
  weights_in_range self cd ms ->
  wf (team_attack self) ->
  (forall t, In t (keys (team_attack self)) ->
             In t (keys (team_defense self))) ->
  scored_in ms ->
  exists m', Float.fit self ms cd0 = Returns m'.
Proof.
  intros Hcd Hr Hwf Hsub Hs.
  rewrite (float_fit_exact self ms cd0 cd Hcd Hr).
  now apply fit_returns.
Qed.

Lemma fifty_matches_in_range xi0 ha rho0 :
  0 <= xi0 <= 14 ->
  weights_in_range (init xi0 ha rho0) 49 fifty_matches.
Proof.
  intros Hxi m Hm. unfold fifty_matches in Hm. apply in_map_iff in Hm.
  destruct Hm as (d & <- & Hd). apply in_seq in Hd.
  cbn [match_date xi init].
  assert (H : 0 <= IZR (49 - Z.of_nat d) <= 49).
  { split; apply IZR_le; lia. }
  nra.
Qed.

(** C2, as stated, fails: [fit] does not look at the number of matches.
    On fifty matches, fewer than the minimum of 100, a default model
    trains and returns; nothing is raised, in exact arithmetic and in
    doubles alike. *)
Lemma fit_fifty_matches_returns :
  (length fifty_matches < 100)%nat /\
  ~ raises (fit default_model fifty_matches None) /\
  ~ raises (Float.fit default_model fifty_matches None).
Proof.
  assert (H : ~ raises (fit default_model fifty_matches None)).
  { destruct (fit_returns default_model fifty_matches None) as [m' Hm'].
    - constructor.
    - intros t [].
    - exact fifty_matches_goal.
    - eapply returns_not_raises. exact Hm'. }
  split; [| split].
  - unfold fifty_matches. rewrite length_map, length_seq. lia.
  - exact H.
  - rewrite (float_fit_exact default_model fifty_matches None 49%Z eq_refl).
    + exact H.
    + apply fifty_matches_in_range. lra.
Qed.

(** C2, amended. The minimum of 100 rows is enforced by
    [get_training_data], which returns [None] without raising when fewer
    rows were fetched, so that [main] stops before training; with 100 rows
    or more [main] trains on the first [len * 4 / 5] rows, at least 80
    matches.  [fit] itself has no minimum: on a fresh model it returns for
    every match list in which a goal was scored, whatever its length, as
    long as the time-decay weights stay in the range of doubles. *)
Theorem minimum_sample_gate :
  forall fetched : list match_row,
    ((length fetched < 100)%nat ->
     get_training_data fetched = None /\ Float.main_fit fetched = None) /\
    ((100 <= length fetched)%nat ->
     let train_matches := firstn (length fetched * 4 / 5) fetched in
     get_training_data fetched = Some fetched /\
     Float.main_fit fetched =
       Some (Float.fit default_model train_matches None) /\
     length train_matches = (length fetched * 4 / 5)%nat /\
     (80 <= length train_matches)%nat) /\
    (forall xi0 ha rho0 cd0 cd,
       reference_date fetched cd0 = Returns cd ->
       weights_in_range (init xi0 ha rho0) cd fetched ->
       scored_in fetched ->
       exists m', Float.fit (init xi0 ha rho0) fetched cd0 = Returns m').
Proof.
  intros fetched. split; [| split].
  - intros Hlt. unfold Float.main_fit, get_training_data.
    apply Nat.ltb_lt in Hlt. rewrite Hlt. now split.
  - intros Hge train. unfold Float.main_fit, get_training_data.
    assert (E : (length fetched <? 100)%nat = false)
      by now apply Nat.ltb_ge.
    rewrite E. split; [reflexivity |].
    assert (Hdiv : (80 <= length fetched * 4 / 5)%nat)
      by (apply Nat.div_le_lower_bound; lia).
    assert (Hle : (5 * (length fetched * 4 / 5) <= length fetched * 4)%nat)
      by apply Nat.Div0.mul_div_le.
    split; [| split].
    + destruct fetched as [| m rest] eqn:Ef; [simpl in Hge; lia |].
      reflexivity.
    + unfold train. rewrite length_firstn. lia.
    + unfold train. rewrite length_firstn. lia.
  - intros xi0 ha rho0 cd0 cd Hcd Hr Hs.
    apply (float_fit_returns _ _ _ cd Hcd Hr); [constructor | | exact Hs].
    intros t [].
Qed.

Lemma minimum_sample_gate_witness :
  get_training_data fifty_matches = None /\
  Float.main_fit fifty_matches = None /\
  exists m', Float.fit (init 0.0065 0.3 (-0.13)) fifty_matches None
             = Returns m'.
Proof.
  destruct (minimum_sample_gate fifty_matches) as (Hlow & _ & Hfit).
  assert (Hlen : (length fifty_matches < 100)%nat).
  { unfold fifty_matches. rewrite length_map, length_seq. lia. }
  destruct (Hlow Hlen) as [H1 H2].
  split; [exact H1 |]. split; [exact H2 |].
  apply (Hfit 0.0065 0.3 (-0.13) None 49%Z).
  - reflexivity.
  - apply fifty_matches_in_range. lra.
  - exact fifty_matches_goal.
Defined.

(* ================================================================== *)
(** * Ratings after [fit], on the float reading *)

(** C10, as stated, fails: [math.exp] returns 0.0 for a match 118000 days
    older than the latest one, the weighted match count of its two teams
    stays 0.0, the guard of the rating loop is false for them, and [fit]
    returns with A and B unrated. *)
Lemma fit_underflow_leaves_unrated :
  exists m,
    Float.time_decay_weight default_model 0 118000 = Returns 0 /\
    Float.fit default_model ancient_matches None = Returns m /\
    In "A"%string (match_teams ancient_matches) /\
    In "B"%string (match_teams ancient_matches) /\
    contains "A" (team_attack m) = false /\
    contains "A" (team_defense m) = false /\
    contains "B" (team_attack m) = false /\
    contains "B" (team_defense m) = false /\
    contains "C" (team_attack m) = true.
Proof.
  exists fitted_ancient.
  split; [exact float_weight_ancient |].
  split; [exact float_fit_ancient |].
  unfold ancient_matches, match_teams. cbn [flat_map app home_team away_team].
  split; [now left |]. split; [right; now left |].
  now repeat split.
Qed.

(** C10, amended. When no weight leaves the range of doubles (no match
    after the reference date, none more than [700 / xi] days before it),
    every weight is positive, every entry of [team_stats] has a positive
    weighted match count, so the guard of the rating loop holds for every
    team, and once [fit] has returned every team that played at home or
    away is rated in both dictionaries; [fit] does return, on a model whose
    attack keys are defense keys, as soon as one goal was scored. *)
Theorem fit_rates_every_team :
  forall (self : DixonColesModel) (ms : list match_row) (cd0 : option Z)
         (cd : Z),
    reference_date ms cd0 = Returns cd ->
    weights_in_range self cd ms ->
    (forall m, In m ms ->
       exists w,
         Float.time_decay_weight self (match_date m) cd = Returns w /\
         0 < w) /\
    (exists tms stats,
       for_each (Float.collect_match self cd) ms (teams self, empty) =
         Returns (tms, stats) /\
       Forall (fun e => 0 < weighted_matches (snd e)) stats /\
       (forall t, In t (match_teams ms) -> In t (keys stats))) /\
    (forall m',
       Float.fit self ms cd0 = Returns m' ->
       forall t, In t (match_teams ms) ->
         contains t (team_attack m') = true /\
         contains t (team_defense m') = true) /\
    (wf (team_attack self) ->
     (forall t, In t (keys (team_attack self)) ->
                In t (keys (team_defense self))) ->
     scored_in ms ->
     exists m', Float.fit self ms cd0 = Returns m').
Proof.
  intros self ms cd0 cd Hcd Hr. split; [| split; [| split]].
  - intros m Hm. exists (time_decay_weight self (match_date m) cd).
    split; [apply float_weight_exact, Hr, Hm | apply time_decay_weight_pos].
  - rewrite (float_collect_exact self cd ms Hr).
    destruct (fold_left (collect_match self cd) ms (teams self, empty))
      as [tms stats] eqn:E.
    exists tms, stats. split; [reflexivity |].
    assert (Es : stats = stats_of self cd ms).
    { unfold stats_of, collect_stats. now rewrite E. }
    rewrite Es. split.
    + pose proof (stats_of_ok self cd ms) as [_ Hall].
      eapply Forall_impl; [| exact Hall]. intros e He. apply He.
    + intros t Ht. now apply stats_of_keys.
  - intros m'. rewrite (float_fit_exact self ms cd0 cd Hcd Hr).
    apply fit_rated_exact.
  - intros Hwf Hsub Hs. now apply (float_fit_returns self ms cd0 cd).
Qed.

Lemma match_A_B_in_range self :
  weights_in_range self 0 [match_A_B].
Proof.
  intros m [<- | []]. unfold match_A_B. cbn [match_date].
  rewrite Z.sub_diag, Rmult_0_r. lra.
Qed.

Lemma float_fit_A_B :
  Float.fit default_model [match_A_B] None = Returns fitted_A_B.
Proof.
  rewrite (float_fit_exact default_model [match_A_B] None 0%Z eq_refl
             (match_A_B_in_range default_model)).
  exact fit_A_B.
Qed.

Lemma fit_rates_every_team_witness :
  Float.fit default_model [match_A_B] None = Returns fitted_A_B /\
  contains "B" (team_attack fitted_A_B) = true /\
  contains "B" (team_defense fitted_A_B) = true.
Proof.
  split; [exact float_fit_A_B |].
  destruct (fit_rates_every_team default_model [match_A_B] None 0%Z eq_refl
              (match_A_B_in_range default_model))
    as (_ & _ & H & _).
  apply (H fitted_A_B float_fit_A_B "B"%string).
  unfold match_teams, match_A_B. cbn [flat_map app home_team away_team].
  right. now left.
Defined.

(* ================================================================== *)
(** * [predict], on the float reading *)

Lemma float_predict_closed self home away :
  means_in_range (lambda_of self home away) (mu_of self home away) ->
  let l := lambda_of self home away in
  let m := mu_of self home away in
  Float.predict self home away =
  Returns {| home_win_prob :=
               wsum (home_coeff m (rho self)) l / (texp l * texp m);
             draw_prob := draw_poly l m (rho self) / (texp l * texp m);
             away_win_prob :=
               wsum (away_coeff m (rho self)) l / (texp l * texp m);
             expected_home_goals := l;
             expected_away_goals := m;
             home_attack := get_default home (team_attack self) 1;
             home_defense := get_default home (team_defense self) 1;
             away_attack := get_default away (team_attack self) 1;
             away_defense := get_default away (team_defense self) 1;
             pred_rho := rho self; pred_xi := xi self |}.
Proof.
  intros Hr l m. apply means_in_range_abs in Hr. destruct Hr as [Hl Hm].
  rewrite (float_predict_exact self home away Hl Hm).
  apply predict_closed.
Qed.

Lemma float_predict_inv self home away p :
  Float.predict self home away = Returns p ->
  exists b,
    Float.score_grid self (lambda_of self home away) (mu_of self home away)
      = Returns b /\
    predict_finish self
      (get_default home (team_attack self) 1)
      (get_default home (team_defense self) 1)
      (get_default away (team_attack self) 1)
      (get_default away (team_defense self) 1)
      (lambda_of self home away) (mu_of self home away) b = Returns p.
Proof.
  unfold Float.predict. cbv zeta.
  fold (lambda_of self home away). fold (mu_of self home away).
  destruct (Float.score_grid self (lambda_of self home away)
              (mu_of self home away)) as [b | e] eqn:E;
    cbn [bind]; [| discriminate].
  intros H. now exists b.
Qed.

Lemma float_predict_sum_one self home away :
  means_in_range (lambda_of self home away) (mu_of self home away) ->
  exists p,
    Float.predict self home away = Returns p /\
    home_win_prob p + draw_prob p + away_win_prob p = 1.
Proof.
  intros Hr. eexists. split; [now apply float_predict_closed |].
  cbn [home_win_prob draw_prob away_win_prob].
  set (l := lambda_of self home away). set (m := mu_of self home away).
  pose proof (texp_pos l) as Tl. pose proof (texp_pos m) as Tm.
  pose proof (grid_poly_total l m (rho self)) as Ht.
  assert (Hd : texp l * texp m <> 0).
  { apply Rgt_not_eq. now apply Rmult_lt_0_compat. }
  unfold Rdiv. rewrite <- !Rmult_plus_distr_r, Ht.
  apply Rinv_r. exact Hd.
Qed.

Lemma float_fit_lopsided :
  Float.fit default_model lopsided_matches None = Returns fitted_lopsided.
Proof.
  rewrite (float_fit_exact default_model lopsided_matches None 0%Z eq_refl).
  - exact fit_lopsided.
  - intros m [<- | [<- | []]]; cbn [match_date];
      rewrite Z.sub_diag, Rmult_0_r; lra.
Qed.

(** The prediction depends on the home advantage through [lambda_h]
    only. *)
Lemma float_predict_home_advantage self ha home away :
  Float.predict (with_home_advantage self ha) home away =
  (b <- Float.score_grid self
          (lambda_of (with_home_advantage self ha) home away)
          (mu_of self home away) ;;
   predict_finish self
     (get_default home (team_attack self) 1)
     (get_default home (team_defense self) 1)
     (get_default away (team_attack self) 1)
     (get_default away (team_defense self) 1)
     (lambda_of (with_home_advantage self ha) home away)
     (mu_of self home away) b).
Proof. reflexivity. Qed.

(* ================================================================== *)
(** * Outcome probabilities, unseen teams and home advantage *)

(** C1. The code breaks the claim: the tau correction of cell (0,1) is
    [1 + lambda * rho], negative for [lambda > 1 / 0.13] with the default
    [rho], and nothing keeps the accumulators non-negative.  A default
    model trained on A 19-1 B and C 0-0 D rates A at attack 19/5 and B at
    defense 19/5; for A at home against B the expected goals are 18.772
    and 0.04, every intermediate value is far inside the range of
    doubles, and the away-win probability that [predict] returns is
    negative. *)
Lemma predict_negative_probability :
  exists m p,
    Float.fit default_model lopsided_matches None = Returns m /\
    fit default_model lopsided_matches None = Returns m /\
    expected_home_goals p = 4693 / 250 /\
    expected_away_goals p = 1 / 25 /\
    tau_correction m 0 1 (expected_home_goals p) (expected_away_goals p)
      < 0 /\
    Float.predict m "A" "B" = Returns p /\
    predict m "A" "B" = Returns p /\
    away_win_prob p < 0.
Proof.
  set (l := lambda_of fitted_lopsided "A" "B").
  set (m := mu_of fitted_lopsided "A" "B").
  assert (El : l = 4693 / 250).
  { unfold l, lambda_of, fitted_lopsided, get_default. cbn -[IZR]. lra. }
  assert (Em : m = 1 / 25).
  { unfold m, mu_of, fitted_lopsided, get_default. cbn -[IZR]. lra. }
  assert (Hr : means_in_range l m).
  { unfold means_in_range. rewrite El, Em. lra. }
  exists fitted_lopsided. eexists.
  split; [exact float_fit_lopsided |]. split; [exact fit_lopsided |].
  split; [| split; [| split; [| split; [| split]]]];
    [| | | now apply float_predict_closed | apply predict_closed |];
    cbn [expected_home_goals expected_away_goals away_win_prob]; fold l m.
  - exact El.
  - exact Em.
  - unfold tau_correction, fitted_lopsided. cbn [Nat.eqb andb rho].
    rewrite El. lra.
  - pose proof (texp_pos l). pose proof (texp_pos m).
    assert (Hden : 0 < texp l * texp m) by now apply Rmult_lt_0_compat.
    assert (Hnum : wsum (away_coeff m (rho fitted_lopsided)) l < 0).
    { rewrite El, Em. unfold wsum, away_coeff, fitted_lopsided. cbn [rho].
      lra. }
    assert (Hinv : 0 < / (texp l * texp m)) by now apply Rinv_0_lt_compat.
    unfold Rdiv. nra.
Qed.

(** C4, as stated, fails: with a home advantage of 1000 and two unrated
    teams [lambda_h] is 1001, [math.exp(-1001)] is 0.0, every cell of the
    grid is 0.0, the three accumulators sum to zero, the guard
    [if total > 0] is false and [predict] returns the three zeros without
    raising anything. *)
Lemma predict_zero_buckets_returns :
  exists b p,
    lambda_of (with_home_advantage default_model 1000) "X" "Y" = 1001 /\
    mu_of (with_home_advantage default_model 1000) "X" "Y" = 1 /\
    Float.score_grid (with_home_advantage default_model 1000) 1001 1
      = Returns b /\
    bucket_total b = 0 /\
    Float.predict (with_home_advantage default_model 1000) "X" "Y"
      = Returns p /\
    home_win_prob p = 0 /\ draw_prob p = 0 /\ away_win_prob p = 0 /\
    home_win_prob p + draw_prob p + away_win_prob p <> 1.
Proof.
  set (self := with_home_advantage default_model 1000).
  assert (El : lambda_of self "X" "Y" = 1001).
  { unfold self. rewrite lambda_of_with_home_advantage.
    unfold default_model, init, get_default. cbn -[IZR]. lra. }
  assert (Em : mu_of self "X" "Y" = 1).
  { unfold mu_of, self, default_model, init, get_default. cbn -[IZR]. lra. }
  assert (Hbig : 1001 <= 10 ^ 50).
  { replace (10 ^ 50) with (10 ^ 4 * 10 ^ 46)
      by (rewrite <- pow_add; reflexivity).
    assert (1 <= 10 ^ 46) by (apply pow_R1_Rle; lra).
    nra. }
  assert (H1 : 1 <= 10 ^ 50) by lra.
  destruct (float_predict_underflow self "X" "Y")
    as (b & p & Hb & Ht & Hp & P1 & P2 & P3).
  - rewrite El. lra.
  - rewrite Em. lra.
  - left. rewrite El. lra.
  - rewrite El, Em in Hb. exists b, p.
    repeat (split; [assumption |]). rewrite P1, P2, P3. lra.
Qed.

(** C4, amended. [predict] has no [ModelDegenerateError]: the only
    exception it can raise is the [OverflowError] of [math.exp] or [**].
    When it returns and the three accumulators do not sum to a positive
    total, it returns them as they are, silently; this happens with three
    zeros as soon as one mean is 745.2 or more (and both are between 0
    and 1e50), because its exponential is then 0.0.  When the total is
    positive the three returned values sum to 1, and this is the case for
    all means [lambda_h, mu_a >= 0] with [lambda_h + mu_a <= 700]. *)
Theorem predict_zero_total :
  forall (self : DixonColesModel) (home away : string),
    let lambda_h := lambda_of self home away in
    let mu_a := mu_of self home away in
    (forall e, Float.predict self home away = Raises e ->
               e = OverflowError) /\
    (forall p, Float.predict self home away = Returns p ->
       exists h d a,
         Float.score_grid self lambda_h mu_a = Returns (h, d, a) /\
         (0 < h + d + a ->
          home_win_prob p = h / (h + d + a) /\
          draw_prob p = d / (h + d + a) /\
          away_win_prob p = a / (h + d + a) /\
          home_win_prob p + draw_prob p + away_win_prob p = 1) /\
         (~ 0 < h + d + a ->
          home_win_prob p = h /\ draw_prob p = d /\ away_win_prob p = a)) /\
    (0 <= lambda_h <= 10 ^ 50 -> 0 <= mu_a <= 10 ^ 50 ->
     745.2 <= lambda_h \/ 745.2 <= mu_a ->
     exists b p,
       Float.score_grid self lambda_h mu_a = Returns b /\
       bucket_total b = 0 /\
       Float.predict self home away = Returns p /\
       home_win_prob p = 0 /\ draw_prob p = 0 /\ away_win_prob p = 0) /\
    (means_in_range lambda_h mu_a ->
     exists p,
       Float.predict self home away = Returns p /\
       home_win_prob p + draw_prob p + away_win_prob p = 1).
Proof.
  intros self home away lambda_h mu_a. split; [| split; [| split]].
  - intros e. apply float_predict_raises.
  - intros p Hp. apply float_predict_inv in Hp.
    destruct Hp as ([[h d] a] & Hb & Hfin).
    exists h, d, a. split; [exact Hb |]. unfold predict_finish in Hfin.
    split.
    + intros Hpos. rewrite normalize_pos in Hfin by exact Hpos.
      injection Hfin as <-. cbn [home_win_prob draw_prob away_win_prob].
      repeat split. field. now apply Rgt_not_eq.
    + intros Hneg. rewrite normalize_not_pos in Hfin by exact Hneg.
      injection Hfin as <-. now repeat split.
  - apply float_predict_underflow.
  - apply float_predict_sum_one.
Qed.

Lemma predict_zero_total_witness :
  exists p,
    Float.predict fitted_A_B "A" "B" = Returns p /\
    home_win_prob p + draw_prob p + away_win_prob p = 1.
Proof.
  destruct (predict_zero_total fitted_A_B "A" "B") as (_ & _ & _ & H).
  apply H. unfold means_in_range, lambda_of, mu_of, fitted_A_B, get_default.
  cbn -[IZR]. lra.
Defined.

(** C6, as stated, fails: for two teams that were never rated and a home
    advantage of [2 ** 1000] the expected home goals are about 1.07e301,
    [lambda_h ** 2] leaves the range of doubles and [predict] raises
    [OverflowError]. *)
Lemma predict_unseen_teams_overflow :
  contains "X" (team_attack default_model) = false /\
  contains "X" (team_defense default_model) = false /\
  contains "Y" (team_attack default_model) = false /\
  contains "Y" (team_defense default_model) = false /\
  Float.predict (with_home_advantage default_model (2 ^ 1000)) "X" "Y" =
    Raises OverflowError.
Proof.
  repeat (split; [reflexivity |]). exact float_predict_overflow.
Qed.

(** C6, amended. A missing team never makes [predict] fail by itself:
    the lookups use [dict.get] with default 1.0, so [KeyError] is never
    raised and an unrated team enters with attack and defense 1.  What
    [predict] can raise is [OverflowError], when an expected goal count is
    too large; it returns whenever [lambda_h, mu_a >= 0] and
    [lambda_h + mu_a <= 700], and for two unrated teams, whose expected
    goals are [1 + home_advantage] and 1, whenever the home advantage is
    between -1 and 698. *)
Theorem predict_unseen_team :
  forall (self : DixonColesModel) (home away : string),
    (forall e, Float.predict self home away = Raises e ->
               e = OverflowError) /\
    (forall p, Float.predict self home away = Returns p ->
       (contains home (team_attack self) = false -> home_attack p = 1) /\
       (contains home (team_defense self) = false -> home_defense p = 1) /\
       (contains away (team_attack self) = false -> away_attack p = 1) /\
       (contains away (team_defense self) = false -> away_defense p = 1) /\
       expected_home_goals p =
         home_attack p * (1 + home_advantage self) * away_defense p /\
       expected_away_goals p = away_attack p * home_defense p) /\
    (means_in_range (lambda_of self home away) (mu_of self home away) ->
     exists p, Float.predict self home away = Returns p) /\
    (contains home (team_attack self) = false ->
     contains home (team_defense self) = false ->
     contains away (team_attack self) = false ->
     contains away (team_defense self) = false ->
     -1 <= home_advantage self <= 698 ->
     exists p,
       Float.predict self home away = Returns p /\
       expected_home_goals p = 1 + home_advantage self /\
       expected_away_goals p = 1).
Proof.
  intros self home away.
  assert (Hdef : forall t (d : dict R),
             contains t d = false -> get_default t d 1 = 1).
  { intros t d H. unfold get_default, contains in *.
    destruct (get t d); [discriminate | reflexivity]. }
  split; [| split; [| split]].
  - intros e. apply float_predict_raises.
  - intros p Hp. apply float_predict_inv in Hp.
    destruct Hp as (b & _ & Hfin). unfold predict_finish in Hfin.
    destruct (normalize b) as [[h d] a]. injection Hfin as <-.
    cbn [home_attack home_defense away_attack away_defense
         expected_home_goals expected_away_goals].
    repeat split; try (now apply Hdef).
  - intros Hr. eexists. now apply float_predict_closed.
  - intros H1 H2 H3 H4 Hha.
    assert (El : lambda_of self home away = 1 + home_advantage self).
    { unfold lambda_of. rewrite (Hdef _ _ H1), (Hdef _ _ H4). ring. }
    assert (Em : mu_of self home away = 1).
    { unfold mu_of. rewrite (Hdef _ _ H3), (Hdef _ _ H2). ring. }
    eexists. split.
    + apply float_predict_closed. unfold means_in_range.
      rewrite El, Em. lra.
    + cbn [expected_home_goals expected_away_goals]. now split.
Qed.

Lemma predict_unseen_team_witness :
  exists p,
    Float.fit default_model [match_A_B] None = Returns fitted_A_B /\
    Float.predict fitted_A_B "A" "Z" = Returns p /\
    away_attack p = 1 /\ away_defense p = 1 /\
    expected_home_goals p = 2 * (1 + 0.3) * 1.
Proof.
  destruct (predict_unseen_team fitted_A_B "A" "Z") as (_ & Hinv & Hret & _).
  destruct Hret as [p Hp].
  { unfold means_in_range, lambda_of, mu_of, fitted_A_B, get_default.
    cbn -[IZR]. lra. }
  exists p. split; [exact float_fit_A_B |]. split; [exact Hp |].
  destruct (Hinv p Hp) as (_ & _ & Ha & Hd & El & _).
  split; [now apply Ha |]. split; [now apply Hd |].
  rewrite El, (Hd eq_refl).
  apply float_predict_inv in Hp. destruct Hp as (b & _ & Hfin).
  unfold predict_finish in Hfin. destruct (normalize b) as [[h d] a].
  injection Hfin as <-. cbn [home_attack]. reflexivity.
Defined.

(** C8, as stated, fails: a team that never scored has attack 0, its
    expected goals are 0 whatever the home advantage, and the
    probabilities do not move.  In the model trained on A 1-0 B, with B at
    home against A, raising the home advantage from 0.3 to 0.5 changes
    neither the home-win nor the away-win probability, in exact
    arithmetic and in doubles alike. *)
Lemma home_advantage_without_effect :
  exists m p1 p2,
    fit default_model [match_A_B] None = Returns m /\
    Float.fit default_model [match_A_B] None = Returns m /\
    predict (with_home_advantage m 0.3) "B" "A" = Returns p1 /\
    Float.predict (with_home_advantage m 0.3) "B" "A" = Returns p1 /\
    predict (with_home_advantage m 0.5) "B" "A" = Returns p2 /\
    Float.predict (with_home_advantage m 0.5) "B" "A" = Returns p2 /\
    home_win_prob p1 = home_win_prob p2 /\
    away_win_prob p1 = away_win_prob p2.
Proof.
  assert (E : forall ha,
             get_default "B" (team_attack fitted_A_B) 1
             * get_default "A" (team_defense fitted_A_B) 1 * (1 + ha) = 0).
  { intros ha. unfold fitted_A_B, get_default. simpl. ring. }
  assert (Em : mu_of fitted_A_B "B" "A" = 4).
  { unfold mu_of, fitted_A_B, get_default. cbn -[IZR]. lra. }
  assert (Hr : forall ha,
             means_in_range
               (lambda_of (with_home_advantage fitted_A_B ha) "B" "A")
               (mu_of (with_home_advantage fitted_A_B ha) "B" "A")).
  { intros ha. unfold means_in_range.
    rewrite lambda_of_with_home_advantage, mu_of_with_home_advantage, E, Em.
    lra. }
  exists fitted_A_B. eexists. eexists.
  split; [exact fit_A_B |]. split; [exact float_fit_A_B |].
  split; [apply predict_closed |].
  split; [apply float_predict_closed, Hr |].
  split; [apply predict_closed |].
  split; [apply float_predict_closed, Hr |].
  cbn [home_win_prob away_win_prob].
  rewrite !lambda_of_with_home_advantage, !mu_of_with_home_advantage.
  rewrite !E. split; reflexivity.
Qed.

(** C8, amended. With the ratings fixed: when the home attack or the
    away defense is 0 the expected home goals are 0 whatever the home
    advantage, and [predict] gives the same result for every home
    advantage.  When their product [k] is positive, for home advantages
    [-1 <= ha1 < ha2] with [k * (1 + ha2) + mu_a <= 700] both predictions
    are returned, the home-win probability is strictly larger at [ha2] as
    long as [rho <= 1] and [1 + mu_a * rho >= 0], and the away-win
    probability strictly smaller as long as [mu_a > 0] and
    [- mu_a / 2 <= rho <= 1].  Once the expected home goals reach 745.2
    (and stay below 1e50) [math.exp] underflows and both probabilities
    are 0.0 at either home advantage. *)
Theorem home_advantage_monotone :
  forall (self : DixonColesModel) (home away : string) (ha1 ha2 : R),
    let k := get_default home (team_attack self) 1
             * get_default away (team_defense self) 1 in
    let mu_a := mu_of self home away in
    (get_default home (team_attack self) 1 = 0 \/
     get_default away (team_defense self) 1 = 0 ->
     Float.predict (with_home_advantage self ha1) home away =
     Float.predict (with_home_advantage self ha2) home away) /\
    (0 < k -> -1 <= ha1 -> ha1 < ha2 -> 0 <= mu_a ->
     k * (1 + ha2) + mu_a <= 700 ->
     exists p1 p2,
       Float.predict (with_home_advantage self ha1) home away = Returns p1 /\
       Float.predict (with_home_advantage self ha2) home away = Returns p2 /\
       (rho self <= 1 -> 0 <= 1 + mu_a * rho self ->
        home_win_prob p1 < home_win_prob p2) /\
       (0 < mu_a -> rho self <= 1 -> - mu_a / 2 <= rho self ->
        away_win_prob p2 < away_win_prob p1)) /\
    (0 <= mu_a <= 10 ^ 50 ->
     745.2 <= k * (1 + ha1) <= 10 ^ 50 ->
     745.2 <= k * (1 + ha2) <= 10 ^ 50 ->
     exists p1 p2,
       Float.predict (with_home_advantage self ha1) home away = Returns p1 /\
       Float.predict (with_home_advantage self ha2) home away = Returns p2 /\
       home_win_prob p1 = 0 /\ home_win_prob p2 = 0 /\
       away_win_prob p1 = 0 /\ away_win_prob p2 = 0).
Proof.
  intros self home away ha1 ha2 k mu_a.
  split; [| split].
  - intros Hz. rewrite !float_predict_home_advantage.
    rewrite !lambda_of_with_home_advantage.
    assert (E : forall ha,
               get_default home (team_attack self) 1
               * get_default away (team_defense self) 1 * (1 + ha) = 0).
    { intros ha. destruct Hz as [-> | ->]; ring. }
    now rewrite !E.
  - intros Hk Hlow Hlt Hm Hsum.
    assert (Hl1 : 0 <= k * (1 + ha1)) by (apply Rmult_le_pos; lra).
    assert (Hl12 : k * (1 + ha1) < k * (1 + ha2)).
    { apply Rmult_lt_compat_l; lra. }
    assert (Hr : forall ha, 0 <= k * (1 + ha) -> k * (1 + ha) <= 700 - mu_a ->
               Float.predict (with_home_advantage self ha) home away =
               predict (with_home_advantage self ha) home away).
    { intros ha H0 H7. apply float_predict_exact.
      - rewrite lambda_of_with_home_advantage. fold k.
        apply Rabs_le. lra.
      - rewrite mu_of_with_home_advantage. fold mu_a. apply Rabs_le. lra. }
    rewrite !Hr by lra.
    destruct (predict (with_home_advantage self ha1) home away)
      as [p1 | e1] eqn:E1;
      [| rewrite predict_closed in E1; discriminate].
    destruct (predict (with_home_advantage self ha2) home away)
      as [p2 | e2] eqn:E2;
      [| rewrite predict_closed in E2; discriminate].
    exists p1, p2. split; [reflexivity |]. split; [reflexivity |].
    destruct (home_advantage_monotone_exact self home away ha1 ha2 p1 p2
                Hk Hlow Hlt E1 E2) as [Hh Ha].
    split; [intros; now apply Hh | intros; now apply Ha].
  - intros Hm H1 H2.
    destruct (float_predict_underflow (with_home_advantage self ha1)
                home away)
      as (b1 & p1 & _ & _ & Hp1 & Hh1 & _ & Ha1);
      try (rewrite lambda_of_with_home_advantage; fold k);
      try (rewrite mu_of_with_home_advantage; fold mu_a);
      [lra | lra | left; lra |].
    destruct (float_predict_underflow (with_home_advantage self ha2)
                home away)
      as (b2 & p2 & _ & _ & Hp2 & Hh2 & _ & Ha2);
      try (rewrite lambda_of_with_home_advantage; fold k);
      try (rewrite mu_of_with_home_advantage; fold mu_a);
      [lra | lra | left; lra |].
    exists p1, p2. now repeat split.
Qed.

Lemma home_advantage_monotone_witness :
  exists p1 p2,
    Float.predict (with_home_advantage fitted_lopsided 0.3) "B" "Z"
      = Returns p1 /\
    Float.predict (with_home_advantage fitted_lopsided 0.5) "B" "Z"
      = Returns p2 /\
    home_win_prob p1 < home_win_prob p2 /\
    away_win_prob p2 < away_win_prob p1.
Proof.
  destruct (home_advantage_monotone fitted_lopsided "B" "Z" 0.3 0.5)
    as (_ & H & _).
  assert (Ek : get_default "B" (team_attack fitted_lopsided) 1
               * get_default "Z" (team_defense fitted_lopsided) 1 = 1 / 5).
  { unfold fitted_lopsided, get_default. cbn -[IZR]. lra. }
  assert (Em : mu_of fitted_lopsided "B" "Z" = 19 / 5).
  { unfold mu_of, fitted_lopsided, get_default. cbn -[IZR]. lra. }
  assert (Er : rho fitted_lopsided = -0.13) by reflexivity.
  destruct H as (p1 & p2 & Hp1 & Hp2 & Hh & Ha);
    try (rewrite ?Ek, ?Em; lra).
  exists p1, p2. split; [exact Hp1 |]. split; [exact Hp2 |].
  split; [apply Hh | apply Ha]; rewrite ?Em, ?Er; lra.
Defined.

(* ================================================================== *)
(** * More on the float reading of [fit] *)

Lemma reference_date_raises ms cd0 e :
  reference_date ms cd0 = Raises e -> e = ValueError.
Proof.
  destruct cd0 as [d |]; [discriminate |].
  destruct ms as [| m ms]; [| discriminate].
  simpl. now intros [= <-].
Qed.

Lemma float_fit_no_key_error self ms cd0 :
  consistent self -> Float.fit self ms cd0 <> Raises KeyError.
Proof.
  intros (Hwa & Hwd & Hiff) H. unfold Float.fit in H.
  change (match cd0 with
          | Some d => Returns d
          | None => max_match_date ms
          end) with (reference_date ms cd0) in H.
  destruct (reference_date ms cd0) as [cd | e] eqn:Ecd; cbn [bind] in H.
  2:{ apply reference_date_raises in Ecd. congruence. }
  destruct (for_each (Float.collect_match self cd) ms (teams self, empty))
    as [[tms stats] | e] eqn:Ecol; cbn [bind] in H.
  2:{ apply float_collect_raises in Ecol. congruence. }
  destruct (for_each (rate_team (league_average stats)) stats
              (team_attack self, team_defense self))
    as [[a1 d1] | e] eqn:Erate; cbn [bind fst] in H.
  2:{ apply rate_loop_raises in Erate. congruence. }
  apply rate_loop_inv in Erate.
  destruct Erate as (Ha1 & _ & _ & _ & Hkeys).
  destruct (normalize_loop (mean_attack a1) (keys a1) a1 d1)
    as (a2 & d2 & Hnorm & _).
  - now apply Ha1.
  - intros k Hk. split; [exact Hk |]. now apply (Hkeys Hiff).
  - rewrite Hnorm in H. discriminate H.
Qed.

Lemma float_fit_consistent self ms cd0 m' :
  consistent self -> Float.fit self ms cd0 = Returns m' -> consistent m'.
Proof.
  intros (Hwa & Hwd & Hiff) Hfit. apply float_fit_inv in Hfit.
  destruct Hfit as (cd & tms & stats & a1 & d1 & a2 & d2 &
                    _ & _ & Hrate & Hnorm & ->).
  apply rate_loop_inv in Hrate.
  destruct Hrate as (Ha1 & Hd1 & _ & _ & Hkeys).
  apply normalize_loop_keys in Hnorm. destruct Hnorm as [Ea Ed].
  unfold consistent, wf. cbn [team_attack team_defense].
  rewrite Ea, Ed. split; [now apply Ha1 |]. split; [now apply Hd1 |].
  now apply Hkeys.
Qed.

(** X2. As long as no time-decay weight leaves the range of doubles
    (every match between 0 and [700 / xi] days before the reference
    date), [fit] raises [ZeroDivisionError] exactly when the list is not
    empty and no goal was scored in it.  The range matters: for A 1-0 B
    followed 118000 days later by C 0-0 D, the only goal has weight 0.0
    and [fit] raises [ZeroDivisionError] although a goal was scored. *)
Theorem fit_zero_division_iff :
  (forall (self : DixonColesModel) (ms : list match_row) (cd0 : option Z)
          (cd : Z),
     reference_date ms cd0 = Returns cd ->
     weights_in_range self cd ms ->
     (Float.fit self ms cd0 = Raises ZeroDivisionError <->
      ms <> [] /\ goalless ms)) /\
  (scored_in ancient_goal_matches /\
   Float.fit default_model ancient_goal_matches None =
     Raises ZeroDivisionError).
Proof.
  split.
  - intros self ms cd0 cd Hcd Hr.
    rewrite (float_fit_exact self ms cd0 cd Hcd Hr).
    apply fit_zero_division_exact.
  - split; [| exact float_fit_ancient_goal].
    exists (MkMatch "a1" "A" "B" 1 0 0). split; [now left |].
    cbn [home_goals away_goals]. lia.
Qed.

Lemma fit_zero_division_iff_witness :
  Float.fit default_model [MkMatch "g2" "C" "D" 0 0 0] None =
  Raises ZeroDivisionError.
Proof.
  destruct fit_zero_division_iff as [H _].
  apply (H default_model [MkMatch "g2" "C" "D" 0 0 0] None 0%Z).
  - reflexivity.
  - intros m [<- | []]. cbn [match_date].
    rewrite Z.sub_diag, Rmult_0_r. lra.
  - split; [discriminate |].
    intros m [<- | []]. now split.
Defined.

(** X3. On a model whose [team_attack] and [team_defense] hold the same
    teams (as after [__init__] and after every [fit]), [fit] never raises
    [KeyError] and the model it leaves again holds the same teams in both
    dictionaries, whatever the dates; and as long as no time-decay weight
    leaves the range of doubles it returns exactly when a goal was scored
    in the list, or the list is empty and a reference date was given. *)
Theorem fit_keeps_consistent :
  forall (self : DixonColesModel) (ms : list match_row) (cd0 : option Z),
    consistent self ->
    Float.fit self ms cd0 <> Raises KeyError /\
    (forall m', Float.fit self ms cd0 = Returns m' -> consistent m') /\
    (forall cd,
       reference_date ms cd0 = Returns cd ->
       weights_in_range self cd ms ->
       ((exists m', Float.fit self ms cd0 = Returns m') <->
        (ms = [] /\ cd0 <> None) \/ scored_in ms)).
Proof.
  intros self ms cd0 Hc. split; [| split].
  - now apply float_fit_no_key_error.
  - intros m'. now apply float_fit_consistent.
  - intros cd Hcd Hr. rewrite (float_fit_exact self ms cd0 cd Hcd Hr).
    now apply fit_keeps_consistent_exact.
Qed.

Lemma fit_keeps_consistent_witness :
  Float.fit default_model ancient_matches None <> Raises KeyError /\
  consistent fitted_ancient.
Proof.
  assert (Hc : consistent default_model).
  { unfold consistent, default_model, init, wf. cbn. split; [constructor |].
    split; [constructor | tauto]. }
  destruct (fit_keeps_consistent default_model ancient_matches None Hc)
    as (H1 & H2 & _).
  split; [exact H1 | apply H2, float_fit_ancient].
Defined.

(** X23. When [fit] returns, [self.teams] has gained exactly the teams
    named in the matches and stays duplicate-free.  On a fresh model
    every rated team is named in the matches and is in [self.teams]; the
    converse needs the weights to stay in the range of doubles: then the
    teams of [self.teams] are exactly the rated ones. *)
Theorem fit_frame :
  forall (self : DixonColesModel) (ms : list match_row) (cd0 : option Z)
         (m' : DixonColesModel),
    Float.fit self ms cd0 = Returns m' ->
    (forall t, In t (teams m') <->
               In t (teams self) \/ In t (match_teams ms)) /\
    (NoDup (teams self) -> NoDup (teams m')) /\
    (team_attack self = [] ->
     forall t, In t (keys (team_attack m')) ->
               In t (match_teams ms) /\ In t (teams m')) /\
    (team_attack self = [] -> teams self = [] ->
     forall cd,
       reference_date ms cd0 = Returns cd ->
       weights_in_range self cd ms ->
       forall t, In t (teams m') <-> In t (keys (team_attack m'))).
Proof.
  intros self ms cd0 m' Hfit.
  pose proof Hfit as Hinv. apply float_fit_inv in Hinv.
  destruct Hinv as (cd & tms & stats & a1 & d1 & a2 & d2 &
                    Hcd & Hcol & Hrate & Hnorm & ->).
  cbn [teams team_attack].
  apply float_collect_inv in Hcol.
  destruct Hcol as (_ & Hks & Hin & Hnd).
  split; [exact Hin |]. split; [exact Hnd |].
  assert (Hsub : team_attack self = [] ->
                 forall t, In t (keys a2) ->
                           In t (match_teams ms) /\ In t tms).
  { intros Ha t Ht.
    apply rate_loop_inv in Hrate.
    destruct Hrate as (_ & _ & Hsub & _).
    apply normalize_loop_keys in Hnorm. destruct Hnorm as [Ea _].
    rewrite Ea in Ht. apply Hsub in Ht. rewrite Ha in Ht.
    destruct Ht as [[] | Ht]. apply Hks in Ht.
    destruct Ht as [[] | Ht]. split; [exact Ht |].
    apply Hin. now right. }
  split; [exact Hsub |].
  intros Ha Ht cd' Hcd' Hr t.
  split; [| intros H; now apply (Hsub Ha)].
  intros H. apply Hin in H. rewrite Ht in H. destruct H as [[] | H].
  rewrite (float_fit_exact self ms cd0 cd' Hcd' Hr) in Hfit.
  destruct (fit_rated_exact self ms cd0 _ Hfit t H) as [Hc _].
  cbn [team_attack] in Hc. now apply contains_true_iff in Hc.
Qed.

Lemma fit_frame_witness :
  (forall t, In t (teams fitted_ancient) <->
             In t (teams default_model) \/ In t (match_teams ancient_matches))
  /\ NoDup (teams fitted_ancient).
Proof.
  destruct (fit_frame default_model ancient_matches None fitted_ancient
              float_fit_ancient) as (H1 & H2 & _).
  split; [exact H1 | apply H2; constructor].
Defined.

(* ================================================================== *)
(** * The time-decay weight in doubles *)

Lemma float_weight_cases self d cd :
  0 <= xi self -> (d <= cd)%Z ->
  exists w,
    Float.time_decay_weight self d cd = Returns w /\
    0 <= w <= 1 /\
    (xi self * IZR (cd - d) <= 745 -> w = time_decay_weight self d cd /\ 0 < w) /\
    (745.2 <= xi self * IZR (cd - d) -> w = 0).
Proof.
  intros Hxi Hd.
  assert (Hdays : 0 <= IZR (cd - d)) by (apply IZR_le; lia).
  assert (Hx : 0 <= xi self * IZR (cd - d)) by now apply Rmult_le_pos.
  pose proof (time_decay_weight_unit self d cd Hxi Hd) as Hu.
  unfold Float.time_decay_weight. cbv zeta.
  destruct (math_exp_cases (- xi self * IZR (cd - d)))
    as [[H _] | [[H E] | [H E]]].
  - unfold Float.exp_overflow in H. lra.
  - exists 0. rewrite E. split; [reflexivity |]. split; [lra |].
    unfold Float.exp_underflow in H. split; intros; [lra | reflexivity].
  - exists (time_decay_weight self d cd). rewrite E.
    split; [reflexivity |]. split; [lra |].
    unfold Float.exp_underflow in H. split; intros; [split; [reflexivity | lra] | lra].
Qed.

(** X5. [time_decay_weight] in doubles: it is 1 on the reference date
    and for [xi = 0]; the only exception it can raise is [OverflowError],
    which it does raise when [- xi * days] exceeds 709.79 (a match far
    after the reference date); for [xi >= 0] and a match not later than
    the reference date it returns a weight in [0, 1], positive when
    [xi * days <= 745] and exactly 0.0 when [xi * days >= 745.2]; and of
    two such matches the older one never has the larger weight. *)
Theorem time_decay_weight_bounds :
  forall (self : DixonColesModel) (current_date : Z),
    Float.time_decay_weight self current_date current_date = Returns 1 /\
    (xi self = 0 ->
     forall d, Float.time_decay_weight self d current_date = Returns 1) /\
    (forall d e,
       Float.time_decay_weight self d current_date = Raises e ->
       e = OverflowError) /\
    (forall d,
       709.79 <= - xi self * IZR (current_date - d) ->
       Float.time_decay_weight self d current_date = Raises OverflowError) /\
    (0 <= xi self ->
     forall d, (d <= current_date)%Z ->
       exists w,
         Float.time_decay_weight self d current_date = Returns w /\
         0 <= w <= 1 /\
         (xi self * IZR (current_date - d) <= 745 -> 0 < w) /\
         (745.2 <= xi self * IZR (current_date - d) -> w = 0)) /\
    (0 <= xi self ->
     forall d1 d2 w1 w2, (d1 <= d2)%Z -> (d2 <= current_date)%Z ->
       Float.time_decay_weight self d1 current_date = Returns w1 ->
       Float.time_decay_weight self d2 current_date = Returns w2 ->
       w1 <= w2).
Proof.
  intros self cd. split; [| split; [| split; [| split; [| split]]]].
  - apply float_weight_same_day.
  - intros Hxi d. unfold Float.time_decay_weight. cbv zeta.
    rewrite Hxi. replace (- 0 * IZR (cd - d)) with 0 by ring.
    rewrite math_exp_in_range, exp_0; [reflexivity |].
    unfold Float.exp_underflow, Float.exp_overflow. lra.
  - intros d e. unfold Float.time_decay_weight. cbv zeta.
    apply math_exp_raises.
  - intros d H. unfold Float.time_decay_weight. cbv zeta.
    apply math_exp_overflow. unfold Float.exp_overflow. lra.
  - intros Hxi d Hd.
    destruct (float_weight_cases self d cd Hxi Hd)
      as (w & Hw & Hb & Hpos & Hz).
    exists w. split; [exact Hw |]. split; [exact Hb |].
    split; [intros H; now apply Hpos | exact Hz].
  - intros Hxi d1 d2 w1 w2 H12 H2 Hw1 Hw2.
    assert (Hdays : IZR (cd - d2) <= IZR (cd - d1)) by (apply IZR_le; lia).
    assert (Hd2 : 0 <= IZR (cd - d2)) by (apply IZR_le; lia).
    assert (Hle : - xi self * IZR (cd - d1) <= - xi self * IZR (cd - d2))
      by nra.
    unfold Float.time_decay_weight in Hw1, Hw2. cbv zeta in Hw1, Hw2.
    destruct (math_exp_cases (- xi self * IZR (cd - d1)))
      as [[_ E1] | [[L1 E1] | [L1 E1]]];
      rewrite E1 in Hw1; [discriminate | |]; injection Hw1 as <-.
    + apply math_exp_returns in Hw2. lra.
    + destruct (math_exp_cases (- xi self * IZR (cd - d2)))
        as [[_ E2] | [[L2 E2] | [L2 E2]]];
        rewrite E2 in Hw2; [discriminate | |]; injection Hw2 as <-.
      * lra.
      * destruct Hle as [Hlt | Heq].
        -- left. now apply exp_increasing.
        -- right. now rewrite Heq.
Qed.

Lemma time_decay_weight_bounds_witness :
  exists w,
    Float.time_decay_weight default_model 0 100 = Returns w /\
    0 < w <= 1.
Proof.
  destruct (time_decay_weight_bounds default_model 100)
    as (_ & _ & _ & _ & H & _).
  destruct (H ltac:(unfold default_model, init; cbn [xi]; lra) 0%Z
              ltac:(lia)) as (w & Hw & Hb & Hpos & _).
  exists w. split; [exact Hw |]. split; [| apply Hb].
  apply Hpos. unfold default_model, init. cbn [xi].
  replace (100 - 0)%Z with 100%Z by reflexivity. lra.
Defined.

(** X6. When [fit] is called without [current_date] on a non-empty list,
    the reference date is the latest match date: no match is later, some
    match is played on it and has weight 1, and for [xi >= 0] the weight
    of every match is returned, never raised, and lies in [0, 1]; it is
    positive for a match at most [745 / xi] days old. *)
Theorem default_reference_date :
  forall (self : DixonColesModel) (ms : list match_row) (cd : Z),
    reference_date ms None = Returns cd ->
    (forall m, In m ms -> (match_date m <= cd)%Z) /\
    (exists m, In m ms /\ match_date m = cd /\
               Float.time_decay_weight self (match_date m) cd = Returns 1) /\
    (0 <= xi self ->
     forall m, In m ms ->
       exists w,
         Float.time_decay_weight self (match_date m) cd = Returns w /\
         0 <= w <= 1 /\
         (xi self * IZR (cd - match_date m) <= 745 -> 0 < w)).
Proof.
  intros self ms cd Hcd. simpl in Hcd.
  destruct ms as [| m0 ms]; [discriminate Hcd |].
  simpl in Hcd. injection Hcd as <-.
  destruct (fold_max_ge (map match_date ms) (match_date m0))
    as (H1 & H2 & H3).
  set (cd := fold_left Z.max (map match_date ms) (match_date m0)) in *.
  assert (Hle : forall m, In m (m0 :: ms) -> (match_date m <= cd)%Z).
  { intros m [<- | Hm]; [exact H1 |].
    apply H2. apply in_map_iff. now exists m. }
  split; [exact Hle |]. split.
  - destruct H3 as [H3 | H3].
    + exists m0. split; [now left |]. split; [now rewrite H3 |].
      rewrite <- H3. apply float_weight_same_day.
    + apply in_map_iff in H3. destruct H3 as (m & Hm & Hin).
      exists m. split; [now right |]. split; [exact Hm |].
      rewrite Hm. apply float_weight_same_day.
  - intros Hxi m Hm.
    destruct (float_weight_cases self (match_date m) cd Hxi (Hle m Hm))
      as (w & Hw & Hb & Hpos & _).
    exists w. split; [exact Hw |]. split; [exact Hb |].
    intros H. now apply Hpos.
Qed.

Lemma default_reference_date_witness :
  (forall m, In m ancient_matches -> (match_date m <= 118000)%Z) /\
  (exists w,
     Float.time_decay_weight default_model 0 118000 = Returns w /\
     0 <= w <= 1).
Proof.
  destruct (default_reference_date default_model ancient_matches 118000
              eq_refl) as (H1 & _ & H3).
  split; [exact H1 |].
  destruct (H3 ltac:(unfold default_model, init; cbn [xi]; lra)
              (MkMatch "a1" "A" "B" 1 0 0) ltac:(now left))
    as (w & Hw & Hb & _).
  exists w. split; [exact Hw | exact Hb].
Defined.

(* ================================================================== *)
(** * The mass of the grid in doubles *)

(** X12. In [predict], for means between 0 and 1e50 the two loops
    return, and the total of the three accumulators before
    renormalisation does not depend on the model, so not on [rho] (the
    tau correction only moves mass between scorelines).  The total lies
    in [0, 1]; it is below 1 as soon as one mean is positive, because the
    scorelines with more than six goals on a side are left out; it is
    positive when [lambda_h + mu_a <= 700], and exactly 0.0 when one
    mean is 745.2 or more, because [math.exp] underflows. *)
Theorem score_grid_mass :
  forall lambda_h mu_a : R,
    0 <= lambda_h <= 10 ^ 50 -> 0 <= mu_a <= 10 ^ 50 ->
    exists total : R,
      (forall self : DixonColesModel,
         exists b, Float.score_grid self lambda_h mu_a = Returns b /\
                   bucket_total b = total) /\
      0 <= total <= 1 /\
      (0 < lambda_h + mu_a -> total < 1) /\
      (lambda_h + mu_a <= 700 -> 0 < total) /\
      (745.2 <= lambda_h \/ 745.2 <= mu_a -> total = 0).
Proof.
  intros l m Hl Hm.
  assert (Hexp : forall x, 0 <= x ->
            exists a, Float.math_exp (- x) = Returns a /\
                      0 <= a <= exp (- x) /\
                      (x <= 700 -> a = exp (- x)) /\
                      (745.2 <= x -> a = 0)).
  { intros x Hx. pose proof (exp_pos (- x)).
    destruct (math_exp_cases (- x)) as [[H0 _] | [[H0 E] | [H0 E]]].
    - unfold Float.exp_overflow in H0. lra.
    - exists 0. split; [exact E |]. split; [lra |].
      unfold Float.exp_underflow in H0. split; intros; [lra | reflexivity].
    - exists (exp (- x)). split; [exact E |]. split; [lra |].
      unfold Float.exp_underflow in H0. split; intros; [reflexivity | lra]. }
  destruct (Hexp l (proj1 Hl)) as (a & Ha & Hab & Hain & Ha0).
  destruct (Hexp m (proj1 Hm)) as (c & Hc & Hcb & Hcin & Hc0).
  assert (Hla : Rabs l <= 10 ^ 50) by (apply Rabs_le; lra).
  assert (Hma : Rabs m <= 10 ^ 50) by (apply Rabs_le; lra).
  pose proof (texp_pos l) as Tl. pose proof (texp_pos m) as Tm.
  assert (Tlm : 0 < texp l * texp m) by now apply Rmult_lt_0_compat.
  destruct (score_grid_mass_exact default_model l m)
    as (_ & _ & Hle1 & Hlt1).
  rewrite <- grid_with_exact, grid_with_total in Hle1, Hlt1.
  assert (Hac : 0 <= a * c <= exp (- l) * exp (- m)).
  { split; [apply Rmult_le_pos; lra |].
    apply Rmult_le_compat; lra. }
  assert (Hup : a * c * (texp l * texp m)
                <= exp (- l) * exp (- m) * (texp l * texp m)).
  { apply Rmult_le_compat_r; lra. }
  exists (a * c * (texp l * texp m)).
  split; [| split; [| split; [| split]]].
  - intros self. exists (grid_with a c self l m).
    split; [now apply float_score_grid_with | apply grid_with_total].
  - split; [apply Rmult_le_pos; lra |].
    specialize (Hle1 (proj1 Hl) (proj1 Hm)). lra.
  - intros Hpos. specialize (Hlt1 (proj1 Hl) (proj1 Hm) Hpos). lra.
  - intros Hsum. rewrite Hain, Hcin by lra.
    pose proof (exp_pos (- l)). pose proof (exp_pos (- m)).
    repeat apply Rmult_lt_0_compat; assumption.
  - intros [H | H]; [rewrite (Ha0 H) | rewrite (Hc0 H)]; ring.
Qed.

Lemma score_grid_mass_witness :
  exists total : R,
    (forall self : DixonColesModel,
       exists b, Float.score_grid self 1001 1 = Returns b /\
                 bucket_total b = total) /\
    total = 0.
Proof.
  assert (Hbig : 1001 <= 10 ^ 50).
  { replace (10 ^ 50) with (10 ^ 4 * 10 ^ 46)
      by (rewrite <- pow_add; reflexivity).
    assert (1 <= 10 ^ 46) by (apply pow_R1_Rle; lra).
    nra. }
  destruct (score_grid_mass 1001 1 ltac:(lra) ltac:(lra))
    as (total & H1 & _ & _ & _ & H0).
  exists total. split; [exact H1 |]. apply H0. left. lra.
Defined.
